(** * Chart synchronisation core of the assets-market-cap front end

    A shallow embedding of the TypeScript sources that keep a price chart in
    step with the data service, and the properties proved about them:

    - [services/errors.ts]              error classes, the classifiers,
                                        [extractSymbolFromError]
    - API service                       [handleResponseError], [fetchWithRetry]
    - asset detail page                 merge of refreshed candles into the history,
                                        failure of a lightweight refresh
    - [hooks/useRateLimitRetry.ts]      rate-limit retry countdown
    - [hooks/useAutoRefreshCountdown.ts] auto-refresh countdown
    - technical indicators              [calculateSMA], [calculateEMA], Bollinger bands,
                                        [calculateIndicators] and the merge with prices
    - [components/MarketStatus.tsx]     [calculateTimeInfo], [formatCountdown]
    - timezone utilities                [convertTimezone]

    Conventions.  A JavaScript [number] that the code only uses as an
    integer (timestamps, indices, periods, seconds, minutes) is a [Z] or a
    [nat]; prices and indicator values are IEEE 754 binary64 numbers
    ([float], the kernel's primitive doubles, rounding to nearest even as
    JavaScript does); the indicator functions are written over a class of
    arithmetics, so that what is proved of them for every arithmetic holds
    of the doubles, and the real numbers are a second instance; the wait
    time of a rate-limit error is a rational ([Q]) so that [Math.ceil]
    computes.
    [undefined] and [null] are [None].  Strings are [string]s of 8-bit
    characters. *)

From Stdlib Require Import ZArith List String Ascii Bool Lia.
From Stdlib Require Import DecimalString QArith Qround Qabs.
From Stdlib Require Import Reals Lra.
From Stdlib Require Import PrimFloat.
From Stdlib Require FloatOps SpecFloat.

Set Warnings "-inexact-float".
From Stdlib Require Import Sorted Permutation.
Import ListNotations.

Local Open Scope string_scope.
Local Open Scope list_scope.
Local Open Scope Z_scope.

(* ================================================================== *)
(** * Part I: the embedding *)
(* ================================================================== *)

(* ------------------------------------------------------------------ *)
(** ** JavaScript string primitives used by the sources *)

(** [s.includes(needle)]. *)
Fixpoint includes (needle s : string) : bool :=
  String.prefix needle s ||
  match s with
  | EmptyString => false
  | String _ rest => includes needle rest
  end.

Definition lower_ascii (c : ascii) : ascii :=
  let n := nat_of_ascii c in
  if ((65 <=? n) && (n <=? 90))%nat then ascii_of_nat (n + 32) else c.

(** [s.toLowerCase()] on 8-bit characters: only [A]-[Z] change. *)
Fixpoint toLowerCase (s : string) : string :=
  match s with
  | EmptyString => EmptyString
  | String c rest => String (lower_ascii c) (toLowerCase rest)
  end.

(** [s.split(sep)] for a one-character separator. *)
Fixpoint split (sep : ascii) (s : string) : list string :=
  match s with
  | EmptyString => [EmptyString]
  | String c rest =>
      if Ascii.eqb c sep then EmptyString :: split sep rest
      else match split sep rest with
           | [] => [String c EmptyString]
           | piece :: pieces => String c piece :: pieces
           end
  end.

(** [String(n)] for an integer [n]. *)
Definition string_of_Z (n : Z) : string := NilZero.string_of_int (Z.to_int n).

(** [s.padStart(2, '0')]. *)
Definition padStart2 (s : string) : string :=
  match String.length s with
  | O => "00"
  | S O => ("0" ++ s)%string
  | _ => s
  end.

(** What it means for [needle] to occur in [s]. *)
Definition Contains (needle s : string) : Prop :=
  exists before after, s = (before ++ needle ++ after)%string.

(* ------------------------------------------------------------------ *)
(** ** services/errors.ts *)

(** Instances of [Error] and of the four subclasses the module declares.
    Each carries the [message] that its constructor passed to [super]. *)
Inductive JsError : Type :=
| PlainError (message : string)
| RateLimitError (message : string) (waitTime : Q)
| ServerTimeoutError (message : string)
| SymbolNotFoundError (symbol message : string)
| EmptyHistoryError (symbol userMessage : string).

(** A value of type [unknown], as a [catch] clause receives it. *)
Inductive Thrown : Type :=
| ThrownError (e : JsError)
| ThrownOther (description : string).

Definition error_message (e : JsError) : string :=
  match e with
  | PlainError m => m
  | RateLimitError m _ => m
  | ServerTimeoutError m => m
  | SymbolNotFoundError _ m => m
  | EmptyHistoryError _ m => m
  end.

(** [new RateLimitError(message = 'Too Many Requests. Rate limited.', waitTime = 0)] *)
Definition new_RateLimitError (message : option string) (waitTime : option Q) : JsError :=
  RateLimitError
    (match message with Some m => m | None => "Too Many Requests. Rate limited." end)
    (match waitTime with Some w => w | None => 0%Q end).

(** [error instanceof RateLimitError] *)
Definition instanceof_RateLimitError (error : Thrown) : bool :=
  match error with
  | ThrownError (RateLimitError _ _) => true
  | _ => false
  end.

(** [error instanceof Error] *)
Definition instanceof_Error (error : Thrown) : option JsError :=
  match error with
  | ThrownError e => Some e
  | ThrownOther _ => None
  end.

Definition isRateLimitError (error : Thrown) : bool :=
  if instanceof_RateLimitError error then true
  else
    match instanceof_Error error with
    | Some e =>
        let message := toLowerCase (error_message e) in
        includes "rate limit" message
        || includes "too many requests" message
        || includes "429" message
    | None => false
    end.

(* ------------------------------------------------------------------ *)
(** ** Candle series and the merge of refreshed candles *)

(** [PricePoint] of types/asset.ts. *)
Record PricePoint : Type := mkPricePoint {
  date : string;
  timestamp : Z;
  price : float;
  open : option float;
  high : option float;
  low : option float;
  volume : option float
}.

(** An element of [RefreshResponse.candles] (services/inventoryApi.ts). *)
Record Candle : Type := mkCandle {
  c_date : string;
  c_timestamp : Z;
  c_open : float;
  c_high : float;
  c_low : float;
  c_close : float;
  c_price : float;
  c_volume : float
}.

(** The object literal that the updater builds for each refreshed candle. *)
Definition toPricePoint (c : Candle) : PricePoint :=
  {| date := c_date c;
     timestamp := c_timestamp c;
     price := c_price c;
     open := Some (c_open c);
     high := Some (c_high c);
     low := Some (c_low c);
     volume := Some (c_volume c) |}.

(** A JavaScript [Map] from timestamps to price points: the entries in
    insertion order, at most one per key. *)
Definition TsMap : Type := list (Z * PricePoint).

(** [m.set(k, v)]: overwrite in place when the key is present, append
    otherwise. *)
Fixpoint Map_set (k : Z) (v : PricePoint) (m : TsMap) : TsMap :=
  match m with
  | [] => [(k, v)]
  | (k', v') :: rest =>
      if k =? k' then (k, v) :: rest else (k', v') :: Map_set k v rest
  end.

(** [new Map(entries)] *)
Definition Map_new (entries : list (Z * PricePoint)) : TsMap :=
  fold_left (fun m e => Map_set (fst e) (snd e) m) entries [].

(** [Array.from(m.values())] *)
Definition Map_values (m : TsMap) : list PricePoint := map snd m.

Definition Map_get (k : Z) (m : TsMap) : option PricePoint :=
  match find (fun e => k =? fst e) m with
  | Some e => Some (snd e)
  | None => None
  end.

(** [arr.sort((a, b) => a.timestamp - b.timestamp)].  The standard
    requires the sort to be stable, which fixes the result; a stable
    insertion sort computes it. *)
Fixpoint insert_by_timestamp (x : PricePoint) (l : list PricePoint) : list PricePoint :=
  match l with
  | [] => [x]
  | y :: rest =>
      if timestamp x - timestamp y <=? 0 then x :: y :: rest
      else y :: insert_by_timestamp x rest
  end.

Definition sort_by_timestamp (l : list PricePoint) : list PricePoint :=
  fold_right insert_by_timestamp [] l.

(** The body of the updater once [prev] is known to be a non-empty array
    and the candles have been converted. *)
Definition mergeCandles (prev newCandles : list PricePoint) : list PricePoint :=
  let existingByTimestamp := Map_new (map (fun p => (timestamp p, p)) prev) in
  let existingByTimestamp :=
    fold_left (fun m candle => Map_set (timestamp candle) candle m)
              newCandles existingByTimestamp in
  sort_by_timestamp (Map_values existingByTimestamp).

(** The function passed to [setHistoryData]; [prev = None] is a
    [null]/[undefined] state. *)
Definition historyUpdater (candles : list Candle)
    (prev : option (list PricePoint)) : option (list PricePoint) :=
  match prev with
  | None => None
  | Some [] => Some []
  | Some (p :: ps) => Some (mergeCandles (p :: ps) (map toPricePoint candles))
  end.

(** The merge step of the lightweight refresh: the updater runs only if
    [response.candles] is present and non-empty. *)
Definition applyRefreshCandles (candles : option (list Candle))
    (historyData : option (list PricePoint)) : option (list PricePoint) :=
  match candles with
  | Some (c :: cs) => historyUpdater (c :: cs) historyData
  | _ => historyData
  end.

(** [merge(existing, incoming)] of the candle merge engine: the history
    after one lightweight refresh that delivered [incoming]. *)
Definition merge (existing : list PricePoint) (incoming : list Candle) : list PricePoint :=
  match applyRefreshCandles (Some incoming) (Some existing) with
  | Some merged => merged
  | None => []
  end.

(** A candle series in the sense of the data model. *)
Definition StrictlyAscending (l : list PricePoint) : Prop :=
  StronglySorted (fun a b => timestamp a < timestamp b) l.

(** The last element of [l] with timestamp [t]. *)
Fixpoint lastWrite (t : Z) (l : list PricePoint) : option PricePoint :=
  match l with
  | [] => None
  | x :: rest =>
      match lastWrite t rest with
      | Some y => Some y
      | None => if t =? timestamp x then Some x else None
      end
  end.

(** The element of a series at timestamp [t]. *)
Definition at_timestamp (t : Z) (l : list PricePoint) : option PricePoint :=
  find (fun p => t =? timestamp p) l.

(** The candles of the worked example: [{t, p}] is a candle at timestamp
    [t] with price [p]. *)
Definition point (t : Z) (p : float) : PricePoint :=
  {| date := ""; timestamp := t; price := p;
     open := None; high := None; low := None; volume := None |}.

Definition candle (t : Z) (p : float) : Candle :=
  {| c_date := ""; c_timestamp := t; c_open := p; c_high := p; c_low := p;
     c_close := p; c_price := p; c_volume := 0%float |}.

(** The price point that holds the values of a candle: the seven fields
    the history keeps, each with the candle's value ([close] is not
    kept). *)
Definition carries (p : PricePoint) (c : Candle) : Prop :=
  date p = c_date c /\ timestamp p = c_timestamp c /\ price p = c_price c
  /\ open p = Some (c_open c) /\ high p = Some (c_high c)
  /\ low p = Some (c_low c) /\ volume p = Some (c_volume c).

(** The candle [{t, p}] of the worked example once it is in the history. *)
Definition stored (t : Z) (p : float) : PricePoint :=
  {| date := ""; timestamp := t; price := p;
     open := Some p; high := Some p; low := Some p; volume := Some 0%float |}.

(** The step of both loops that fill the map: [m.set(p.timestamp, p)]. *)
Definition setPoint (m : TsMap) (p : PricePoint) : TsMap :=
  Map_set (timestamp p) p m.

(** A map as the updater builds it: no key twice, every value under its
    own timestamp. *)
Definition MapWf (m : TsMap) : Prop :=
  NoDup (map fst m) /\ Forall (fun e => fst e = timestamp (snd e)) m.

(* ------------------------------------------------------------------ *)
(** ** hooks/useRateLimitRetry.ts *)

Definition DEFAULT_RETRY_DELAY_SECONDS : Q := 60.

(** One mounted instance of the hook together with the part of the
    browser it talks to.  [useState] cells and [useRef] cells are fields;
    a state setter assigns the field and the next [commitRetry] plays the
    render that React schedules for it. *)
Record RetryHook : Type := mkRetryHook {
  defaultRetryDelaySeconds : Q;   (* the hook's second parameter *)
  isRateLimited : bool;           (* useState(false) *)
  secondsRemaining : Z;           (* useState(0) *)
  intervalRef : option nat;       (* useRef(null): handle of the interval *)
  isCountingDown : bool;          (* useRef(false) *)
  countdownDeps : option bool;    (* [isRateLimited] of the render whose
                                     countdown effect ran last *)
  liveIntervals : list nat;       (* intervals the window still fires *)
  nextHandle : nat;               (* handle of the next timer *)
  queuedRetries : nat;            (* setTimeout(() => onRetryRef.current(), 0)
                                     callbacks not yet run *)
  retryCalls : nat                (* how often the retry callback has run *)
}.

Definition mountRetryState (delay : Q) : RetryHook :=
  {| defaultRetryDelaySeconds := delay;
     isRateLimited := false;
     secondsRemaining := 0;
     intervalRef := None;
     isCountingDown := false;
     countdownDeps := None;
     liveIntervals := [];
     nextHandle := 1;
     queuedRetries := 0;
     retryCalls := 0 |}.

(** [if (intervalRef.current) { clearInterval(intervalRef.current);
    intervalRef.current = null; }] *)
Definition clearIntervalRef (h : RetryHook) : RetryHook :=
  match intervalRef h with
  | Some id =>
      {| defaultRetryDelaySeconds := defaultRetryDelaySeconds h;
         isRateLimited := isRateLimited h;
         secondsRemaining := secondsRemaining h;
         intervalRef := None;
         isCountingDown := isCountingDown h;
         countdownDeps := countdownDeps h;
         liveIntervals := remove Nat.eq_dec id (liveIntervals h);
         nextHandle := nextHandle h;
         queuedRetries := queuedRetries h;
         retryCalls := retryCalls h |}
  | None => h
  end.

Definition set_isCountingDown (b : bool) (h : RetryHook) : RetryHook :=
  {| defaultRetryDelaySeconds := defaultRetryDelaySeconds h;
     isRateLimited := isRateLimited h;
     secondsRemaining := secondsRemaining h;
     intervalRef := intervalRef h;
     isCountingDown := b;
     countdownDeps := countdownDeps h;
     liveIntervals := liveIntervals h;
     nextHandle := nextHandle h;
     queuedRetries := queuedRetries h;
     retryCalls := retryCalls h |}.

Definition setIsRateLimited (b : bool) (h : RetryHook) : RetryHook :=
  {| defaultRetryDelaySeconds := defaultRetryDelaySeconds h;
     isRateLimited := b;
     secondsRemaining := secondsRemaining h;
     intervalRef := intervalRef h;
     isCountingDown := isCountingDown h;
     countdownDeps := countdownDeps h;
     liveIntervals := liveIntervals h;
     nextHandle := nextHandle h;
     queuedRetries := queuedRetries h;
     retryCalls := retryCalls h |}.

Definition setSecondsRemaining (n : Z) (h : RetryHook) : RetryHook :=
  {| defaultRetryDelaySeconds := defaultRetryDelaySeconds h;
     isRateLimited := isRateLimited h;
     secondsRemaining := n;
     intervalRef := intervalRef h;
     isCountingDown := isCountingDown h;
     countdownDeps := countdownDeps h;
     liveIntervals := liveIntervals h;
     nextHandle := nextHandle h;
     queuedRetries := queuedRetries h;
     retryCalls := retryCalls h |}.

(** [intervalRef.current = window.setInterval(..., 1000)] *)
Definition startInterval (h : RetryHook) : RetryHook :=
  {| defaultRetryDelaySeconds := defaultRetryDelaySeconds h;
     isRateLimited := isRateLimited h;
     secondsRemaining := secondsRemaining h;
     intervalRef := Some (nextHandle h);
     isCountingDown := isCountingDown h;
     countdownDeps := countdownDeps h;
     liveIntervals := liveIntervals h ++ [nextHandle h];
     nextHandle := S (nextHandle h);
     queuedRetries := queuedRetries h;
     retryCalls := retryCalls h |}.

(** [setTimeout(() => { onRetryRef.current(); }, 0)] *)
Definition queueRetry (h : RetryHook) : RetryHook :=
  {| defaultRetryDelaySeconds := defaultRetryDelaySeconds h;
     isRateLimited := isRateLimited h;
     secondsRemaining := secondsRemaining h;
     intervalRef := intervalRef h;
     isCountingDown := isCountingDown h;
     countdownDeps := countdownDeps h;
     liveIntervals := liveIntervals h;
     nextHandle := nextHandle h;
     queuedRetries := S (queuedRetries h);
     retryCalls := retryCalls h |}.

Definition set_countdownDeps (d : option bool) (h : RetryHook) : RetryHook :=
  {| defaultRetryDelaySeconds := defaultRetryDelaySeconds h;
     isRateLimited := isRateLimited h;
     secondsRemaining := secondsRemaining h;
     intervalRef := intervalRef h;
     isCountingDown := isCountingDown h;
     countdownDeps := d;
     liveIntervals := liveIntervals h;
     nextHandle := nextHandle h;
     queuedRetries := queuedRetries h;
     retryCalls := retryCalls h |}.

(** The function the interval runs every second: the updater passed to
    [setSecondsRemaining] with its side effects. *)
Definition onInterval (h : RetryHook) : RetryHook :=
  let next := secondsRemaining h - 1 in
  if next <=? 0 then
    let h := set_isCountingDown false h in
    let h := setIsRateLimited false h in
    let h := clearIntervalRef h in
    let h := queueRetry h in
    setSecondsRemaining 0 h
  else setSecondsRemaining next h.

(** Body of the countdown effect, run with the state of the render. *)
Definition countdownEffect (h : RetryHook) : RetryHook :=
  if isRateLimited h && (0 <? secondsRemaining h) && negb (isCountingDown h) then
    startInterval (set_isCountingDown true h)
  else h.

(** The cleanup returned by the countdown effect; [captured] is the
    [isRateLimited] of the render that created it. *)
Definition countdownCleanup (captured : bool) (h : RetryHook) : RetryHook :=
  if negb captured && (match intervalRef h with Some _ => true | None => false end) then
    set_isCountingDown false (clearIntervalRef h)
  else h.

(** React commits a render: the countdown effect has the dependency list
    [[isRateLimited]], so it runs on mount and whenever [isRateLimited]
    differs from the previous render; the previous cleanup runs first. *)
Definition commitRetry (h : RetryHook) : RetryHook :=
  match countdownDeps h with
  | None => set_countdownDeps (Some (isRateLimited h)) (countdownEffect h)
  | Some previous =>
      if Bool.eqb previous (isRateLimited h) then h
      else set_countdownDeps (Some (isRateLimited h))
             (countdownEffect (countdownCleanup previous h))
  end.

Definition startRetryCountdown (waitTimeSeconds : option Q) (h : RetryHook) : RetryHook :=
  let h := clearIntervalRef h in
  let h := set_isCountingDown false h in
  let delaySeconds :=
    match waitTimeSeconds with
    | Some w => w
    | None => defaultRetryDelaySeconds h
    end in
  let totalDelay := Qceiling delaySeconds + 1 in
  let h := setSecondsRemaining totalDelay h in
  setIsRateLimited true h.

Definition cancelRetry (h : RetryHook) : RetryHook :=
  let h := set_isCountingDown false h in
  let h := setIsRateLimited false h in
  let h := setSecondsRemaining 0 h in
  clearIntervalRef h.

Definition resetRateLimit (h : RetryHook) : RetryHook :=
  let h := set_isCountingDown false h in
  let h := setIsRateLimited false h in
  let h := setSecondsRemaining 0 h in
  clearIntervalRef h.

(** What can happen to a mounted hook. *)
Inductive RetryEvent : Type :=
| CallStart (waitTimeSeconds : option Q)  (* startRetryCountdown(w) *)
| CallCancel                              (* cancelRetry() *)
| CallReset                               (* resetRateLimit() *)
| SecondElapses                           (* every live interval fires once *)
| NextTurn.                               (* the queued timeouts run *)

Definition runQueuedRetries (h : RetryHook) : RetryHook :=
  {| defaultRetryDelaySeconds := defaultRetryDelaySeconds h;
     isRateLimited := isRateLimited h;
     secondsRemaining := secondsRemaining h;
     intervalRef := intervalRef h;
     isCountingDown := isCountingDown h;
     countdownDeps := countdownDeps h;
     liveIntervals := liveIntervals h;
     nextHandle := nextHandle h;
     queuedRetries := 0;
     retryCalls := (retryCalls h + queuedRetries h)%nat |}.

(** The intervals that are live when the second elapses each fire once;
    one that an earlier callback cleared does not. *)
Fixpoint fireIntervals (ids : list nat) (h : RetryHook) : RetryHook :=
  match ids with
  | [] => h
  | id :: rest =>
      if existsb (Nat.eqb id) (liveIntervals h)
      then fireIntervals rest (onInterval h)
      else fireIntervals rest h
  end.

Definition retryStep (h : RetryHook) (e : RetryEvent) : RetryHook :=
  match e with
  | CallStart w => commitRetry (startRetryCountdown w h)
  | CallCancel => commitRetry (cancelRetry h)
  | CallReset => commitRetry (resetRateLimit h)
  | SecondElapses => commitRetry (fireIntervals (liveIntervals h) h)
  | NextTurn => runQueuedRetries h
  end.

Definition retryRun (events : list RetryEvent) (h : RetryHook) : RetryHook :=
  fold_left retryStep events h.

(** The hook after its first render has been committed. *)
Definition useRateLimitRetry (delay : Q) : RetryHook :=
  commitRetry (mountRetryState delay).

(** The controller is idle: not rate limited, no timer, and the countdown
    effect has seen that. *)
Definition RetryIdle (h : RetryHook) : Prop :=
  isRateLimited h = false /\ intervalRef h = None /\ isCountingDown h = false
  /\ liveIntervals h = [] /\ countdownDeps h = Some false.

(** The controller counts down on the interval [id]. *)
Definition RetryCounting (id : nat) (h : RetryHook) : Prop :=
  isRateLimited h = true /\ intervalRef h = Some id /\ isCountingDown h = true
  /\ liveIntervals h = [id] /\ countdownDeps h = Some true.

(** [Math.ceil(waitTimeSeconds ?? defaultRetryDelaySeconds) + 1] *)
Definition totalDelayOf (waitTimeSeconds : option Q) (h : RetryHook) : Z :=
  Qceiling (match waitTimeSeconds with
            | Some w => w
            | None => defaultRetryDelaySeconds h
            end) + 1.

(* ------------------------------------------------------------------ *)
(** ** hooks/useAutoRefreshCountdown.ts *)

Definition AUTO_REFRESH_INTERVAL : Z := 3 * 60 * 1000.

(** The options the caller passes on every render ([onRefresh] is the
    callback whose calls [refreshCalls] counts). *)
Record RefreshOptions : Type := mkRefreshOptions {
  enabled : bool;
  isLoading : bool;
  isPaused : bool
}.

(** A live interval and the [isLoading] its callback closed over. *)
Definition RefreshInterval : Type := (nat * bool)%type.

Record RefreshHook : Type := mkRefreshHook {
  options : RefreshOptions;                   (* options of the last render *)
  ar_secondsRemaining : Z;                    (* useState(AUTO_REFRESH_INTERVAL / 1000) *)
  isRefreshing : bool;                        (* useState(false) *)
  ar_intervalRef : option nat;                (* useRef(null) *)
  mainDeps : option (bool * bool * bool);     (* [enabled, isPaused, isLoading] of the
                                                 render whose main effect ran last *)
  mainCleanup : bool;                         (* did that run return a cleanup? *)
  resetDeps : option (bool * bool);           (* [isLoading, isRefreshing] of the render
                                                 whose reset effect ran last *)
  ar_liveIntervals : list RefreshInterval;
  ar_nextHandle : nat;
  refreshCalls : nat
}.

Definition mountRefreshState (o : RefreshOptions) : RefreshHook :=
  {| options := o;
     ar_secondsRemaining := AUTO_REFRESH_INTERVAL / 1000;
     isRefreshing := false;
     ar_intervalRef := None;
     mainDeps := None;
     mainCleanup := false;
     resetDeps := None;
     ar_liveIntervals := [];
     ar_nextHandle := 1;
     refreshCalls := 0 |}.

(** [if (intervalRef.current) { clearInterval(intervalRef.current);
    intervalRef.current = null; }] *)
Definition ar_clearIntervalRef (h : RefreshHook) : RefreshHook :=
  match ar_intervalRef h with
  | Some id =>
      {| options := options h;
         ar_secondsRemaining := ar_secondsRemaining h;
         isRefreshing := isRefreshing h;
         ar_intervalRef := None;
         mainDeps := mainDeps h;
         mainCleanup := mainCleanup h;
         resetDeps := resetDeps h;
         ar_liveIntervals :=
           filter (fun t => negb (Nat.eqb (fst t) id)) (ar_liveIntervals h);
         ar_nextHandle := ar_nextHandle h;
         refreshCalls := refreshCalls h |}
  | None => h
  end.

(** [intervalRef.current = setInterval(..., 1000)], the callback closing
    over the [isLoading] of the render. *)
Definition ar_startInterval (h : RefreshHook) : RefreshHook :=
  {| options := options h;
     ar_secondsRemaining := ar_secondsRemaining h;
     isRefreshing := isRefreshing h;
     ar_intervalRef := Some (ar_nextHandle h);
     mainDeps := mainDeps h;
     mainCleanup := mainCleanup h;
     resetDeps := resetDeps h;
     ar_liveIntervals := ar_liveIntervals h ++ [(ar_nextHandle h, isLoading (options h))];
     ar_nextHandle := S (ar_nextHandle h);
     refreshCalls := refreshCalls h |}.

Definition ar_setState (seconds : Z) (refreshing : bool) (calls : nat)
    (h : RefreshHook) : RefreshHook :=
  {| options := options h;
     ar_secondsRemaining := seconds;
     isRefreshing := refreshing;
     ar_intervalRef := ar_intervalRef h;
     mainDeps := mainDeps h;
     mainCleanup := mainCleanup h;
     resetDeps := resetDeps h;
     ar_liveIntervals := ar_liveIntervals h;
     ar_nextHandle := ar_nextHandle h;
     refreshCalls := calls |}.

Definition ar_setDeps (m : option (bool * bool * bool)) (cleanup : bool)
    (r : option (bool * bool)) (h : RefreshHook) : RefreshHook :=
  {| options := options h;
     ar_secondsRemaining := ar_secondsRemaining h;
     isRefreshing := isRefreshing h;
     ar_intervalRef := ar_intervalRef h;
     mainDeps := m;
     mainCleanup := cleanup;
     resetDeps := r;
     ar_liveIntervals := ar_liveIntervals h;
     ar_nextHandle := ar_nextHandle h;
     refreshCalls := refreshCalls h |}.

Definition ar_setOptions (o : RefreshOptions) (h : RefreshHook) : RefreshHook :=
  {| options := o;
     ar_secondsRemaining := ar_secondsRemaining h;
     isRefreshing := isRefreshing h;
     ar_intervalRef := ar_intervalRef h;
     mainDeps := mainDeps h;
     mainCleanup := mainCleanup h;
     resetDeps := resetDeps h;
     ar_liveIntervals := ar_liveIntervals h;
     ar_nextHandle := ar_nextHandle h;
     refreshCalls := refreshCalls h |}.

Definition resetCountdown (h : RefreshHook) : RefreshHook :=
  ar_setState (AUTO_REFRESH_INTERVAL / 1000) false (refreshCalls h) h.

(** The updater the interval passes to [setSecondsRemaining], with its
    side effects; [loading] is the [isLoading] the callback closed over. *)
Definition ar_onInterval (loading : bool) (h : RefreshHook) : RefreshHook :=
  let prev := ar_secondsRemaining h in
  if prev <=? 1 then
    if negb loading
    then ar_setState 0 true (S (refreshCalls h)) h
    else ar_setState 0 (isRefreshing h) (refreshCalls h) h
  else ar_setState (prev - 1) (isRefreshing h) (refreshCalls h) h.

(** Body of the main countdown effect; the result says whether it
    reached the final [return () => ...]. *)
Definition mainEffect (h : RefreshHook) : RefreshHook * bool :=
  let h := ar_clearIntervalRef h in
  if negb (enabled (options h)) || isPaused (options h) then (h, false)
  else (ar_startInterval h, true).

Definition mainDepsOf (o : RefreshOptions) : bool * bool * bool :=
  (enabled o, isPaused o, isLoading o).

Definition deps3_eqb (a b : bool * bool * bool) : bool :=
  Bool.eqb (fst (fst a)) (fst (fst b)) && Bool.eqb (snd (fst a)) (snd (fst b))
  && Bool.eqb (snd a) (snd b).

Definition deps2_eqb (a b : bool * bool) : bool :=
  Bool.eqb (fst a) (fst b) && Bool.eqb (snd a) (snd b).

(** One render and commit: the main effect runs when [enabled],
    [isPaused] or [isLoading] changed (after the cleanup of its previous
    run), then the reset effect when [isLoading] or [isRefreshing]
    changed. *)
Definition commitRefreshOnce (h : RefreshHook) : RefreshHook :=
  let reset_now := (isLoading (options h), isRefreshing h) in
  let main_now := mainDepsOf (options h) in
  let run_main :=
    match mainDeps h with
    | None => true
    | Some d => negb (deps3_eqb d main_now)
    end in
  let run_reset :=
    match resetDeps h with
    | None => true
    | Some d => negb (deps2_eqb d reset_now)
    end in
  let h1 :=
    if run_main then
      let cleaned := if mainCleanup h then ar_clearIntervalRef h else h in
      let (h', returned) := mainEffect cleaned in
      ar_setDeps (Some main_now) returned (resetDeps h') h'
    else h in
  if run_reset then
    let h2 := ar_setDeps (mainDeps h1) (mainCleanup h1) (Some reset_now) h1 in
    if negb (isLoading (options h2)) && isRefreshing h2 then resetCountdown h2 else h2
  else h1.

(** React renders again when an effect set state; the second pass finds
    nothing further to do. *)
Definition commitRefresh (h : RefreshHook) : RefreshHook :=
  commitRefreshOnce (commitRefreshOnce h).

Inductive RefreshEvent : Type :=
| Render (o : RefreshOptions)   (* the caller renders with these options *)
| CallResetCountdown            (* resetCountdown() *)
| SecondPasses                  (* every live interval fires once *)
| SecondPassesThen (o : RefreshOptions).
                                (* every live interval fires once, and a call of
                                   [onRefresh] changes the caller's state in the
                                   same batch (the home page's [onRefresh] begins
                                   with [setLoading(true)]): the render that
                                   follows such a call passes the options [o] *)

Fixpoint ar_fireIntervals (timers : list RefreshInterval) (h : RefreshHook) : RefreshHook :=
  match timers with
  | [] => h
  | (id, loading) :: rest =>
      if existsb (fun t => Nat.eqb (fst t) id) (ar_liveIntervals h)
      then ar_fireIntervals rest (ar_onInterval loading h)
      else ar_fireIntervals rest h
  end.

Definition refreshStep (h : RefreshHook) (e : RefreshEvent) : RefreshHook :=
  match e with
  | Render o => commitRefresh (ar_setOptions o h)
  | CallResetCountdown => commitRefresh (resetCountdown h)
  | SecondPasses => commitRefresh (ar_fireIntervals (ar_liveIntervals h) h)
  | SecondPassesThen o =>
      let fired := ar_fireIntervals (ar_liveIntervals h) h in
      if (refreshCalls h <? refreshCalls fired)%nat
      then commitRefresh (ar_setOptions o fired)
      else commitRefresh fired
  end.

Definition refreshRun (events : list RefreshEvent) (h : RefreshHook) : RefreshHook :=
  fold_left refreshStep events h.

(** The hook after its first render has been committed. *)
Definition useAutoRefreshCountdown (o : RefreshOptions) : RefreshHook :=
  commitRefresh (mountRefreshState o).

(** The scheduler runs when it is enabled and not paused. *)
Definition shouldRun (o : RefreshOptions) : bool :=
  enabled o && negb (isPaused o).

(** A state in which React has nothing left to do: both effects have run
    for the current options and state, a finished refresh has been
    acknowledged, and the timer exists exactly when the scheduler runs. *)
Definition RefreshSettled (h : RefreshHook) : Prop :=
  mainDeps h = Some (mainDepsOf (options h))
  /\ resetDeps h = Some (isLoading (options h), isRefreshing h)
  /\ (isRefreshing h = true -> isLoading (options h) = true)
  /\ (if shouldRun (options h)
      then mainCleanup h = true
           /\ exists id, ar_intervalRef h = Some id
                         /\ ar_liveIntervals h = [(id, isLoading (options h))]
      else mainCleanup h = false
           /\ ar_intervalRef h = None /\ ar_liveIntervals h = []).

(* ------------------------------------------------------------------ *)
(** ** Technical indicators *)

(** [for (let i = 0; i < n; i++) body]: the state after [n] rounds is the
    body at [n - 1] applied to the state after [n - 1] rounds. *)
Fixpoint for_loop {St : Type} (n : nat) (body : nat -> St -> St) (s : St) : St :=
  match n with
  | O => s
  | S k => body k (for_loop k body s)
  end.

(** *** The arithmetic of JavaScript numbers

    The operations the indicators apply to numbers.  [fromInt] is an
    integer as a number (a literal, a period, an array length). *)
Class Arithmetic (number : Type) : Type := {
  fromInt : Z -> number;
  num_add : number -> number -> number;
  num_sub : number -> number -> number;
  num_mul : number -> number -> number;
  num_div : number -> number -> number;
  Math_pow2 : number -> number;          (* Math.pow(x, 2) *)
  Math_sqrt : number -> number           (* Math.sqrt(x) *)
}.

Declare Scope num_scope.
Delimit Scope num_scope with num.
Infix "+" := num_add : num_scope.
Infix "-" := num_sub : num_scope.
Infix "*" := num_mul : num_scope.
Infix "/" := num_div : num_scope.

(** An integer as a double, built in double arithmetic; exact up to
    2^53 in absolute value. *)
Fixpoint double_of_positive (p : positive) : float :=
  match p with
  | xH => 1%float
  | xO q => (2 * double_of_positive q)%float
  | xI q => (2 * double_of_positive q + 1)%float
  end.

Definition double_of_Z (z : Z) : float :=
  match z with
  | Z0 => 0%float
  | Zpos p => double_of_positive p
  | Zneg p => (- double_of_positive p)%float
  end.

(** JavaScript's own arithmetic: binary64, every operation rounded to
    nearest, ties to even.  [Math.pow(x, 2)] is taken as the correctly
    rounded square. *)
#[export] Instance double_arithmetic : Arithmetic float := {|
  fromInt := double_of_Z;
  num_add := PrimFloat.add;
  num_sub := PrimFloat.sub;
  num_mul := PrimFloat.mul;
  num_div := PrimFloat.div;
  Math_pow2 := fun x => PrimFloat.mul x x;
  Math_sqrt := PrimFloat.sqrt
|}.

(** Exact arithmetic, which no program runs: the real numbers. *)
#[export] Instance real_arithmetic : Arithmetic R := {|
  fromInt := IZR;
  num_add := Rplus;
  num_sub := Rminus;
  num_mul := Rmult;
  num_div := Rdiv;
  Math_pow2 := fun x => (x ^ 2)%R;
  Math_sqrt := R_sqrt.sqrt
|}.

(** The rational number a finite double stands for. *)
Definition exactValue (x : float) : option Q :=
  match FloatOps.Prim2SF x with
  | SpecFloat.S754_zero _ => Some 0%Q
  | SpecFloat.S754_finite negative m e =>
      Some ((if negative then - (Z.pos m # 1) else (Z.pos m # 1)) * Qpower 2 e)%Q
  | _ => None
  end.

Record BollingerBands (number : Type) : Type := mkBollingerBands {
  upper : list (option number);
  middle : list (option number);
  lower : list (option number)
}.
Arguments mkBollingerBands {number} upper middle lower.
Arguments upper {number} b.
Arguments middle {number} b.
Arguments lower {number} b.

(** [arr.slice(start, end)] for [0 <= start]. *)
Definition slice {A : Type} (l : list A) (start stop : nat) : list A :=
  firstn (stop - start) (skipn start l).

(** The prices [S[i-p+1..i]], both ends included. *)
Definition window {A : Type} (S : list A) (p i : nat) : list A :=
  firstn p (skipn (i + 1 - p) S).

Inductive MovingAverageType : Type := SMA | EMA.

Section Indicators.

Context {number : Type} {arithmetic : Arithmetic number}.

(** [let sum = 0; for (let j = 0; j < period; j++) sum += prices[i - j];]
    The loop only runs for [i >= period - 1], so every index is in range. *)
Definition sumLastPrices (prices : list number) (period : Z) (i : nat) : number :=
  for_loop (Z.to_nat period)
           (fun j sum => (sum + nth (i - j) prices (fromInt 0))%num) (fromInt 0).

Definition calculateSMA (prices : list number) (period : Z) : list (option number) :=
  for_loop (List.length prices)
    (fun i result =>
       if Z.of_nat i <? period - 1 then result ++ [None]
       else result ++ [Some (sumLastPrices prices period i / fromInt period)%num])
    [].

Definition calculateEMA (prices : list number) (period : Z) : list (option number) :=
  let multiplier := (fromInt 2 / (fromInt period + fromInt 1))%num in
  for_loop (List.length prices)
    (fun i result =>
       if Z.of_nat i <? period - 1 then result ++ [None]
       else if Z.of_nat i =? period - 1 then
         result ++ [Some (sumLastPrices prices period i / fromInt period)%num]
       else
         match nth_error result (i - 1) with
         | Some (Some previousEMA) =>
             result ++ [Some (nth i prices (fromInt 0) * multiplier
                              + previousEMA * (fromInt 1 - multiplier))%num]
         | _ => result ++ [None]
         end)
    [].

Definition calculateMA (prices : list number) (period : Z) (type : MovingAverageType)
  : list (option number) :=
  match type with
  | SMA => calculateSMA prices period
  | EMA => calculateEMA prices period
  end.

Definition calculateStandardDeviation (values : list number) : number :=
  let n := List.length values in
  match n with
  | O => fromInt 0
  | _ =>
      let mean :=
        (fold_left (fun sum val => sum + val) values (fromInt 0)
         / fromInt (Z.of_nat n))%num in
      let squaredDiffs := map (fun val => Math_pow2 (val - mean)%num) values in
      let variance :=
        (fold_left (fun sum val => sum + val) squaredDiffs (fromInt 0)
         / fromInt (Z.of_nat n))%num in
      Math_sqrt variance
  end.

Definition calculateBollingerBands (prices : list number) (period : Z)
    (standardDeviations : number) : BollingerBands number :=
  let middle := calculateSMA prices period in
  let bands :=
    for_loop (List.length prices)
      (fun i (acc : list (option number) * list (option number)) =>
         let (upper, lower) := acc in
         match (if Z.of_nat i <? period - 1 then None
                else match nth_error middle i with
                     | Some (Some middleValue) => Some middleValue
                     | _ => None
                     end) with
         | None => (upper ++ [None], lower ++ [None])
         | Some middleValue =>
             let slice_ := slice prices (Z.to_nat (Z.of_nat i - period + 1)) (i + 1) in
             let stdDev := calculateStandardDeviation slice_ in
             (upper ++ [Some (middleValue + stdDev * standardDeviations)%num],
              lower ++ [Some (middleValue - stdDev * standardDeviations)%num])
         end)
      ([], []) in
  {| upper := fst bands; middle := middle; lower := snd bands |}.

(** *** The quantities the indicator claims speak of *)

(** The sum of a window as the averages add it up: from 0, the newest
    price first, the oldest last. *)
Definition sum_newest_first (w : list number) : number :=
  fold_right (fun price sum => (sum + price)%num) (fromInt 0) w.

(** The sum of a list added up from 0 in the order of the list. *)
Definition sum_in_order (l : list number) : number :=
  fold_left num_add l (fromInt 0).

(** The mean of a list, added up in the order of the list. *)
Definition mean_in_order (l : list number) : number :=
  (sum_in_order l / fromInt (Z.of_nat (List.length l)))%num.

(** Population standard deviation: the squared deviations from the mean
    are divided by the number of values, not by one less. *)
Definition population_std_dev (l : list number) : number :=
  Math_sqrt
    (sum_in_order (map (fun x => Math_pow2 (x - mean_in_order l)%num) l)
     / fromInt (Z.of_nat (List.length l)))%num.

End Indicators.

(** *** Exact quantities, for numbers that are real *)

Definition sum_of (l : list R) : R := fold_right Rplus 0%R l.

Definition arithmetic_mean (l : list R) : R := (sum_of l / INR (List.length l))%R.

(** The exact mean of finite doubles, as a rational. *)
Definition exact_mean (l : list float) : option Q :=
  match fold_right (fun x acc =>
                      match exactValue x, acc with
                      | Some q, Some sum => Some (q + sum)%Q
                      | _, _ => None
                      end) (Some 0%Q) l with
  | Some sum => Some (sum / (Z.of_nat (List.length l) # 1))%Q
  | None => None
  end.

(* ------------------------------------------------------------------ *)
(** ** components/MarketStatus.tsx *)

Record ExchangeConfig : Type := mkExchangeConfig {
  name : string;
  timezone : string;
  openHour : Z;
  openMinute : Z;
  closeHour : Z;
  closeMinute : Z;
  tradingDays : list Z   (* 0 = Sunday, 1 = Monday, ..., 6 = Saturday *)
}.

Definition weekdays : list Z := [1; 2; 3; 4; 5].

Definition EXCHANGE_CONFIG : list (string * ExchangeConfig) :=
  [ ("NMS", mkExchangeConfig "NASDAQ" "America/New_York" 9 30 16 0 weekdays);
    ("NGM", mkExchangeConfig "NASDAQ" "America/New_York" 9 30 16 0 weekdays);
    ("NCM", mkExchangeConfig "NASDAQ" "America/New_York" 9 30 16 0 weekdays);
    ("NYQ", mkExchangeConfig "NYSE" "America/New_York" 9 30 16 0 weekdays);
    ("PCX", mkExchangeConfig "NYSE Arca" "America/New_York" 9 30 16 0 weekdays);
    ("BTS", mkExchangeConfig "NYSE" "America/New_York" 9 30 16 0 weekdays);
    ("ASE", mkExchangeConfig "NYSE American" "America/New_York" 9 30 16 0 weekdays);
    ("HKG", mkExchangeConfig "HKEX" "Asia/Hong_Kong" 9 30 16 0 weekdays);
    ("TYO", mkExchangeConfig "TSE" "Asia/Tokyo" 9 0 15 0 weekdays);
    ("JPX", mkExchangeConfig "TSE" "Asia/Tokyo" 9 0 15 0 weekdays);
    ("LON", mkExchangeConfig "LSE" "Europe/London" 8 0 16 30 weekdays);
    ("LSE", mkExchangeConfig "LSE" "Europe/London" 8 0 16 30 weekdays);
    ("FRA", mkExchangeConfig "Frankfurt" "Europe/Berlin" 9 0 17 30 weekdays);
    ("GER", mkExchangeConfig "Xetra" "Europe/Berlin" 9 0 17 30 weekdays);
    ("PAR", mkExchangeConfig "Euronext Paris" "Europe/Paris" 9 0 17 30 weekdays);
    ("SHH", mkExchangeConfig "SSE" "Asia/Shanghai" 9 30 15 0 weekdays);
    ("SHA", mkExchangeConfig "SSE" "Asia/Shanghai" 9 30 15 0 weekdays);
    ("SHZ", mkExchangeConfig "SZSE" "Asia/Shenzhen" 9 30 15 0 weekdays);
    ("TOR", mkExchangeConfig "TSX" "America/Toronto" 9 30 16 0 weekdays);
    ("TSX", mkExchangeConfig "TSX" "America/Toronto" 9 30 16 0 weekdays);
    ("ASX", mkExchangeConfig "ASX" "Australia/Sydney" 10 0 16 0 weekdays);
    ("AX", mkExchangeConfig "ASX" "Australia/Sydney" 10 0 16 0 weekdays);
    ("NSI", mkExchangeConfig "NSE India" "Asia/Kolkata" 9 15 15 30 weekdays);
    ("BOM", mkExchangeConfig "BSE India" "Asia/Kolkata" 9 15 15 30 weekdays);
    ("KSC", mkExchangeConfig "KRX" "Asia/Seoul" 9 0 15 30 weekdays);
    ("KOE", mkExchangeConfig "KRX" "Asia/Seoul" 9 0 15 30 weekdays);
    ("SES", mkExchangeConfig "SGX" "Asia/Singapore" 9 0 17 0 weekdays);
    ("TAI", mkExchangeConfig "TWSE" "Asia/Taipei" 9 0 13 30 weekdays);
    ("TWO", mkExchangeConfig "TPEx" "Asia/Taipei" 9 0 13 30 weekdays) ].

Definition timezoneToConfig : list (string * ExchangeConfig) :=
  [ ("America/New_York", mkExchangeConfig "US Market" "America/New_York" 9 30 16 0 weekdays);
    ("Asia/Hong_Kong", mkExchangeConfig "HKEX" "Asia/Hong_Kong" 9 30 16 0 weekdays);
    ("Asia/Tokyo", mkExchangeConfig "TSE" "Asia/Tokyo" 9 0 15 0 weekdays);
    ("Europe/London", mkExchangeConfig "LSE" "Europe/London" 8 0 16 30 weekdays);
    ("Europe/Berlin", mkExchangeConfig "Xetra" "Europe/Berlin" 9 0 17 30 weekdays);
    ("Europe/Paris", mkExchangeConfig "Euronext" "Europe/Paris" 9 0 17 30 weekdays);
    ("Asia/Shanghai", mkExchangeConfig "SSE" "Asia/Shanghai" 9 30 15 0 weekdays);
    ("America/Toronto", mkExchangeConfig "TSX" "America/Toronto" 9 30 16 0 weekdays);
    ("Australia/Sydney", mkExchangeConfig "ASX" "Australia/Sydney" 10 0 16 0 weekdays);
    ("Asia/Kolkata", mkExchangeConfig "NSE India" "Asia/Kolkata" 9 15 15 30 weekdays);
    ("Asia/Seoul", mkExchangeConfig "KRX" "Asia/Seoul" 9 0 15 30 weekdays);
    ("Asia/Singapore", mkExchangeConfig "SGX" "Asia/Singapore" 9 0 17 0 weekdays);
    ("Asia/Taipei", mkExchangeConfig "TWSE" "Asia/Taipei" 9 0 13 30 weekdays) ].

(** [table[key]] on an object literal used as a table. *)
Fixpoint lookup_config (key : string) (table : list (string * ExchangeConfig))
  : option ExchangeConfig :=
  match table with
  | [] => None
  | (k, c) :: rest => if String.eqb key k then Some c else lookup_config key rest
  end.

Definition getConfigFromTimezone (tz : string) : option ExchangeConfig :=
  lookup_config tz timezoneToConfig.

Definition getExchangeConfig (exchange tz : option string) : option ExchangeConfig :=
  match (match exchange with
         | Some code => if String.eqb code "" then None else lookup_config code EXCHANGE_CONFIG
         | None => None
         end) with
  | Some c => Some c
  | None =>
      match tz with
      | Some z => if String.eqb z "" then None else getConfigFromTimezone z
      | None => None
      end
  end.

(** What [Date] and [Intl] deliver for the current instant: the rendering
    of "now" in the exchange timezone with the hour and minute that
    [parseInt] reads from it, the weekday there ([getDay()]), and the
    three times rendered for the viewer. *)
Record ExchangeClock : Type := mkExchangeClock {
  exchangeTimeStr : string;
  exchangeHour : Z;
  exchangeMinute : Z;
  exchangeDayOfWeek : Z;
  localTimeStr : string;
  marketOpenLocalStr : string;
  marketCloseLocalStr : string
}.

Record TimeInfo : Type := mkTimeInfo {
  localTime : string;
  exchangeTime : string;
  marketOpenLocal : string;
  marketOpenExchange : string;
  marketCloseLocal : string;
  marketCloseExchange : string;
  isOpen : bool;
  isTradingDay : bool;
  countdown : string;
  countdownLabel : string;
  exchangeName : string
}.

(** [days.includes(d)] *)
Definition includesDay (d : Z) (days : list Z) : bool := existsb (Z.eqb d) days.

Definition formatCountdown (totalMinutes : Z) : string :=
  let hours := totalMinutes / 60 in
  let minutes := Z.rem totalMinutes 60 in
  if 24 <=? hours then
    let days := hours / 24 in
    let remainingHours := Z.rem hours 24 in
    (string_of_Z days ++ "d " ++ string_of_Z remainingHours ++ "h "
       ++ string_of_Z minutes ++ "m")%string
  else (string_of_Z hours ++ "h " ++ string_of_Z minutes ++ "m")%string.

(** [while (!config.tradingDays.includes(nextDay)) { daysUntilOpen++;
    nextDay = (nextDay + 1) % 7; }] with a bound on the number of tests;
    [None] when the bound is reached. *)
Fixpoint scanForward (fuel : nat) (days : list Z) (daysUntilOpen nextDay : Z)
  : option (Z * Z) :=
  match fuel with
  | O => None
  | S fuel' =>
      if negb (includesDay nextDay days)
      then scanForward fuel' days (daysUntilOpen + 1) (Z.rem (nextDay + 1) 7)
      else Some (daysUntilOpen, nextDay)
  end.

(** Minutes from now until the open of the next trading day after today. *)
Definition minutesUntilNextOpen (fuel : nat) (config : ExchangeConfig)
    (exchangeDayOfWeek currentExchangeMinutes openMinutes : Z) : option Z :=
  match scanForward fuel (tradingDays config) 1 (Z.rem (exchangeDayOfWeek + 1) 7) with
  | Some (daysUntilOpen, _) =>
      let minutesUntilMidnight := 24 * 60 - currentExchangeMinutes in
      Some (minutesUntilMidnight + (daysUntilOpen - 1) * 24 * 60 + openMinutes)
  | None => None
  end.

Definition hhmm (h m : Z) : string :=
  (padStart2 (string_of_Z h) ++ ":" ++ padStart2 (string_of_Z m))%string.

(** [calculateTimeInfo(config)] at the instant that [clock] describes;
    [None] when the scan for the next trading day does not end within
    [fuel] tests. *)
Definition calculateTimeInfo (fuel : nat) (config : ExchangeConfig)
    (clock : ExchangeClock) : option TimeInfo :=
  let isTradingDay := includesDay (exchangeDayOfWeek clock) (tradingDays config) in
  let marketOpenExchangeStr := hhmm (openHour config) (openMinute config) in
  let marketCloseExchangeStr := hhmm (closeHour config) (closeMinute config) in
  let currentExchangeMinutes := exchangeHour clock * 60 + exchangeMinute clock in
  let openMinutes := openHour config * 60 + openMinute config in
  let closeMinutes := closeHour config * 60 + closeMinute config in
  let isOpen := isTradingDay && (openMinutes <=? currentExchangeMinutes)
                && (currentExchangeMinutes <? closeMinutes) in
  let result (countdown countdownLabel : string) :=
    {| localTime := localTimeStr clock;
       exchangeTime := exchangeTimeStr clock;
       marketOpenLocal := marketOpenLocalStr clock;
       marketOpenExchange := marketOpenExchangeStr;
       marketCloseLocal := marketCloseLocalStr clock;
       marketCloseExchange := marketCloseExchangeStr;
       isOpen := isOpen;
       isTradingDay := isTradingDay;
       countdown := countdown;
       countdownLabel := countdownLabel;
       exchangeName := name config |} in
  if negb isTradingDay then
    match minutesUntilNextOpen fuel config (exchangeDayOfWeek clock)
            currentExchangeMinutes openMinutes with
    | Some totalMinutes => Some (result (formatCountdown totalMinutes) "until market opens")
    | None => None
    end
  else if isOpen then
    let minutesUntilClose := closeMinutes - currentExchangeMinutes in
    Some (result (formatCountdown minutesUntilClose) "until market closes")
  else if currentExchangeMinutes <? openMinutes then
    let minutesUntilOpen := openMinutes - currentExchangeMinutes in
    Some (result (formatCountdown minutesUntilOpen) "until market opens")
  else
    match minutesUntilNextOpen fuel config (exchangeDayOfWeek clock)
            currentExchangeMinutes openMinutes with
    | Some totalMinutes => Some (result (formatCountdown totalMinutes) "until market opens")
    | None => None
    end.



(* ------------------------------------------------------------------ *)
(** ** Timezone utilities: [convertTimezone] *)

(** [dateStr.includes(' ') && dateStr.split(' ').length > 1] *)
Definition hasTime (dateStr : string) : bool :=
  includes " " dateStr && (1 <? List.length (split " " dateStr))%nat.

(** [n.toString().padStart(2, '0')] *)
Definition pad (n : Z) : string := padStart2 (string_of_Z n).

(** [parts.find(p => p.type === type)] followed by [parseInt(part.value, 10)],
    and [0] when there is no such part. *)
Definition getPartValue (parts : string -> option Z) (type : string) : Z :=
  match parts type with
  | Some value => value
  | None => 0
  end.

Definition bind {A B : Type} (x : option A) (f : A -> option B) : option B :=
  match x with
  | Some a => f a
  | None => None
  end.

Notation "x <- e ;; k" := (bind e (fun x => k))
  (at level 61, e at next level, right associativity).

Section TimezoneConversion.

(** The services of the platform.  [Number_ s] is [Number(s)], [None]
    for NaN; [Date_UTC] is [Date.UTC], [None] when the result is not a
    time value; [formatToParts zone t] is the rendering of the instant
    [t] (milliseconds since the epoch) by
    [new Intl.DateTimeFormat('en-US', { timeZone: zone, ... })] as a map
    from part type to the integer written in that part, [None] when the
    call throws (unknown zone, invalid date). *)
Variable Number_ : string -> option Z.
Variable Date_UTC : Z -> Z -> Z -> Z -> Z -> option Z.
Variable formatToParts : string -> Z -> option (string -> option Z).

(** [piece.split(sep).map(Number)[k]]; a missing element is
    [undefined], which poisons the arithmetic like NaN does. *)
Definition numberAt (piece : string) (sep : ascii) (k : nat) : option Z :=
  s <- nth_error (split sep piece) k ;; Number_ s.

(** The [try] block; [None] when it throws. *)
Definition convertWithTime (dateStr fromTimezone toTimezone : string) : option string :=
  let pieces := split " " dateStr in
  datePart <- nth_error pieces 0 ;;
  timePart <- nth_error pieces 1 ;;
  year <- numberAt datePart "-" 0 ;;
  month <- numberAt datePart "-" 1 ;;
  day <- numberAt datePart "-" 2 ;;
  hour <- numberAt timePart ":" 0 ;;
  minute <- numberAt timePart ":" 1 ;;
  refDate <- Date_UTC year (month - 1) day hour minute ;;
  sourceDisplay <- formatToParts fromTimezone refDate ;;
  let sourceHour := getPartValue sourceDisplay "hour" in
  let sourceMinute := getPartValue sourceDisplay "minute" in
  let sourceDay := getPartValue sourceDisplay "day" in
  let wantedMinutes := hour * 60 + minute + day * 24 * 60 in
  let sourceMinutes := sourceHour * 60 + sourceMinute + sourceDay * 24 * 60 in
  let diffMinutes := wantedMinutes - sourceMinutes in
  let actualUtcTime := refDate + diffMinutes * 60000 in
  targetDisplay <- formatToParts toTimezone actualUtcTime ;;
  let targetYear := getPartValue targetDisplay "year" in
  let targetMonth := getPartValue targetDisplay "month" in
  let targetDay := getPartValue targetDisplay "day" in
  let targetHour := getPartValue targetDisplay "hour" in
  let targetMinute := getPartValue targetDisplay "minute" in
  let targetHour := if targetHour =? 24 then 0 else targetHour in
  Some (string_of_Z targetYear ++ "-" ++ pad targetMonth ++ "-" ++ pad targetDay
          ++ " " ++ pad targetHour ++ ":" ++ pad targetMinute)%string.

Definition convertTimezone (dateStr fromTimezone toTimezone : string) : string :=
  if String.eqb fromTimezone toTimezone then dateStr
  else if negb (hasTime dateStr) then dateStr
  else
    match convertWithTime dateStr fromTimezone toTimezone with
    | Some converted => converted
    | None => dateStr
    end.

End TimezoneConversion.

(** A wall-clock string carries a time of day after a space
    (["YYYY-MM-DD HH:MM"]); one without a space is a date only. *)
Definition DateOnly (x : string) : Prop :=
  ~ In " "%char (list_ascii_of_string x).

Definition is_digit (c : ascii) : bool :=
  let n := nat_of_ascii c in ((48 <=? n) && (n <=? 57))%nat.

(** The shape ["YYYY-MM-DD"]. *)
Definition isIsoDate (x : string) : bool :=
  match list_ascii_of_string x with
  | [y1; y2; y3; y4; d1; m1; m2; d2; a1; a2] =>
      is_digit y1 && is_digit y2 && is_digit y3 && is_digit y4
      && Ascii.eqb d1 "-" && is_digit m1 && is_digit m2
      && Ascii.eqb d2 "-" && is_digit a1 && is_digit a2
  | _ => false
  end.

(* ------------------------------------------------------------------ *)
(** ** Reachable states of the retry controller *)

(** What holds of the controller after every event: it owns at most one
    interval, the one [intervalRef] names; an interval exists only while
    the controller is rate limited with a positive counter; the counter is
    0 whenever it is not rate limited; and the countdown effect has run
    for the current [isRateLimited]. *)
Definition RetryWf (h : RetryHook) : Prop :=
  countdownDeps h = Some (isRateLimited h)
  /\ (isRateLimited h = false -> secondsRemaining h = 0)
  /\ match intervalRef h with
     | Some id =>
         liveIntervals h = [id] /\ isCountingDown h = true
         /\ isRateLimited h = true /\ 0 < secondsRemaining h
     | None => liveIntervals h = [] /\ isCountingDown h = false
     end.

(** How often [startRetryCountdown] is called in a run. *)
Fixpoint startsIn (events : list RetryEvent) : nat :=
  match events with
  | [] => 0
  | CallStart _ :: rest => S (startsIn rest)
  | _ :: rest => startsIn rest
  end.

(** [formatSecondsRemaining(seconds)] *)
Definition formatSecondsRemaining (seconds : Z) : string :=
  let minutes := seconds / 60 in
  let secs := Z.rem seconds 60 in
  (string_of_Z minutes ++ ":" ++ padStart2 (string_of_Z secs))%string.

(** [formatCountdown(seconds)] of hooks/useAutoRefreshCountdown.ts. *)
Definition formatRefreshCountdown (seconds : Z) : string :=
  if seconds <=? 0 then "00:00"
  else
    let mins := seconds / 60 in
    let secs := Z.rem seconds 60 in
    (padStart2 (string_of_Z mins) ++ ":" ++ padStart2 (string_of_Z secs))%string.

(** The [formattedCountdown] the auto-refresh hook returns. *)
Definition formattedCountdown (h : RefreshHook) : string :=
  formatRefreshCountdown (ar_secondsRemaining h).

(** The decimal digit [n] as a character, and a number below 100 written
    with two digits. *)
Definition digitChar (n : Z) : ascii := ascii_of_nat (48 + Z.to_nat n).

Definition twoDigits (n : Z) : string :=
  String (digitChar (n / 10)) (String (digitChar (n mod 10)) EmptyString).

(* ------------------------------------------------------------------ *)
(** ** Reachable states of the auto-refresh scheduler *)

(** What holds of the scheduler after every event: it is settled, the
    counter is held at 0 while a refresh it started waits for the caller
    to finish loading, and the counter lies between 0 and the full
    interval. *)
Definition RefreshInv (h : RefreshHook) : Prop :=
  RefreshSettled h
  /\ (isRefreshing h = true -> ar_secondsRemaining h = 0)
  /\ 0 <= ar_secondsRemaining h <= AUTO_REFRESH_INTERVAL / 1000.

(* ------------------------------------------------------------------ *)
(** ** Checks over the two profile tables *)

(** A profile trades Monday to Friday and opens, within the day, strictly
    before it closes. *)
Definition profileOk (c : ExchangeConfig) : bool :=
  (if list_eq_dec Z.eq_dec (tradingDays c) weekdays then true else false)
  && (0 <=? openHour c) && (0 <=? openMinute c) && (openMinute c <? 60)
  && (0 <=? closeMinute c) && (closeMinute c <? 60) && (closeHour c <? 24)
  && (openHour c * 60 + openMinute c <? closeHour c * 60 + closeMinute c).

(** Two profiles with the same trading hours and days. *)
Definition sameHours (a b : ExchangeConfig) : bool :=
  (openHour a =? openHour b) && (openMinute a =? openMinute b)
  && (closeHour a =? closeHour b) && (closeMinute a =? closeMinute b)
  && (if list_eq_dec Z.eq_dec (tradingDays a) (tradingDays b) then true else false).

(* ------------------------------------------------------------------ *)
(** ** Technical indicators merged with the price data *)

Record MovingAverageConfig : Type := mkMovingAverageConfig {
  ma_enabled : bool;
  ma_type : MovingAverageType;
  ma_period : Z;
  ma_color : string
}.

Record BollingerBandsConfig : Type := mkBollingerBandsConfig {
  bb_enabled : bool;
  bb_period : Z;
  bb_standardDeviations : float;
  bb_color : string
}.

Record TechnicalIndicatorsConfig : Type := mkTechnicalIndicatorsConfig {
  movingAverage1 : MovingAverageConfig;
  movingAverage2 : MovingAverageConfig;
  bollingerBands : BollingerBandsConfig
}.

Record IndicatorDataPoint : Type := mkIndicatorDataPoint {
  i_date : string;
  i_timestamp : Z;
  ma1 : option float;
  ma2 : option float;
  bbUpper : option float;
  bbMiddle : option float;
  bbLower : option float
}.

(** [PriceWithIndicators]: the price point spread into the object, then
    the five indicator fields. *)
Record PriceWithIndicators : Type := mkPriceWithIndicators {
  pw_point : PricePoint;
  pw_ma1 : option float;
  pw_ma2 : option float;
  pw_bbUpper : option float;
  pw_bbMiddle : option float;
  pw_bbLower : option float
}.

(** [arr.map((x, i) => f(i, x))], the index starting at [k]. *)
Fixpoint mapi_from {A B : Type} (k : nat) (f : nat -> A -> B) (l : list A) : list B :=
  match l with
  | [] => []
  | x :: rest => f k x :: mapi_from (S k) f rest
  end.

Definition mapi {A B : Type} (f : nat -> A -> B) (l : list A) : list B :=
  mapi_from 0 f l.

(** [values[i]] on an array of numbers with holes: [undefined] for a
    hole and for an index outside the array. *)
Definition valueAt {A : Type} (values : list (option A)) (i : nat) : option A :=
  match nth_error values i with
  | Some v => v
  | None => None
  end.

Definition calculateIndicators (data : list PricePoint)
    (config : TechnicalIndicatorsConfig) : list IndicatorDataPoint :=
  match data with
  | [] => []
  | _ :: _ =>
      let prices := map price data in
      let ma1Values :=
        if ma_enabled (movingAverage1 config)
        then calculateMA prices (ma_period (movingAverage1 config))
               (ma_type (movingAverage1 config))
        else [] in
      let ma2Values :=
        if ma_enabled (movingAverage2 config)
        then calculateMA prices (ma_period (movingAverage2 config))
               (ma_type (movingAverage2 config))
        else [] in
      let bbValues :=
        if bb_enabled (bollingerBands config)
        then calculateBollingerBands prices (bb_period (bollingerBands config))
               (bb_standardDeviations (bollingerBands config))
        else {| upper := []; middle := []; lower := [] |} in
      mapi (fun i point =>
              {| i_date := date point;
                 i_timestamp := timestamp point;
                 ma1 := valueAt ma1Values i;
                 ma2 := valueAt ma2Values i;
                 bbUpper := valueAt (upper bbValues) i;
                 bbMiddle := valueAt (middle bbValues) i;
                 bbLower := valueAt (lower bbValues) i |})
           data
  end.

(** [indicators[i]?.field] *)
Definition fieldAt (indicators : list IndicatorDataPoint) (i : nat)
    (field : IndicatorDataPoint -> option float) : option float :=
  match nth_error indicators i with
  | Some ind => field ind
  | None => None
  end.

Definition mergeIndicatorsWithPriceData (priceData : list PricePoint)
    (indicators : list IndicatorDataPoint) : list PriceWithIndicators :=
  mapi (fun i point =>
          {| pw_point := point;
             pw_ma1 := fieldAt indicators i ma1;
             pw_ma2 := fieldAt indicators i ma2;
             pw_bbUpper := fieldAt indicators i bbUpper;
             pw_bbMiddle := fieldAt indicators i bbMiddle;
             pw_bbLower := fieldAt indicators i bbLower |})
       priceData.

(* ------------------------------------------------------------------ *)
(** ** services/errors.ts: the other classifiers *)

Definition instanceof_ServerTimeoutError (error : Thrown) : bool :=
  match error with
  | ThrownError (ServerTimeoutError _) => true
  | _ => false
  end.

Definition instanceof_SymbolNotFoundError (error : Thrown) : bool :=
  match error with
  | ThrownError (SymbolNotFoundError _ _) => true
  | _ => false
  end.

Definition instanceof_EmptyHistoryError (error : Thrown) : bool :=
  match error with
  | ThrownError (EmptyHistoryError _ _) => true
  | _ => false
  end.

(** [new SymbolNotFoundError(symbol, message?)]: an absent or empty
    message is replaced by the default text. *)
Definition new_SymbolNotFoundError (symbol : string) (message : option string) : JsError :=
  SymbolNotFoundError symbol
    (match message with
     | Some m => if String.eqb m "" then ("No price data found for " ++ symbol)%string else m
     | None => ("No price data found for " ++ symbol)%string
     end).

Definition isServerTimeoutError (error : Thrown) : bool :=
  if instanceof_ServerTimeoutError error then true
  else
    match instanceof_Error error with
    | Some e =>
        let message := error_message e in
        includes "522" message || includes "Server Error" message
    | None => false
    end.

Definition isSymbolNotFoundError (error : Thrown) : bool :=
  if instanceof_SymbolNotFoundError error then true
  else
    match instanceof_Error error with
    | Some e =>
        let message := toLowerCase (error_message e) in
        includes "delisted" message
        || includes "no price data found" message
        || includes "no data found" message
        || includes "symbol may be delisted" message
    | None => false
    end.

Definition isEmptyHistoryError (error : Thrown) : bool :=
  if instanceof_EmptyHistoryError error then true else false.

(** *** The two regular expressions of [extractSymbolFromError] *)

(** The class [[A-Z0-9.]]. *)
Definition isSymbolChar (c : ascii) : bool :=
  let n := nat_of_ascii c in
  ((65 <=? n) && (n <=? 90) || (48 <=? n) && (n <=? 57) || (n =? 46))%nat.

(** The same class under the flag [i]: lower-case letters match too. *)
Definition isSymbolCharI (c : ascii) : bool :=
  isSymbolChar c || (let n := nat_of_ascii c in (97 <=? n) && (n <=? 122))%nat.

(** [\s] on 8-bit characters: tab, line feed, vertical tab, form feed,
    carriage return, space and the no-break space. *)
Definition isSpace (c : ascii) : bool :=
  let n := nat_of_ascii c in
  ((9 <=? n) && (n <=? 13) || (n =? 32) || (n =? 160))%nat.

(** The longest prefix of [s] made of characters of a class, and what
    follows it. *)
Fixpoint takeClass (cls : ascii -> bool) (s : string) : string :=
  match s with
  | String c rest => if cls c then String c (takeClass cls rest) else EmptyString
  | EmptyString => EmptyString
  end.

Fixpoint dropClass (cls : ascii -> bool) (s : string) : string :=
  match s with
  | String c rest => if cls c then dropClass cls rest else s
  | EmptyString => EmptyString
  end.

(** A greedy [([class]+)] at the start of [s]: the captured text. *)
Definition captureClass (cls : ascii -> bool) (s : string) : option string :=
  match takeClass cls s with
  | EmptyString => None
  | captured => Some captured
  end.

(** [/\$([A-Z0-9.]+)/] tried at the start of [s]. *)
Definition dollarHere (s : string) : option string :=
  match s with
  | String c rest => if Ascii.eqb c "$" then captureClass isSymbolChar rest else None
  | EmptyString => None
  end.

Definition eqbI (c lower : ascii) : bool := Ascii.eqb (lower_ascii c) lower.

(** [/for\s+([A-Z0-9.]+)/i] tried at the start of [s].  No character of
    the class is a space, so the greedy [\s+] takes every space. *)
Definition forHere (s : string) : option string :=
  match s with
  | String f (String o (String r rest)) =>
      if eqbI f "f" && eqbI o "o" && eqbI r "r" then
        match rest with
        | String sp _ =>
            if isSpace sp then captureClass isSymbolCharI (dropClass isSpace rest)
            else None
        | EmptyString => None
        end
      else None
  | _ => None
  end.

(** [message.match(re)]: the match at the leftmost position that has
    one; the result is the captured group. *)
Fixpoint firstMatch (here : string -> option string) (s : string) : option string :=
  match here s with
  | Some captured => Some captured
  | None =>
      match s with
      | String _ rest => firstMatch here rest
      | EmptyString => None
      end
  end.

(** [extractSymbolFromErrorMessage] of the API service, which
    [extractSymbolFromError] repeats for a plain [Error]. *)
Definition extractSymbolFromErrorMessage (errorMessage : string) : option string :=
  match firstMatch dollarHere errorMessage with
  | Some symbol => Some symbol
  | None => firstMatch forHere errorMessage
  end.

Definition extractSymbolFromError (error : Thrown) : option string :=
  match error with
  | ThrownError (SymbolNotFoundError symbol _) => Some symbol
  | ThrownError (EmptyHistoryError symbol _) => Some symbol
  | ThrownError e => extractSymbolFromErrorMessage (error_message e)
  | ThrownOther _ => None
  end.

(** A ticker as both expressions capture it whole: not empty, made of
    capital letters, digits and dots. *)
Definition isTicker (symbol : string) : bool :=
  negb (String.eqb symbol "")
  && forallb isSymbolChar (list_ascii_of_string symbol).

(* ------------------------------------------------------------------ *)
(** ** The API service: response errors and the retry of 522 errors *)

Definition RETRY_DELAY_MS : Z := 5000.
Definition MAX_RETRIES : nat := 2.

Definition is522Error (errorMessage : string) : bool :=
  includes "522" errorMessage || includes "Server Error:" errorMessage.

Definition isDelistedError (errorMessage : string) : bool :=
  let lowerMessage := toLowerCase errorMessage in
  includes "delisted" lowerMessage
  || includes "no price data found" lowerMessage
  || includes "no data found" lowerMessage
  || includes "symbol may be delisted" lowerMessage.

(** The JSON body of an error response, as far as the service reads it;
    an absent field is [None] (and [false] for [no_retry]). *)
Record ErrorBody : Type := mkErrorBody {
  eb_error : option string;
  eb_retry_after : option Q;
  eb_error_type : option string;
  eb_no_retry : bool;
  eb_symbol : option string
}.

(** A response that is not [ok]: [body] is [None] when [response.json()]
    rejects; [retryAfterHeader] is
    [parseFloat(response.headers.get('Retry-After') || '0') || 0]. *)
Record HttpResponse : Type := mkHttpResponse {
  status : Z;
  body : option ErrorBody;
  retryAfterHeader : Q
}.

(** [s || fallback] for a string that may be absent: the empty string is
    falsy. *)
Definition stringOr (s : option string) (fallback : string) : string :=
  match s with
  | Some text => if String.eqb text "" then fallback else text
  | None => fallback
  end.

(** What [handleResponseError] throws. *)
Definition handleResponseError (response : HttpResponse) (symbol : option string)
  : JsError :=
  let errorData :=
    match body response with
    | Some data => data
    | None => mkErrorBody (Some "Unknown error") None None false None
    end in
  let errorMessage :=
    stringOr (eb_error errorData) ("HTTP " ++ string_of_Z (status response))%string in
  if (status response =? 429)
     || includes "rate limit" (toLowerCase errorMessage)
     || includes "too many requests" (toLowerCase errorMessage)
  then
    let waitTime :=
      match eb_retry_after errorData with
      | Some seconds => if Qeq_bool seconds 0 then retryAfterHeader response else seconds
      | None => retryAfterHeader response
      end in
    new_RateLimitError (Some errorMessage) (Some waitTime)
  else if (status response =? 522) || is522Error errorMessage then
    ServerTimeoutError errorMessage
  else if (match eb_error_type errorData with
           | Some t => String.eqb t "empty_history"
           | None => false
           end) || eb_no_retry errorData
  then
    let extractedSymbol := stringOr (eb_symbol errorData) (stringOr symbol "Unknown") in
    EmptyHistoryError extractedSymbol errorMessage
  else if isDelistedError errorMessage then
    let extractedSymbol :=
      stringOr (extractSymbolFromErrorMessage errorMessage) (stringOr symbol "Unknown") in
    new_SymbolNotFoundError extractedSymbol (Some errorMessage)
  else PlainError errorMessage.

(** How one call of [fetchFn] ends. *)
Inductive Outcome (T : Type) : Type :=
| Resolved (value : T)
| Rejected (error : Thrown).
Arguments Resolved {T} value.
Arguments Rejected {T} error.

(** The end of [fetchWithRetry]: how it settled, how often [fetchFn] was
    called and for how many milliseconds it slept in between. *)
Record FetchRun (T : Type) : Type := mkFetchRun {
  settled : Outcome T;
  calls : nat;
  sleptMs : Z
}.
Arguments mkFetchRun {T} settled calls sleptMs.
Arguments settled {T} f.
Arguments calls {T} f.
Arguments sleptMs {T} f.

(** [error instanceof Error ? error : new Error(String(error))]; a value
    that is not an [Error] is given by its [String(error)]. *)
Definition toError (error : Thrown) : JsError :=
  match error with
  | ThrownError e => e
  | ThrownOther description => PlainError description
  end.

(** The loop of [fetchWithRetry]: [remaining] rounds are left, the next
    one is round [attempt]; [fetchFn k] is how the call made in round [k]
    ends. *)
Fixpoint fetchLoop {T : Type} (fetchFn : nat -> Outcome T)
    (remaining attempt : nat) (lastError : option JsError) (slept : Z) : FetchRun T :=
  match remaining with
  | O =>
      mkFetchRun
        (Rejected (match lastError with
                   | Some e => ThrownError e
                   | None => ThrownOther "null"
                   end))
        attempt slept
  | S remaining' =>
      match fetchFn attempt with
      | Resolved value => mkFetchRun (Resolved value) (S attempt) slept
      | Rejected error =>
          let lastError := toError error in
          if negb (instanceof_ServerTimeoutError error)
             && negb (is522Error (error_message lastError))
          then mkFetchRun (Rejected error) (S attempt) slept
          else if (attempt <? MAX_RETRIES)%nat
          then fetchLoop fetchFn remaining' (S attempt) (Some lastError)
                         (slept + RETRY_DELAY_MS)
          else fetchLoop fetchFn remaining' (S attempt) (Some lastError) slept
      end
  end.

Definition fetchWithRetry {T : Type} (fetchFn : nat -> Outcome T) : FetchRun T :=
  fetchLoop fetchFn (S MAX_RETRIES) 0 None 0.

(** A rejection that [fetchWithRetry] answers with another attempt. *)
Definition is522Rejection {T : Type} (o : Outcome T) : bool :=
  match o with
  | Resolved _ => false
  | Rejected error =>
      instanceof_ServerTimeoutError error
      || is522Error (error_message (toError error))
  end.

(* ------------------------------------------------------------------ *)
(** ** The asset page: a failed lightweight refresh *)

(** [err instanceof RateLimitError ? err.waitTime : undefined] *)
Definition waitTimeOf (err : Thrown) : option Q :=
  match err with
  | ThrownError (RateLimitError _ waitTime) => Some waitTime
  | _ => None
  end.

(** The [catch] handler of the lightweight refresh, acting on the retry
    controller of the page; nothing else is touched. *)
Definition onLightweightRefreshFailure (err : Thrown) (h : RetryHook) : RetryHook :=
  if isRateLimitError err then retryStep h (CallStart (waitTimeOf err)) else h.

(* ================================================================== *)
(** * Part II: properties *)
(* ================================================================== *)

(* ------------------------------------------------------------------ *)
(** ** Strings *)

Lemma prefix_iff (p s : string) :
  String.prefix p s = true <-> exists rest, s = (p ++ rest)%string.
Proof.
  revert s; induction p as [|c p IH]; intros s.
  - split; [intros _; exists s; reflexivity | intros _; destruct s; reflexivity].
  - destruct s as [|d s]; simpl.
    + split; [discriminate | intros [rest H]; discriminate].
    + destruct (ascii_dec c d) as [->|Hne].
      * rewrite IH. split; intros [rest H]; exists rest.
        -- now rewrite H.
        -- now inversion H.
      * split; [discriminate | intros [rest H]; inversion H; congruence].
Qed.

Lemma includes_empty (needle : string) :
  includes needle EmptyString = String.prefix needle EmptyString.
Proof. unfold includes. apply orb_false_r. Qed.

Lemma includes_String (needle : string) (c : ascii) (s : string) :
  includes needle (String c s)
  = String.prefix needle (String c s) || includes needle s.
Proof. reflexivity. Qed.

Lemma includes_iff (needle s : string) :
  includes needle s = true <-> Contains needle s.
Proof.
  unfold Contains; induction s as [|c s IH].
  - rewrite includes_empty, prefix_iff. split.
    + intros [rest H]. exists EmptyString, rest. exact H.
    + intros [before [after H]]. destruct before; simpl in H.
      * exists after; exact H.
      * discriminate.
  - rewrite includes_String, orb_true_iff, prefix_iff, IH. split.
    + intros [[rest H] | [before [after H]]].
      * exists EmptyString, rest. exact H.
      * exists (String c before), after. simpl. now rewrite H.
    + intros [before [after H]]. destruct before as [|d before]; simpl in H.
      * left. exists after. exact H.
      * right. inversion H. exists before, after. reflexivity.
Qed.

Lemma includes_char_iff (c : ascii) (s : string) :
  includes (String c EmptyString) s = true <-> In c (list_ascii_of_string s).
Proof.
  rewrite includes_iff. unfold Contains. split.
  - intros [before [after ->]]. induction before as [|d before IH]; simpl.
    + now left.
    + now right.
  - induction s as [|d s IH]; simpl; [contradiction|].
    intros [-> | H].
    + exists EmptyString, s. reflexivity.
    + destruct (IH H) as [before [after ->]].
      exists (String d before), after. reflexivity.
Qed.

(* ------------------------------------------------------------------ *)
(** ** Error classification *)

Lemma instanceof_RateLimitError_iff (error : Thrown) :
  instanceof_RateLimitError error = true
  <-> exists message waitTime, error = ThrownError (RateLimitError message waitTime).
Proof.
  split.
  - destruct error as [[]|]; simpl; try discriminate.
    intros _. eauto.
  - intros [m [w ->]]. reflexivity.
Qed.

(** C10.  [isRateLimitError] answers [true] exactly for an instance of
    [RateLimitError] and for any [Error] whose lower-cased message
    contains "rate limit", "too many requests" or "429"; it answers
    [false] for every value that is not an [Error].  A plain [Error]
    whose message mentions 429 is therefore classified as a rate limit
    although it is not a [RateLimitError]. *)
Theorem isRateLimitError_by_type_or_message :
  (forall error : Thrown,
      isRateLimitError error = true <->
      ((exists message waitTime, error = ThrownError (RateLimitError message waitTime))
       \/ (exists e, error = ThrownError e
                     /\ (Contains "rate limit" (toLowerCase (error_message e))
                         \/ Contains "too many requests" (toLowerCase (error_message e))
                         \/ Contains "429" (toLowerCase (error_message e))))))
  /\ (forall description, isRateLimitError (ThrownOther description) = false)
  /\ (isRateLimitError (ThrownError (PlainError "API error: 429")) = true
      /\ instanceof_RateLimitError (ThrownError (PlainError "API error: 429")) = false)
  /\ isRateLimitError (ThrownError (PlainError "Rate Limit exceeded")) = true.
Proof.
  split; [| split; [| split]]; try reflexivity.
  - intros error. unfold isRateLimitError.
    destruct (instanceof_RateLimitError error) eqn:Hrl.
    + split; [| reflexivity]. intros _. left.
      now apply instanceof_RateLimitError_iff.
    + destruct error as [e | d]; simpl.
      * rewrite !orb_true_iff, !includes_iff. split.
        -- intros H. right. exists e. split; [reflexivity|]. tauto.
        -- intros [[m [w H]] | [e' [H Hc]]].
           ++ inversion H; subst. discriminate.
           ++ inversion H; subst. tauto.
      * split; [discriminate|].
        intros [[m [w H]] | [e' [H _]]]; discriminate.
  - split; reflexivity.
Qed.

(* ------------------------------------------------------------------ *)
(** ** Timezone conversion *)

Lemma hasTime_false_of_DateOnly (x : string) : DateOnly x -> hasTime x = false.
Proof.
  intros Hx. unfold hasTime.
  destruct (includes " " x) eqn:Hinc; [| reflexivity].
  apply includes_char_iff in Hinc. contradiction.
Qed.

Lemma isIsoDate_DateOnly (x : string) : isIsoDate x = true -> DateOnly x.
Proof.
  unfold isIsoDate, DateOnly. intros Hiso Hin.
  destruct (list_ascii_of_string x) as [|y1 [|y2 [|y3 [|y4 [|d1 [|m1 [|m2 [|d2 [|a1 [|a2 [|extra l]]]]]]]]]]];
    try discriminate.
  repeat (apply andb_prop in Hiso; destruct Hiso as [Hiso ?]).
  simpl in Hin.
  repeat (destruct Hin as [Hin | Hin]; [subst; discriminate |]).
  exact Hin.
Qed.

(** C8.  Whatever the platform's number parsing, [Date.UTC] and
    [Intl.DateTimeFormat] do: converting between equal zones returns the
    input, and so does converting a string that has no time of day
    (no space, hence every ["YYYY-MM-DD"] date) between any two zones. *)
Theorem convertTimezone_unchanged
    (Number_ : string -> option Z)
    (Date_UTC : Z -> Z -> Z -> Z -> Z -> option Z)
    (formatToParts : string -> Z -> option (string -> option Z)) :
  (forall x zone, convertTimezone Number_ Date_UTC formatToParts x zone zone = x)
  /\ (forall x zone1 zone2,
         DateOnly x ->
         convertTimezone Number_ Date_UTC formatToParts x zone1 zone2 = x)
  /\ (forall x zone1 zone2,
         isIsoDate x = true ->
         convertTimezone Number_ Date_UTC formatToParts x zone1 zone2 = x).
Proof.
  assert (Hdate : forall x zone1 zone2,
             DateOnly x ->
             convertTimezone Number_ Date_UTC formatToParts x zone1 zone2 = x).
  { intros x zone1 zone2 Hx. unfold convertTimezone.
    rewrite (hasTime_false_of_DateOnly x Hx). simpl.
    now destruct (String.eqb zone1 zone2). }
  split; [| split].
  - intros x zone. unfold convertTimezone. now rewrite String.eqb_refl.
  - exact Hdate.
  - intros x zone1 zone2 Hiso. apply Hdate. now apply isIsoDate_DateOnly.
Qed.

Lemma convertTimezone_unchanged_witness :
  DateOnly "2024-01-01"
  /\ convertTimezone (fun _ => None) (fun _ _ _ _ _ => None) (fun _ _ => None)
       "2024-01-01" "Asia/Hong_Kong" "America/New_York" = "2024-01-01".
Proof.
  assert (H : DateOnly "2024-01-01").
  { unfold DateOnly. simpl. intuition discriminate. }
  split; [exact H |].
  exact (proj1 (proj2 (convertTimezone_unchanged
                         (fun _ => None) (fun _ _ _ _ _ => None) (fun _ _ => None)))
               "2024-01-01" "Asia/Hong_Kong" "America/New_York" H).
Defined.

(* ------------------------------------------------------------------ *)
(** ** The timestamp-keyed map *)

Lemma Map_get_set (k : Z) (v : PricePoint) (m : TsMap) (t : Z) :
  Map_get t (Map_set k v m) = if t =? k then Some v else Map_get t m.
Proof.
  unfold Map_get. induction m as [|[k0 v0] m IH]; simpl.
  - destruct (t =? k); reflexivity.
  - destruct (k =? k0) eqn:E; simpl.
    + apply Z.eqb_eq in E; subst k0. destruct (t =? k); reflexivity.
    + destruct (t =? k0) eqn:E2; simpl.
      * apply Z.eqb_eq in E2; subst k0.
        rewrite Z.eqb_sym, E. reflexivity.
      * exact IH.
Qed.

Lemma Map_set_keys (k : Z) (v : PricePoint) (m : TsMap) (t : Z) :
  In t (map fst (Map_set k v m)) <-> t = k \/ In t (map fst m).
Proof.
  induction m as [|[k0 v0] m IH]; simpl.
  - intuition.
  - destruct (k =? k0) eqn:E; simpl.
    + apply Z.eqb_eq in E; subst k0. intuition.
    + rewrite IH. intuition.
Qed.

Lemma Map_set_wf (k : Z) (v : PricePoint) (m : TsMap) :
  k = timestamp v -> MapWf m -> MapWf (Map_set k v m).
Proof.
  intros -> [Hnd Hall]. split.
  - induction m as [|[k0 v0] m IH]; simpl.
    + constructor; [intros [] | constructor].
    + inversion Hnd as [|? ? Hnotin Hnd']; subst.
      inversion Hall as [|? ? _ Hall']; subst.
      destruct (timestamp v =? k0) eqn:E; simpl.
      * apply Z.eqb_eq in E; subst k0. now constructor.
      * constructor; [| now apply IH].
        rewrite Map_set_keys. intros [H | H]; [| contradiction].
        apply Z.eqb_neq in E. congruence.
  - clear Hnd. induction Hall as [|[k0 v0] m Hhd Hall IH]; simpl.
    + constructor; [reflexivity | constructor].
    + destruct (timestamp v =? k0); constructor; auto.
Qed.

Lemma Map_get_In (t : Z) (v : PricePoint) (m : TsMap) :
  Map_get t m = Some v -> In (t, v) m.
Proof.
  unfold Map_get. destruct (find _ m) as [[k0 v0]|] eqn:F; [| discriminate].
  intros H; inversion H; subst. apply find_some in F as [Hin Heq].
  simpl in Heq. apply Z.eqb_eq in Heq. now subst.
Qed.

Lemma In_Map_get (t : Z) (v : PricePoint) (m : TsMap) :
  NoDup (map fst m) -> In (t, v) m -> Map_get t m = Some v.
Proof.
  unfold Map_get. induction m as [|[k0 v0] m IH]; simpl; [contradiction|].
  intros Hnd [Heq | Hin].
  - inversion Heq; subst. now rewrite Z.eqb_refl.
  - inversion Hnd as [|? ? Hnotin Hnd']; subst.
    destruct (t =? k0) eqn:E.
    + apply Z.eqb_eq in E; subst k0. exfalso. apply Hnotin.
      change t with (fst (t, v)). now apply in_map.
    + now apply IH.
Qed.

Lemma Map_values_In (m : TsMap) (v : PricePoint) :
  MapWf m -> (In v (Map_values m) <-> Map_get (timestamp v) m = Some v).
Proof.
  intros [Hnd Hall]. unfold Map_values. split.
  - intros Hin. apply in_map_iff in Hin as [[k0 v0] [Hsnd Hin]].
    simpl in Hsnd; subst v0. apply In_Map_get; [exact Hnd|].
    rewrite Forall_forall in Hall. specialize (Hall _ Hin). simpl in Hall.
    now subst k0.
  - intros Hget. apply Map_get_In in Hget.
    change v with (snd (timestamp v, v)). now apply in_map.
Qed.

Lemma Map_values_timestamps (m : TsMap) :
  MapWf m -> map timestamp (Map_values m) = map fst m.
Proof.
  intros [_ Hall]. unfold Map_values. rewrite map_map.
  induction Hall as [|e m He _ IH]; simpl; [reflexivity|].
  now rewrite IH, He.
Qed.

Lemma lastWrite_app (t : Z) (l1 l2 : list PricePoint) :
  lastWrite t (l1 ++ l2)
  = match lastWrite t l2 with
    | Some v => Some v
    | None => lastWrite t l1
    end.
Proof.
  induction l1 as [|x l1 IH]; simpl.
  - now destruct (lastWrite t l2).
  - rewrite IH. now destruct (lastWrite t l2).
Qed.

Lemma lastWrite_Some (t : Z) (l : list PricePoint) (v : PricePoint) :
  lastWrite t l = Some v -> In v l /\ timestamp v = t.
Proof.
  induction l as [|x l IH]; simpl; [discriminate|].
  destruct (lastWrite t l) as [y|].
  - intros H; inversion H; subst. destruct (IH eq_refl). auto.
  - destruct (t =? timestamp x) eqn:E; [| discriminate].
    intros H; inversion H; subst. apply Z.eqb_eq in E. auto.
Qed.

Lemma lastWrite_None (t : Z) (l : list PricePoint) :
  lastWrite t l = None <-> ~ In t (map timestamp l).
Proof.
  induction l as [|x l IH]; simpl.
  - intuition.
  - destruct (lastWrite t l) as [y|] eqn:L.
    + split; [discriminate|]. intros H. exfalso. apply H. right.
      apply lastWrite_Some in L as [Hin <-]. now apply in_map.
    + destruct (t =? timestamp x) eqn:E.
      * apply Z.eqb_eq in E. split; [discriminate | intros H; exfalso; auto].
      * apply Z.eqb_neq in E. split; [| reflexivity].
        intros _ [H | H]; [congruence | now apply IH].
Qed.

Lemma lastWrite_unique (l : list PricePoint) (v : PricePoint) :
  NoDup (map timestamp l) -> In v l -> lastWrite (timestamp v) l = Some v.
Proof.
  induction l as [|x l IH]; simpl; [contradiction|].
  intros Hnd Hin. inversion Hnd as [|? ? Hnotin Hnd']; subst.
  destruct Hin as [-> | Hin].
  - apply lastWrite_None in Hnotin. now rewrite Hnotin, Z.eqb_refl.
  - now rewrite (IH Hnd' Hin).
Qed.

Lemma overlay_get (l : list PricePoint) (m : TsMap) (t : Z) :
  Map_get t (fold_left setPoint l m)
  = match lastWrite t l with
    | Some v => Some v
    | None => Map_get t m
    end.
Proof.
  revert m; induction l as [|x l IH]; intros m; simpl; [reflexivity|].
  rewrite IH. destruct (lastWrite t l); [reflexivity|].
  unfold setPoint. rewrite Map_get_set. now destruct (t =? timestamp x).
Qed.

Lemma overlay_wf (l : list PricePoint) (m : TsMap) :
  MapWf m -> MapWf (fold_left setPoint l m).
Proof.
  revert m; induction l as [|x l IH]; intros m Hm; simpl; [exact Hm|].
  apply IH. now apply Map_set_wf.
Qed.

Lemma Map_new_points (prev : list PricePoint) :
  Map_new (map (fun p => (timestamp p, p)) prev) = fold_left setPoint prev [].
Proof.
  unfold Map_new. generalize (@nil (Z * PricePoint)).
  induction prev as [|x prev IH]; intros m; simpl; [reflexivity|].
  now rewrite IH.
Qed.

Lemma MapWf_nil : MapWf [].
Proof. split; constructor. Qed.

(* ------------------------------------------------------------------ *)
(** ** Sorting by timestamp *)

Lemma insert_by_timestamp_In (x y : PricePoint) (l : list PricePoint) :
  In y (insert_by_timestamp x l) <-> y = x \/ In y l.
Proof.
  induction l as [|z l IH]; simpl.
  - intuition.
  - destruct (timestamp x - timestamp z <=? 0); simpl.
    + intuition.
    + rewrite IH. intuition.
Qed.

Lemma sort_by_timestamp_In (y : PricePoint) (l : list PricePoint) :
  In y (sort_by_timestamp l) <-> In y l.
Proof.
  induction l as [|x l IH]; simpl; [reflexivity|].
  rewrite insert_by_timestamp_In, IH. intuition.
Qed.

Lemma insert_by_timestamp_strict (x : PricePoint) (l : list PricePoint) :
  StrictlyAscending l -> ~ In (timestamp x) (map timestamp l) ->
  StrictlyAscending (insert_by_timestamp x l).
Proof.
  unfold StrictlyAscending.
  induction l as [|y l IH]; simpl; intros Hs Hnotin.
  - constructor; constructor.
  - apply StronglySorted_inv in Hs as [Hs Hall].
    destruct (timestamp x - timestamp y <=? 0) eqn:E.
    + apply Z.leb_le in E.
      assert (Hlt : timestamp x < timestamp y) by lia.
      constructor; [constructor; assumption |].
      constructor; [exact Hlt |].
      rewrite Forall_forall in *. intros b Hb. specialize (Hall b Hb). lia.
    + apply Z.leb_gt in E. constructor.
      * apply IH; [exact Hs | tauto].
      * rewrite Forall_forall in *. intros b Hb.
        apply insert_by_timestamp_In in Hb as [-> | Hb]; [lia | auto].
Qed.

Lemma sort_by_timestamp_strict (l : list PricePoint) :
  NoDup (map timestamp l) -> StrictlyAscending (sort_by_timestamp l).
Proof.
  induction l as [|x l IH]; simpl; intros Hnd.
  - constructor.
  - inversion Hnd as [|? ? Hnotin Hnd']; subst.
    apply insert_by_timestamp_strict; [now apply IH |].
    intros Hin. apply Hnotin.
    apply in_map_iff in Hin as [y [Hy Hin]].
    apply (proj1 (sort_by_timestamp_In _ _)) in Hin. rewrite <- Hy. now apply in_map.
Qed.

Lemma sort_by_timestamp_sorted (l : list PricePoint) :
  StrictlyAscending l -> sort_by_timestamp l = l.
Proof.
  unfold StrictlyAscending.
  induction l as [|x l IH]; simpl; intros Hs; [reflexivity|].
  apply StronglySorted_inv in Hs as [Hs Hall].
  rewrite (IH Hs). destruct l as [|y l]; simpl; [reflexivity|].
  inversion Hall as [|? ? Hlt _]; subst.
  replace (timestamp x - timestamp y <=? 0) with true; [reflexivity|].
  symmetry. apply Z.leb_le. lia.
Qed.

Lemma StrictlyAscending_NoDup (l : list PricePoint) :
  StrictlyAscending l -> NoDup (map timestamp l).
Proof.
  unfold StrictlyAscending.
  induction l as [|x l IH]; simpl; intros Hs; [constructor|].
  apply StronglySorted_inv in Hs as [Hs Hall].
  constructor; [| now apply IH].
  intros Hin. apply in_map_iff in Hin as [y [Hy Hin]].
  rewrite Forall_forall in Hall. specialize (Hall y Hin). lia.
Qed.

(** Two strictly ascending series with the same elements are equal. *)
Lemma StrictlyAscending_ext (l1 l2 : list PricePoint) :
  StrictlyAscending l1 -> StrictlyAscending l2 ->
  (forall x, In x l1 <-> In x l2) -> l1 = l2.
Proof.
  unfold StrictlyAscending.
  revert l2; induction l1 as [|a l1 IH]; intros [|b l2] H1 H2 Hext.
  - reflexivity.
  - exfalso. apply (proj2 (Hext b)). now left.
  - exfalso. apply (proj1 (Hext a)). now left.
  - apply StronglySorted_inv in H1 as [H1 Hall1].
    apply StronglySorted_inv in H2 as [H2 Hall2].
    rewrite Forall_forall in Hall1, Hall2.
    assert (Hab : a = b).
    { destruct (proj1 (Hext a) (or_introl eq_refl)) as [Hba | Ha2]; [now symmetry |].
      destruct (proj2 (Hext b) (or_introl eq_refl)) as [Hab | Hb1]; [exact Hab |].
      specialize (Hall1 b Hb1). specialize (Hall2 a Ha2). lia. }
    subst b. f_equal. apply IH; [exact H1 | exact H2 |].
    intros x. split; intros Hx.
    + destruct (proj1 (Hext x) (or_intror Hx)) as [Hax | Hx2]; [| exact Hx2].
      subst x. specialize (Hall1 a Hx). lia.
    + destruct (proj2 (Hext x) (or_intror Hx)) as [Hax | Hx1]; [| exact Hx1].
      subst x. specialize (Hall2 a Hx). lia.
Qed.

Lemma at_timestamp_In (t : Z) (l : list PricePoint) (v : PricePoint) :
  StrictlyAscending l -> In v l -> timestamp v = t -> at_timestamp t l = Some v.
Proof.
  intros Hs Hin <-. apply StrictlyAscending_NoDup in Hs.
  unfold at_timestamp. induction l as [|x l IH]; simpl; [contradiction|].
  inversion Hs as [|? ? Hnotin Hnd]; subst.
  destruct Hin as [-> | Hin].
  - now rewrite Z.eqb_refl.
  - destruct (timestamp v =? timestamp x) eqn:E.
    + apply Z.eqb_eq in E. exfalso. apply Hnotin. rewrite <- E. now apply in_map.
    + now apply IH.
Qed.

(* ------------------------------------------------------------------ *)
(** ** The merge of refreshed candles *)

Lemma mergeCandles_overlay (prev newCandles : list PricePoint) :
  mergeCandles prev newCandles
  = sort_by_timestamp (Map_values (fold_left setPoint (prev ++ newCandles) [])).
Proof.
  unfold mergeCandles. rewrite Map_new_points, fold_left_app. reflexivity.
Qed.

Lemma mergeCandles_In (prev newCandles : list PricePoint) (v : PricePoint) :
  In v (mergeCandles prev newCandles)
  <-> lastWrite (timestamp v) (prev ++ newCandles) = Some v.
Proof.
  rewrite mergeCandles_overlay, sort_by_timestamp_In.
  rewrite Map_values_In by (apply overlay_wf, MapWf_nil).
  rewrite overlay_get. destruct (lastWrite _ _); [reflexivity|].
  split; discriminate.
Qed.

Lemma mergeCandles_strict (prev newCandles : list PricePoint) :
  StrictlyAscending (mergeCandles prev newCandles).
Proof.
  rewrite mergeCandles_overlay. apply sort_by_timestamp_strict.
  pose proof (overlay_wf (prev ++ newCandles) [] MapWf_nil) as Hwf.
  rewrite (Map_values_timestamps _ Hwf). exact (proj1 Hwf).
Qed.

Lemma merge_unfold (existing : list PricePoint) (incoming : list Candle) :
  merge existing incoming
  = match incoming, existing with
    | [], _ => existing
    | _ :: _, [] => []
    | _ :: _, _ :: _ => mergeCandles existing (map toPricePoint incoming)
    end.
Proof. destruct incoming, existing; reflexivity. Qed.

Lemma merge_strict (existing : list PricePoint) (incoming : list Candle) :
  StrictlyAscending existing -> StrictlyAscending (merge existing incoming).
Proof.
  intros Hs. rewrite merge_unfold. destruct incoming; [exact Hs|].
  destruct existing; [constructor | apply mergeCandles_strict].
Qed.

Lemma merge_In (existing : list PricePoint) (incoming : list Candle) (v : PricePoint) :
  existing <> [] -> incoming <> [] ->
  (In v (merge existing incoming)
   <-> lastWrite (timestamp v) (existing ++ map toPricePoint incoming) = Some v).
Proof.
  intros He Hi. rewrite merge_unfold.
  destruct incoming; [contradiction|]. destruct existing; [contradiction|].
  apply mergeCandles_In.
Qed.

Lemma merge_absorbs (A : list PricePoint) (B : list Candle) :
  merge (merge A B) B = merge A B.
Proof.
  destruct B as [|b B]; [reflexivity|].
  destruct A as [|a A]; [reflexivity|].
  remember (merge (a :: A) (b :: B)) as M eqn:HM.
  assert (HsM : StrictlyAscending M).
  { subst M. rewrite merge_unfold. apply mergeCandles_strict. }
  destruct M as [|m M']; [reflexivity|].
  apply StrictlyAscending_ext.
  - rewrite merge_unfold. apply mergeCandles_strict.
  - exact HsM.
  - intros x. rewrite merge_In by discriminate.
    rewrite HM at 2. rewrite merge_In by discriminate.
    rewrite !lastWrite_app.
    destruct (lastWrite (timestamp x) (map toPricePoint (b :: B))) as [y|] eqn:L;
      [reflexivity|].
    split; intros H.
    + apply lastWrite_Some in H as [Hin _].
      rewrite HM in Hin. apply merge_In in Hin; try discriminate.
      now rewrite lastWrite_app, L in Hin.
    + apply lastWrite_unique; [now apply StrictlyAscending_NoDup |].
      rewrite HM. apply merge_In; try discriminate.
      now rewrite lastWrite_app, L.
Qed.

Lemma merge_self (S : list Candle) :
  StrictlyAscending (map toPricePoint S) ->
  merge (map toPricePoint S) S = map toPricePoint S.
Proof.
  intros Hs. destruct S as [|c S]; [reflexivity|].
  apply StrictlyAscending_ext; [now apply merge_strict | exact Hs |].
  intros x. rewrite merge_In by discriminate.
  rewrite lastWrite_app. pose proof (StrictlyAscending_NoDup _ Hs) as Hnd.
  split; intros H.
  - destruct (lastWrite (timestamp x) (map toPricePoint (c :: S))) eqn:L.
    + inversion H; subst. now apply lastWrite_Some in L.
    + discriminate.
  - now rewrite (lastWrite_unique _ _ Hnd H).
Qed.

Lemma merge_incoming_wins (A : list PricePoint) (B : list Candle)
    (a : PricePoint) (b : Candle) :
  StrictlyAscending (map toPricePoint B) ->
  In a A -> In b B -> timestamp a = c_timestamp b ->
  at_timestamp (timestamp a) (merge A B) = Some (toPricePoint b).
Proof.
  intros HsB Ha Hb Hts.
  assert (HA : A <> []) by (intros ->; contradiction).
  assert (HB : B <> []) by (intros ->; contradiction).
  apply at_timestamp_In.
  - rewrite merge_unfold. destruct B; [contradiction|]. destruct A; [contradiction|].
    apply mergeCandles_strict.
  - apply merge_In; [exact HA | exact HB |].
    rewrite lastWrite_app.
    rewrite (lastWrite_unique (map toPricePoint B) (toPricePoint b));
      [reflexivity | now apply StrictlyAscending_NoDup | now apply in_map].
  - simpl. now symmetry.
Qed.

Lemma merge_keeps_others (A : list PricePoint) (B : list Candle) (a : PricePoint) :
  StrictlyAscending A -> In a A ->
  (forall b, In b B -> c_timestamp b <> timestamp a) ->
  In a (merge A B).
Proof.
  intros HsA Ha Hfresh.
  destruct B as [|b0 B]; [exact Ha|].
  apply merge_In; [intros ->; contradiction | discriminate |].
  rewrite lastWrite_app.
  assert (L : lastWrite (timestamp a) (map toPricePoint (b0 :: B)) = None).
  { apply lastWrite_None. rewrite map_map. intros Hin.
    apply in_map_iff in Hin as [b [Hb Hin]]. exact (Hfresh b Hin Hb). }
  rewrite L. apply lastWrite_unique; [now apply StrictlyAscending_NoDup | exact Ha].
Qed.

Lemma merge_last_write_wins (A : list PricePoint) (B : list Candle)
    (t : Z) (p : PricePoint) :
  A <> [] -> lastWrite t (map toPricePoint B) = Some p ->
  at_timestamp t (merge A B) = Some p.
Proof.
  intros HA L.
  assert (HB : B <> []) by (intros ->; discriminate).
  destruct (lastWrite_Some _ _ _ L) as [_ Hts].
  apply at_timestamp_In; [| | exact Hts].
  - rewrite merge_unfold. destruct B; [contradiction|]. destruct A; [contradiction|].
    apply mergeCandles_strict.
  - apply merge_In; [exact HA | exact HB |].
    now rewrite lastWrite_app, Hts, L.
Qed.

Lemma carries_toPricePoint (c : Candle) : carries (toPricePoint c) c.
Proof. unfold carries. simpl. repeat split. Qed.

Lemma carries_unique (p : PricePoint) (c : Candle) :
  carries p c -> p = toPricePoint c.
Proof.
  destruct p as [d t pr o h l v]. unfold carries, toPricePoint. simpl.
  intros (-> & -> & -> & -> & -> & -> & ->). reflexivity.
Qed.

Lemma Forall2_carries (H : list PricePoint) (S : list Candle) :
  Forall2 carries H S -> H = map toPricePoint S.
Proof.
  induction 1 as [|p c H S Hpc _ IH]; [reflexivity |].
  simpl. now rewrite (carries_unique p c Hpc), IH.
Qed.

Lemma mergeCandles_self (S : list PricePoint) :
  StrictlyAscending S -> mergeCandles S S = S.
Proof.
  intros Hs. apply StrictlyAscending_ext; [apply mergeCandles_strict | exact Hs |].
  intros x. rewrite mergeCandles_In, lastWrite_app.
  pose proof (StrictlyAscending_NoDup _ Hs) as Hnd. split; intros H.
  - destruct (lastWrite (timestamp x) S) eqn:L; [| discriminate].
    injection H as ->. now apply lastWrite_Some in L.
  - now rewrite (lastWrite_unique _ _ Hnd H).
Qed.

Lemma lastWrite_last (B1 B2 : list Candle) (b : Candle) :
  (forall b', In b' B2 -> c_timestamp b' <> c_timestamp b) ->
  lastWrite (c_timestamp b) (map toPricePoint (B1 ++ b :: B2)) = Some (toPricePoint b).
Proof.
  intros Hlater. rewrite map_app, lastWrite_app. simpl.
  assert (L : lastWrite (c_timestamp b) (map toPricePoint B2) = None).
  { apply lastWrite_None. rewrite map_map. intros Hin.
    apply in_map_iff in Hin as [b' [Hb' Hin]]. exact (Hlater b' Hin Hb'). }
  rewrite L. now rewrite Z.eqb_refl.
Qed.

Lemma merge_nothing_else (A : list PricePoint) (B : list Candle) (x : PricePoint) :
  In x (merge A B) -> In x A \/ exists b, In b B /\ carries x b.
Proof.
  intros Hin. destruct B as [|b0 B]; [now left |].
  destruct A as [|a0 A]; [now left |].
  apply merge_In in Hin; [| discriminate | discriminate].
  apply lastWrite_Some in Hin as [Hin _].
  apply in_app_or in Hin as [Hin | Hin]; [now left | right].
  apply in_map_iff in Hin as [b [<- Hb]].
  exists b. split; [exact Hb | apply carries_toPricePoint].
Qed.

(** C1.  Merging an incoming batch into a candle series yields a strictly
    ascending series without repeated timestamps.  At the timestamp of an
    incoming candle the result holds that candle's values, field by field
    (those of the last such candle, should the batch repeat the
    timestamp); an existing candle whose timestamp the batch does not
    carry is kept as it is; and the result holds nothing else.  Merging
    the empty batch, merging a series into itself, and merging the same
    batch a second time change nothing; and the worked example comes out
    as stated. *)
Theorem merge_series_properties :
  (forall A B, StrictlyAscending A ->
      StrictlyAscending (merge A B) /\ NoDup (map timestamp (merge A B)))
  /\ (forall A B1 b B2,
         A <> [] ->
         (forall b', In b' B2 -> c_timestamp b' <> c_timestamp b) ->
         exists x,
           at_timestamp (c_timestamp b) (merge A (B1 ++ b :: B2)) = Some x
           /\ carries x b)
  /\ (forall A B a,
         StrictlyAscending A -> In a A ->
         (forall b, In b B -> c_timestamp b <> timestamp a) ->
         at_timestamp (timestamp a) (merge A B) = Some a)
  /\ (forall A B x,
         In x (merge A B) -> In x A \/ exists b, In b B /\ carries x b)
  /\ (forall S, merge S [] = S)
  /\ (forall S, StrictlyAscending S -> mergeCandles S S = S)
  /\ (forall H S, StrictlyAscending H -> Forall2 carries H S -> merge H S = H)
  /\ (forall A B, merge (merge A B) B = merge A B)
  /\ merge [point 100 10; point 200 20] [candle 200 21; candle 300 30]
     = [point 100 10; stored 200 21; stored 300 30].
Proof.
  split; [| split; [| split; [| split; [| split; [| split; [| split; [| split]]]]]]].
  - intros A B HA. split; [now apply merge_strict |].
    now apply StrictlyAscending_NoDup, merge_strict.
  - intros A B1 b B2 HA Hlater. exists (toPricePoint b).
    split; [| apply carries_toPricePoint].
    apply merge_last_write_wins; [exact HA | now apply lastWrite_last].
  - intros A B a HA Ha Hfresh.
    apply at_timestamp_In; [now apply merge_strict | | reflexivity].
    now apply merge_keeps_others.
  - apply merge_nothing_else.
  - reflexivity.
  - apply mergeCandles_self.
  - intros H S HH Hc. pose proof (Forall2_carries H S Hc) as ->.
    now apply merge_self.
  - apply merge_absorbs.
  - reflexivity.
Qed.

Lemma merge_series_properties_witness :
  StrictlyAscending [point 100 10; point 200 20]
  /\ StrictlyAscending (merge [point 100 10; point 200 20] [candle 200 21; candle 300 30])
  /\ NoDup (map timestamp
              (merge [point 100 10; point 200 20] [candle 200 21; candle 300 30])).
Proof.
  assert (H : StrictlyAscending [point 100 10; point 200 20]).
  { unfold StrictlyAscending. repeat constructor. }
  split; [exact H |].
  exact (proj1 merge_series_properties
           [point 100 10; point 200 20] [candle 200 21; candle 300 30] H).
Defined.

(** C9.  When the history is empty, or absent, the merge step leaves it
    empty, or absent: a non-empty batch of refreshed candles is dropped,
    so merging into the empty series yields the empty series and not the
    batch. *)
Theorem refresh_into_empty_history_is_dropped :
  (forall c cs, applyRefreshCandles (Some (c :: cs)) (Some []) = Some [])
  /\ (forall c cs, applyRefreshCandles (Some (c :: cs)) None = None)
  /\ (forall c cs, historyUpdater (c :: cs) (Some []) = Some []
                   /\ historyUpdater (c :: cs) None = None)
  /\ (forall c cs, merge [] (c :: cs) = []
                   /\ merge [] (c :: cs) <> map toPricePoint (c :: cs)).
Proof.
  repeat split; discriminate.
Qed.

(* ------------------------------------------------------------------ *)
(** ** The rate-limit retry countdown *)

Lemma remove_only (id : nat) : remove Nat.eq_dec id [id] = [].
Proof. simpl. destruct (Nat.eq_dec id id); [reflexivity | congruence]. Qed.

(** What [startRetryCountdown] does by itself, in whatever state it is
    called: the timer is cancelled, the counter set, the flag raised. *)
Lemma startRetryCountdown_sets (w : option Q) (h : RetryHook) :
  let h' := startRetryCountdown w h in
  intervalRef h' = None
  /\ isCountingDown h' = false
  /\ secondsRemaining h' = totalDelayOf w h
  /\ isRateLimited h' = true
  /\ (forall id, intervalRef h = Some id -> ~ In id (liveIntervals h'))
  /\ countdownDeps h' = countdownDeps h
  /\ queuedRetries h' = queuedRetries h
  /\ retryCalls h' = retryCalls h.
Proof.
  unfold startRetryCountdown, totalDelayOf, clearIntervalRef.
  destruct h as [d rl sr ir cd deps live nh q calls]; simpl.
  destruct ir as [id0|]; simpl; repeat split; try discriminate.
  intros id H; inversion H; subst. apply remove_In.
Qed.

(** Called on an idle controller, it leaves a running countdown behind
    once the render is committed. *)
Lemma start_from_idle (w : option Q) (h : RetryHook) :
  RetryIdle h -> 0 < totalDelayOf w h ->
  let h' := retryStep h (CallStart w) in
  RetryCounting (nextHandle h) h'
  /\ secondsRemaining h' = totalDelayOf w h
  /\ queuedRetries h' = queuedRetries h
  /\ retryCalls h' = retryCalls h
  /\ defaultRetryDelaySeconds h' = defaultRetryDelaySeconds h.
Proof.
  intros (Hrl & Hir & Hcd & Hlive & Hdeps) Hpos.
  destruct h as [d rl sr ir cd deps live nh q calls]; simpl in *; subst.
  unfold totalDelayOf in Hpos; simpl in Hpos.
  unfold retryStep, startRetryCountdown, commitRetry, countdownCleanup,
    countdownEffect, RetryCounting, totalDelayOf; simpl.
  apply Z.ltb_lt in Hpos. rewrite Hpos. simpl. repeat split.
Qed.

(** One second of a running countdown that is not at its last second. *)
Lemma countdown_second (id : nat) (h : RetryHook) :
  RetryCounting id h -> 1 < secondsRemaining h ->
  let h' := retryStep h SecondElapses in
  RetryCounting id h'
  /\ secondsRemaining h' = secondsRemaining h - 1
  /\ queuedRetries h' = queuedRetries h
  /\ retryCalls h' = retryCalls h.
Proof.
  intros (Hrl & Hir & Hcd & Hlive & Hdeps) Hsr.
  destruct h as [d rl sr ir cd deps live nh q calls]; simpl in *; subst.
  unfold retryStep, fireIntervals, onInterval, commitRetry, RetryCounting; simpl.
  rewrite Nat.eqb_refl. simpl.
  replace (sr - 1 <=? 0) with false by (symmetry; apply Z.leb_gt; lia).
  simpl. repeat split.
Qed.

(** The last second: the timer is cleared, the controller is idle again
    and one call of the retry callback is queued, not yet run. *)
Lemma countdown_last_second (id : nat) (h : RetryHook) :
  RetryCounting id h -> secondsRemaining h <= 1 ->
  let h' := retryStep h SecondElapses in
  RetryIdle h'
  /\ secondsRemaining h' = 0
  /\ queuedRetries h' = S (queuedRetries h)
  /\ retryCalls h' = retryCalls h.
Proof.
  intros (Hrl & Hir & Hcd & Hlive & Hdeps) Hsr.
  destruct h as [d rl sr ir cd deps live nh q calls]; simpl in *; subst.
  unfold retryStep, fireIntervals, onInterval, commitRetry, countdownCleanup,
    countdownEffect, clearIntervalRef, RetryIdle; simpl.
  rewrite Nat.eqb_refl. simpl.
  replace (sr - 1 <=? 0) with true by (symmetry; apply Z.leb_le; lia).
  simpl. destruct (Nat.eq_dec id id); [| congruence].
  simpl. repeat split.
Qed.

Lemma retryRun_app (e1 e2 : list RetryEvent) (h : RetryHook) :
  retryRun (e1 ++ e2) h = retryRun e2 (retryRun e1 h).
Proof. apply fold_left_app. Qed.

(** A countdown of [n + 1] seconds runs to its end in [n + 1] seconds. *)
Lemma countdown_completes (n : nat) :
  forall (id : nat) (h : RetryHook),
    RetryCounting id h -> secondsRemaining h = Z.of_nat (S n) ->
    let h' := retryRun (repeat SecondElapses (S n)) h in
    RetryIdle h'
    /\ secondsRemaining h' = 0
    /\ queuedRetries h' = S (queuedRetries h)
    /\ retryCalls h' = retryCalls h.
Proof.
  induction n as [|n IH]; intros id h Hc Hsr.
  - simpl. apply (countdown_last_second id h Hc). lia.
  - change (repeat SecondElapses (S (S n)))
      with ([SecondElapses] ++ repeat SecondElapses (S n)).
    rewrite retryRun_app.
    change (retryRun [SecondElapses] h) with (retryStep h SecondElapses).
    destruct (countdown_second id h Hc) as (Hc' & Hsr' & Hq' & Hcalls'); [lia|].
    cbv zeta.
    destruct (IH id (retryStep h SecondElapses) Hc') as (Hi & H0 & Hq & Hcalls);
      [rewrite Hsr'; lia |].
    cbv zeta in Hi, H0, Hq, Hcalls.
    repeat split; try apply Hi; congruence.
Qed.

(** Before its end the countdown shows one second less per second. *)
Lemma countdown_progress (k : nat) :
  forall (id : nat) (h : RetryHook),
    RetryCounting id h -> Z.of_nat k < secondsRemaining h ->
    let h' := retryRun (repeat SecondElapses k) h in
    RetryCounting id h'
    /\ secondsRemaining h' = secondsRemaining h - Z.of_nat k
    /\ queuedRetries h' = queuedRetries h
    /\ retryCalls h' = retryCalls h.
Proof.
  induction k as [|k IH]; intros id h Hc Hsr.
  - simpl. split; [exact Hc | repeat split; lia].
  - change (repeat SecondElapses (S k)) with ([SecondElapses] ++ repeat SecondElapses k).
    rewrite retryRun_app.
    change (retryRun [SecondElapses] h) with (retryStep h SecondElapses).
    destruct (countdown_second id h Hc) as (Hc' & Hsr' & Hq' & Hcalls'); [lia|].
    cbv zeta.
    destruct (IH id (retryStep h SecondElapses) Hc') as (Hi & H0 & Hq & Hcalls);
      [rewrite Hsr'; lia |].
    cbv zeta in Hi, H0, Hq, Hcalls.
    repeat split; try apply Hi; try congruence. rewrite H0, Hsr'. lia.
Qed.

(** With no live interval and the effect up to date, time passing changes
    nothing. *)
Lemma no_interval_no_progress (h : RetryHook) (n : nat) :
  liveIntervals h = [] -> countdownDeps h = Some (isRateLimited h) ->
  retryRun (repeat SecondElapses n) h = h.
Proof.
  intros Hlive Hdeps.
  assert (Hstep : retryStep h SecondElapses = h).
  { unfold retryStep. rewrite Hlive. simpl.
    unfold commitRetry. now rewrite Hdeps, Bool.eqb_reflx. }
  induction n as [|n IH]; [reflexivity|].
  change (repeat SecondElapses (S n)) with ([SecondElapses] ++ repeat SecondElapses n).
  rewrite retryRun_app.
  change (retryRun [SecondElapses] h) with (retryStep h SecondElapses).
  now rewrite Hstep.
Qed.

(** C2.  Evaluation of the hook where a countdown is started while
    another one is running.  After [startRetryCountdown(5)] and one second
    the counter shows 5 and the interval is live.  A second
    [startRetryCountdown(5)] clears that interval and sets the counter to
    6, but [isRateLimited] was already [true], so the countdown effect does
    not run again and no interval exists; however many seconds elapse
    afterwards, the controller stays rate limited at 6 and the retry
    callback is never called. *)
Theorem restart_while_counting_stalls :
  let h1 := retryRun [CallStart (Some 5%Q); SecondElapses] (useRateLimitRetry 60) in
  let h2 := retryStep h1 (CallStart (Some 5%Q)) in
  (isRateLimited h1 = true /\ secondsRemaining h1 = 5 /\ liveIntervals h1 = [1%nat])
  /\ (isRateLimited h2 = true /\ secondsRemaining h2 = 6
      /\ intervalRef h2 = None /\ liveIntervals h2 = [])
  /\ (forall n,
         let h3 := retryRun (repeat SecondElapses n ++ [NextTurn]) h2 in
         isRateLimited h3 = true /\ secondsRemaining h3 = 6
         /\ queuedRetries h3 = 0%nat /\ retryCalls h3 = 0%nat).
Proof.
  cbv zeta. split; [| split].
  - vm_compute. repeat split.
  - vm_compute. repeat split.
  - intros n. rewrite retryRun_app, no_interval_no_progress.
    + vm_compute. repeat split.
    + reflexivity.
    + reflexivity.
Qed.

(** The countdown as the controller runs it when it is started from
    idle: [startRetryCountdown(w)] sets the counter to [ceil(w) + 1]
    ([ceil(default) + 1] without [w]) and the controller counts down; the
    counter loses one per second; the second that brings it to 0 leaves
    the controller idle with one call of the retry callback queued, which
    the next turn runs, once.  From the freshly mounted hook,
    [startRetryCountdown(5)] shows 6 and six seconds later the controller
    is idle and the callback has run once. *)
Theorem retry_countdown_from_idle :
  (forall (w : option Q) (h : RetryHook) (n : nat),
      RetryIdle h -> totalDelayOf w h = Z.of_nat (S n) ->
      let started := retryStep h (CallStart w) in
      let finished := retryRun (repeat SecondElapses (S n)) started in
      (isRateLimited started = true
       /\ secondsRemaining started = totalDelayOf w h
       /\ intervalRef started <> None)
      /\ (forall k, (k <= n)%nat ->
             let running := retryRun (repeat SecondElapses k) started in
             isRateLimited running = true
             /\ secondsRemaining running = totalDelayOf w h - Z.of_nat k
             /\ queuedRetries running = queuedRetries h
             /\ retryCalls running = retryCalls h)
      /\ (RetryIdle finished
          /\ secondsRemaining finished = 0
          /\ queuedRetries finished = S (queuedRetries h)
          /\ retryCalls finished = retryCalls h)
      /\ (forall m,
             let later := retryRun (NextTurn :: repeat SecondElapses m ++ [NextTurn]) finished in
             retryCalls later = (retryCalls h + queuedRetries h + 1)%nat
             /\ isRateLimited later = false))
  /\ (let started := retryRun [CallStart (Some 5%Q)] (useRateLimitRetry 60) in
      let finished := retryRun (repeat SecondElapses 6) started in
      secondsRemaining started = 6
      /\ isRateLimited finished = false
      /\ retryCalls finished = 0%nat
      /\ retryCalls (retryRun [NextTurn] finished) = 1%nat)
  /\ secondsRemaining (retryRun [CallStart None] (useRateLimitRetry 60)) = 61.
Proof.
  split; [| split; [vm_compute; repeat split | reflexivity]].
  intros w h n Hidle Hn. cbv zeta.
  assert (Hpos : 0 < totalDelayOf w h) by lia.
  destruct (start_from_idle w h Hidle Hpos) as (Hc & Hsr & Hq & Hcalls & _).
  cbv zeta in Hc, Hsr, Hq, Hcalls.
  set (started := retryStep h (CallStart w)) in *.
  split; [| split; [| split]].
  - destruct Hc as (Hrl & Hir & _). repeat split; [exact Hrl | exact Hsr |].
    rewrite Hir. discriminate.
  - intros k Hk.
    destruct (countdown_progress k _ started Hc) as (Hc' & Hsr' & Hq' & Hcalls');
      [lia |].
    cbv zeta in Hc', Hsr', Hq', Hcalls'.
    destruct Hc' as (Hrl' & _). repeat split; congruence.
  - destruct (countdown_completes n _ started Hc) as (Hi & H0 & Hq' & Hcalls');
      [congruence |].
    cbv zeta in Hi, H0, Hq', Hcalls'.
    repeat split; try apply Hi; congruence.
  - intros m.
    destruct (countdown_completes n _ started Hc) as (Hi & H0 & Hq' & Hcalls');
      [congruence |].
    cbv zeta in Hi, H0, Hq', Hcalls'.
    set (finished := retryRun (repeat SecondElapses (S n)) started) in *.
    change (NextTurn :: repeat SecondElapses m ++ [NextTurn])
      with ([NextTurn] ++ repeat SecondElapses m ++ [NextTurn]).
    rewrite !retryRun_app.
    change (retryRun [NextTurn] finished) with (runQueuedRetries finished).
    destruct Hi as (Hrl & Hir & Hcd & Hlive & Hdeps).
    rewrite no_interval_no_progress.
    + simpl. rewrite Hrl, Hq', Hcalls', Hq, Hcalls. split; [lia | reflexivity].
    + exact Hlive.
    + simpl. now rewrite Hdeps, Hrl.
Qed.

Lemma retry_countdown_from_idle_witness :
  RetryIdle (useRateLimitRetry 60)
  /\ totalDelayOf (Some 5%Q) (useRateLimitRetry 60) = Z.of_nat 6
  /\ secondsRemaining
       (retryRun (repeat SecondElapses 6)
          (retryStep (useRateLimitRetry 60) (CallStart (Some 5%Q)))) = 0.
Proof.
  assert (Hidle : RetryIdle (useRateLimitRetry 60)) by (repeat split).
  assert (Hn : totalDelayOf (Some 5%Q) (useRateLimitRetry 60) = Z.of_nat 6)
    by reflexivity.
  split; [exact Hidle | split; [exact Hn |]].
  exact (proj1 (proj2 (proj1 (proj2 (proj2
           (proj1 retry_countdown_from_idle (Some 5%Q) (useRateLimitRetry 60) 5%nat
              Hidle Hn)))))).
Defined.

(* ------------------------------------------------------------------ *)
(** ** The auto-refresh countdown *)

Lemma refreshRun_app (e1 e2 : list RefreshEvent) (h : RefreshHook) :
  refreshRun (e1 ++ e2) h = refreshRun e2 (refreshRun e1 h).
Proof. apply fold_left_app. Qed.

Ltac refresh_cases :=
  repeat match goal with
         | H : _ /\ _ |- _ => destruct H
         | H : exists _, _ |- _ => destruct H
         | H : Some _ = Some _ |- _ => inversion H; subst; clear H
         | H : true = true -> _ |- _ => specialize (H eq_refl)
         | H : true = false |- _ => discriminate H
         | H : false = true |- _ => discriminate H
         end.

Lemma mount_settled (o : RefreshOptions) : RefreshSettled (useAutoRefreshCountdown o).
Proof.
  destruct o as [[] [] []]; unfold RefreshSettled; simpl;
    repeat split; try discriminate; eauto.
Qed.

(** Rendering with new options that leave [isLoading] as it was: the
    state settles again and the counter is untouched. *)
Lemma render_settled (h : RefreshHook) (o : RefreshOptions) :
  RefreshSettled h ->
  RefreshSettled (refreshStep h (Render o)).
Proof.
  intros Hs. unfold RefreshSettled in Hs.
  destruct h as [[e l p] sr rf ir md mc rd live nh calls].
  destruct o as [e' l' p']. simpl in Hs.
  destruct e, l, p, rf; simpl in Hs; refresh_cases; subst;
    destruct e', l', p'; unfold RefreshSettled; simpl;
      rewrite ?Nat.eqb_refl; simpl;
      repeat split; try discriminate; eauto.
Qed.

Lemma render_keeps_counter (h : RefreshHook) (o : RefreshOptions) :
  RefreshSettled h -> isLoading o = isLoading (options h) ->
  ar_secondsRemaining (refreshStep h (Render o)) = ar_secondsRemaining h
  /\ isRefreshing (refreshStep h (Render o)) = isRefreshing h
  /\ refreshCalls (refreshStep h (Render o)) = refreshCalls h.
Proof.
  intros Hs Hl. unfold RefreshSettled in Hs.
  destruct h as [[e l p] sr rf ir md mc rd live nh calls].
  destruct o as [e' l' p']. simpl in Hs, Hl. subst l'.
  destruct e, l, p, rf; simpl in Hs; refresh_cases; subst;
    destruct e', p'; simpl; rewrite ?Nat.eqb_refl; simpl; repeat split.
Qed.

Lemma render_timer (h : RefreshHook) (o : RefreshOptions) :
  RefreshSettled h ->
  let h' := refreshStep h (Render o) in
  if shouldRun o
  then exists id, ar_intervalRef h' = Some id
                  /\ ar_liveIntervals h' = [(id, isLoading o)]
                  /\ (mainDepsOf o <> mainDepsOf (options h) -> id = ar_nextHandle h)
  else ar_intervalRef h' = None /\ ar_liveIntervals h' = [].
Proof.
  intros Hs. unfold RefreshSettled in Hs.
  destruct h as [[e l p] sr rf ir md mc rd live nh calls].
  destruct o as [e' l' p']. simpl in Hs.
  destruct e, l, p, rf; simpl in Hs; refresh_cases; subst;
    destruct e', l', p'; simpl; rewrite ?Nat.eqb_refl; simpl;
      try (split; reflexivity);
      eexists; repeat split; intros H; try reflexivity; exfalso; now apply H.
Qed.

(** While the scheduler does not run, passing seconds change nothing. *)
Lemma stopped_no_progress (h : RefreshHook) (n : nat) :
  RefreshSettled h -> shouldRun (options h) = false ->
  refreshRun (repeat SecondPasses n) h = h.
Proof.
  intros Hs Hoff.
  assert (Hstep : refreshStep h SecondPasses = h).
  { unfold RefreshSettled, shouldRun in Hs, Hoff.
    destruct h as [[e l p] sr rf ir md mc rd live nh calls].
    destruct e, l, p, rf; simpl in Hs, Hoff; try discriminate;
      refresh_cases; subst; reflexivity. }
  induction n as [|n IH]; [reflexivity|].
  change (repeat SecondPasses (S n)) with ([SecondPasses] ++ repeat SecondPasses n).
  rewrite refreshRun_app.
  change (refreshRun [SecondPasses] h) with (refreshStep h SecondPasses).
  now rewrite Hstep.
Qed.

Lemma second_settled (h : RefreshHook) :
  RefreshSettled h -> RefreshSettled (refreshStep h SecondPasses).
Proof.
  intros Hs. unfold RefreshSettled in Hs.
  destruct h as [[e l p] sr rf ir md mc rd live nh calls].
  destruct e, l, p, rf; simpl in Hs; refresh_cases; subst;
    unfold RefreshSettled, refreshStep, ar_fireIntervals, ar_onInterval; simpl;
      rewrite ?Nat.eqb_refl; simpl;
      try destruct (sr <=? 1); simpl;
      repeat split; try discriminate; eauto.
Qed.

Lemma reset_settled (h : RefreshHook) :
  RefreshSettled h -> RefreshSettled (refreshStep h CallResetCountdown).
Proof.
  intros Hs. unfold RefreshSettled in Hs.
  destruct h as [[e l p] sr rf ir md mc rd live nh calls].
  destruct e, l, p, rf; simpl in Hs; refresh_cases; subst;
    unfold RefreshSettled; simpl; repeat split; try discriminate; eauto.
Qed.

Lemma ltb_succ (n : nat) : (n <? S n)%nat = true.
Proof. apply Nat.ltb_lt. lia. Qed.

Lemma second_then_settled (h : RefreshHook) (o : RefreshOptions) :
  RefreshSettled h -> RefreshSettled (refreshStep h (SecondPassesThen o)).
Proof.
  intros Hs. unfold RefreshSettled in Hs.
  destruct h as [[e l p] sr rf ir md mc rd live nh calls].
  destruct o as [e' l' p'].
  destruct e, l, p, rf; simpl in Hs; refresh_cases; subst;
    unfold RefreshSettled, refreshStep, ar_fireIntervals, ar_onInterval; simpl;
      rewrite ?Nat.eqb_refl; simpl;
      try destruct (sr <=? 1); simpl;
      rewrite ?Nat.ltb_irrefl, ?ltb_succ; simpl;
      destruct e', l', p'; simpl; rewrite ?Nat.eqb_refl; simpl;
      repeat split; try discriminate; eauto.
Qed.

Lemma step_settled (h : RefreshHook) (e : RefreshEvent) :
  RefreshSettled h -> RefreshSettled (refreshStep h e).
Proof.
  destruct e;
    [apply render_settled | apply reset_settled | apply second_settled
    | apply second_then_settled].
Qed.

(** Every state the scheduler can reach is settled. *)
Lemma reachable_settled (events : list RefreshEvent) (o : RefreshOptions) :
  RefreshSettled (refreshRun events (useAutoRefreshCountdown o)).
Proof.
  unfold refreshRun.
  generalize (mount_settled o). generalize (useAutoRefreshCountdown o).
  induction events as [|e events IH]; intros h Hs; simpl; [exact Hs|].
  apply IH. now apply step_settled.
Qed.

(** The claim of C7 that resuming restarts the countdown from the full
    interval fails: after ten seconds the counter shows 170; pausing
    clears the timer; resuming starts a timer again, and the counter still
    shows 170, not 180.  The same happens when [enabled] is switched off
    and on. *)
Lemma resume_keeps_the_counter :
  let on_ := mkRefreshOptions true false false in
  let paused := mkRefreshOptions true false true in
  let disabled := mkRefreshOptions false false false in
  let running := refreshRun (repeat SecondPasses 10) (useAutoRefreshCountdown on_) in
  (ar_secondsRemaining running = 170
   /\ ar_intervalRef (refreshStep running (Render paused)) = None
   /\ ar_intervalRef (refreshRun [Render paused; Render on_] running) = Some 2%nat
   /\ ar_secondsRemaining (refreshRun [Render paused; Render on_] running) = 170
   /\ ar_secondsRemaining (refreshRun [Render disabled; Render on_] running) = 170)
  /\ ar_secondsRemaining (refreshRun [Render paused; Render on_] running)
     <> AUTO_REFRESH_INTERVAL / 1000.
Proof.
  vm_compute. repeat split; discriminate.
Qed.

(** C7, as the hook behaves.  In every state the scheduler can reach
    while it runs: a render that switches [enabled] off or [isPaused] on
    clears the one-second timer, and nothing changes while it stays
    stopped; a render that switches it back on starts a new one-second
    timer, and the counter continues from the value it had when the
    timer was cleared. *)
Theorem toggling_stops_and_resumes_countdown
    (events : list RefreshEvent) (initial stop resume : RefreshOptions) (n : nat) :
  let h := refreshRun events (useAutoRefreshCountdown initial) in
  enabled (options h) = true -> isPaused (options h) = false ->
  enabled stop = false \/ isPaused stop = true ->
  isLoading stop = isLoading (options h) ->
  enabled resume = true -> isPaused resume = false ->
  isLoading resume = isLoading (options h) ->
  let stopped := refreshStep h (Render stop) in
  let waited := refreshRun (repeat SecondPasses n) stopped in
  let resumed := refreshStep waited (Render resume) in
  (ar_intervalRef h <> None
   /\ ar_intervalRef stopped = None /\ ar_liveIntervals stopped = [])
  /\ waited = stopped
  /\ (ar_intervalRef resumed = Some (ar_nextHandle stopped)
      /\ ar_liveIntervals resumed = [(ar_nextHandle stopped, isLoading resume)])
  /\ ar_secondsRemaining resumed = ar_secondsRemaining h.
Proof.
  intros h He Hp Hstop Hl1 Hr1 Hr2 Hl2 stopped waited resumed.
  pose proof (reachable_settled events initial) as Hs. fold h in Hs.
  assert (Hoff : shouldRun stop = false).
  { unfold shouldRun. destruct Hstop as [-> | ->]; [reflexivity | apply andb_false_r]. }
  assert (Hon : shouldRun resume = true).
  { unfold shouldRun. now rewrite Hr1, Hr2. }
  assert (Hss : RefreshSettled stopped) by (now apply render_settled).
  assert (Hopt : options stopped = stop).
  { subst stopped. clear - Hs. unfold RefreshSettled in Hs.
    destruct h as [[e l p] sr rf ir md mc rd live nh calls].
    destruct stop as [e' l' p'].
    destruct e, l, p, rf; simpl in Hs; refresh_cases; subst;
      destruct e', l', p'; reflexivity. }
  assert (Hw : waited = stopped).
  { subst waited. apply stopped_no_progress; [exact Hss | now rewrite Hopt]. }
  split; [| split; [exact Hw | split]].
  - pose proof (render_timer h stop Hs) as Ht. cbv zeta in Ht. rewrite Hoff in Ht.
    split; [| exact Ht].
    destruct Hs as (_ & _ & _ & Hrun). unfold shouldRun in Hrun.
    rewrite He, Hp in Hrun. simpl in Hrun.
    destruct Hrun as (_ & id & Hid & _). rewrite Hid. discriminate.
  - subst resumed. rewrite Hw.
    pose proof (render_timer stopped resume Hss) as Ht. cbv zeta in Ht.
    rewrite Hon in Ht. destruct Ht as (id & Hid & Hlive & Hfresh).
    assert (id = ar_nextHandle stopped) as ->.
    { apply Hfresh. rewrite Hopt. unfold mainDepsOf.
      destruct Hstop as [H | H]; rewrite H; rewrite ?Hr1, ?Hr2; intros Heq;
        inversion Heq. }
    split; assumption.
  - subst resumed. rewrite Hw.
    destruct (render_keeps_counter stopped resume Hss) as (Hsr & _).
    { rewrite Hopt. congruence. }
    rewrite Hsr. subst stopped.
    now destruct (render_keeps_counter h stop Hs Hl1) as (Hsr' & _).
Qed.

Lemma toggling_stops_and_resumes_countdown_witness :
  let on_ := mkRefreshOptions true false false in
  let paused := mkRefreshOptions true false true in
  let h := refreshRun (repeat SecondPasses 10) (useAutoRefreshCountdown on_) in
  ar_secondsRemaining
    (refreshStep (refreshRun (repeat SecondPasses 5) (refreshStep h (Render paused)))
       (Render on_))
  = ar_secondsRemaining h.
Proof.
  exact (proj2 (proj2 (proj2
    (toggling_stops_and_resumes_countdown
       (repeat SecondPasses 10)
       (mkRefreshOptions true false false)
       (mkRefreshOptions true false true)
       (mkRefreshOptions true false false)
       5%nat eq_refl eq_refl (or_intror eq_refl) eq_refl eq_refl eq_refl eq_refl)))).
Defined.

(* ------------------------------------------------------------------ *)
(** ** Loops that push one element per round *)

Lemma for_loop_ext {St : Type} (body1 body2 : nat -> St -> St) (n : nat) (s : St) :
  (forall i x, body1 i x = body2 i x) ->
  for_loop n body1 s = for_loop n body2 s.
Proof.
  intros Hext. induction n as [|n IH]; simpl; [reflexivity|].
  now rewrite IH, Hext.
Qed.

Lemma for_loop_push {A : Type} (body : nat -> list A -> list A)
    (pushed : nat -> list A -> A) :
  (forall i result, body i result = result ++ [pushed i result]) ->
  forall n,
    List.length (for_loop n body []) = n
    /\ forall i, (i < n)%nat ->
         nth_error (for_loop n body []) i = Some (pushed i (for_loop i body [])).
Proof.
  intros Hbody. induction n as [|n [IHlen IHnth]]; simpl.
  - split; [reflexivity | intros i Hi; lia].
  - rewrite Hbody. split.
    + rewrite length_app, IHlen. simpl. lia.
    + intros i Hi. destruct (Nat.eq_dec i n) as [-> | Hne].
      * rewrite nth_error_app2 by lia. rewrite IHlen, Nat.sub_diag. reflexivity.
      * rewrite nth_error_app1 by lia. apply IHnth. lia.
Qed.

(** Earlier rounds are not rewritten by later ones. *)
Lemma for_loop_push_prefix {A : Type} (body : nat -> list A -> list A)
    (pushed : nat -> list A -> A) :
  (forall i result, body i result = result ++ [pushed i result]) ->
  forall n m k, (k < m)%nat -> (m <= n)%nat ->
    nth_error (for_loop m body []) k = nth_error (for_loop n body []) k.
Proof.
  intros Hbody n m k Hk Hm.
  destruct (for_loop_push body pushed Hbody n) as [_ Hn].
  destruct (for_loop_push body pushed Hbody m) as [_ Hm'].
  rewrite Hn by lia. rewrite Hm' by lia. reflexivity.
Qed.

(* ------------------------------------------------------------------ *)
(** ** Sums over a window *)

Lemma skipn_nth {A : Type} (d : A) (l : list A) (n : nat) :
  (n < List.length l)%nat -> skipn n l = nth n l d :: skipn (S n) l.
Proof.
  revert n; induction l as [|x l IH]; intros n Hn; simpl in Hn; [lia|].
  destruct n as [|n]; [reflexivity|].
  simpl. apply IH. lia.
Qed.

Lemma window_length {A : Type} (S : list A) (p i : nat) :
  (i < List.length S)%nat -> (p <= i + 1)%nat -> List.length (window S p i) = p.
Proof.
  intros Hi Hp. unfold window. rewrite length_firstn, length_skipn. lia.
Qed.

Lemma slice_window {A : Type} (prices : list A) (period : Z) (i : nat) :
  0 < period -> period - 1 <= Z.of_nat i ->
  slice prices (Z.to_nat (Z.of_nat i - period + 1)) (i + 1)
  = window prices (Z.to_nat period) i.
Proof.
  intros Hp Hw. unfold slice, window.
  replace (Z.to_nat (Z.of_nat i - period + 1)) with (i + 1 - Z.to_nat period)%nat by lia.
  f_equal. lia.
Qed.

Lemma nth_error_seq0 (n i : nat) : (i < n)%nat -> nth_error (seq 0 n) i = Some i.
Proof.
  intros Hi. rewrite (nth_error_nth' _ 0%nat) by (rewrite length_seq; exact Hi).
  now rewrite seq_nth.
Qed.

(** A loop that pushes onto two arrays a value that depends on the round
    only. *)
Lemma for_loop_push2 {A : Type}
    (body : nat -> list A * list A -> list A * list A) (f g : nat -> A) :
  (forall i u l, body i (u, l) = (u ++ [f i], l ++ [g i])) ->
  forall n, for_loop n body ([], []) = (map f (seq 0 n), map g (seq 0 n)).
Proof.
  intros Hbody. induction n as [|n IH]; [reflexivity|].
  simpl for_loop. rewrite IH, Hbody, seq_S, !map_app. reflexivity.
Qed.

(* ------------------------------------------------------------------ *)
(** ** The indicators in every arithmetic *)

Section IndicatorFacts.

Context {number : Type} {arithmetic : Arithmetic number}.

(** The loop of the moving averages adds up the window, the newest price
    first. *)
Lemma sumLastPrices_window (prices : list number) (period : Z) (i : nat) :
  (i < List.length prices)%nat -> period - 1 <= Z.of_nat i ->
  sumLastPrices prices period i = sum_newest_first (window prices (Z.to_nat period) i).
Proof.
  intros Hi Hp. unfold sumLastPrices, window.
  assert (Hn : (Z.to_nat period <= i + 1)%nat) by lia.
  clear Hp. generalize dependent (Z.to_nat period).
  induction n as [|n IH]; intros Hn; [reflexivity|].
  simpl for_loop. rewrite IH by lia.
  replace (i + 1 - S n)%nat with (i - n)%nat by lia.
  rewrite (skipn_nth (fromInt 0) prices (i - n)) by lia.
  replace (S (i - n)) with (i + 1 - n)%nat by lia.
  reflexivity.
Qed.

Lemma calculateSMA_push (prices : list number) (period : Z) :
  forall i result,
    (if Z.of_nat i <? period - 1 then result ++ [None]
     else result ++ [Some (sumLastPrices prices period i / fromInt period)%num])
    = result ++ [if Z.of_nat i <? period - 1 then None
                 else Some (sumLastPrices prices period i / fromInt period)%num].
Proof. intros i result. now destruct (Z.of_nat i <? period - 1). Qed.

Lemma calculateSMA_length (prices : list number) (period : Z) :
  List.length (calculateSMA prices period) = List.length prices.
Proof.
  unfold calculateSMA.
  apply (for_loop_push _ _ (calculateSMA_push prices period)).
Qed.

Lemma calculateSMA_nth (prices : list number) (period : Z) (i : nat) :
  (i < List.length prices)%nat ->
  nth_error (calculateSMA prices period) i
  = Some (if Z.of_nat i <? period - 1 then None
          else Some (sumLastPrices prices period i / fromInt period)%num).
Proof.
  intros Hi. unfold calculateSMA.
  now rewrite (proj2 (for_loop_push _ _ (calculateSMA_push prices period) _) i Hi).
Qed.

Lemma calculateEMA_push (prices : list number) (period : Z) :
  let multiplier := (fromInt 2 / (fromInt period + fromInt 1))%num in
  forall i result,
    (if Z.of_nat i <? period - 1 then result ++ [None]
     else if Z.of_nat i =? period - 1 then
       result ++ [Some (sumLastPrices prices period i / fromInt period)%num]
     else
       match nth_error result (i - 1) with
       | Some (Some previousEMA) =>
           result ++ [Some (nth i prices (fromInt 0) * multiplier
                            + previousEMA * (fromInt 1 - multiplier))%num]
       | _ => result ++ [None]
       end)
    = result ++
        [if Z.of_nat i <? period - 1 then None
         else if Z.of_nat i =? period - 1 then
           Some (sumLastPrices prices period i / fromInt period)%num
         else
           match nth_error result (i - 1) with
           | Some (Some previousEMA) =>
               Some (nth i prices (fromInt 0) * multiplier
                     + previousEMA * (fromInt 1 - multiplier))%num
           | _ => None
           end].
Proof.
  intros multiplier i result.
  destruct (Z.of_nat i <? period - 1); [reflexivity|].
  destruct (Z.of_nat i =? period - 1); [reflexivity|].
  now destruct (nth_error result (i - 1)) as [[prev|]|].
Qed.

Lemma calculateEMA_length (prices : list number) (period : Z) :
  List.length (calculateEMA prices period) = List.length prices.
Proof.
  unfold calculateEMA.
  apply (for_loop_push _ _ (calculateEMA_push prices period)).
Qed.

(** The element at [i] in terms of the element before it, as the loop
    computes it. *)
Lemma calculateEMA_nth (prices : list number) (period : Z) (i : nat) :
  0 < period -> (i < List.length prices)%nat ->
  let multiplier := (fromInt 2 / (fromInt period + fromInt 1))%num in
  nth_error (calculateEMA prices period) i
  = Some (if Z.of_nat i <? period - 1 then None
          else if Z.of_nat i =? period - 1 then
            Some (sumLastPrices prices period i / fromInt period)%num
          else
            match nth_error (calculateEMA prices period) (i - 1) with
            | Some (Some previousEMA) =>
                Some (nth i prices (fromInt 0) * multiplier
                      + previousEMA * (fromInt 1 - multiplier))%num
            | _ => None
            end).
Proof.
  intros Hp Hi. unfold calculateEMA. cbv zeta.
  rewrite (proj2 (for_loop_push _ _ (calculateEMA_push prices period) _) i Hi).
  destruct (Z.of_nat i <? period - 1) eqn:E1; [reflexivity|].
  destruct (Z.of_nat i =? period - 1) eqn:E2; [reflexivity|].
  destruct i as [|i].
  - apply Z.ltb_ge in E1. apply Z.eqb_neq in E2. lia.
  - rewrite (for_loop_push_prefix _ _ (calculateEMA_push prices period)
               (List.length prices) (S i) (S i - 1)) by lia.
    reflexivity.
Qed.

(** From the seed on, every element is defined. *)
Lemma calculateEMA_defined (prices : list number) (period : Z) (i : nat) :
  0 < period -> (i < List.length prices)%nat -> period - 1 <= Z.of_nat i ->
  exists value, nth_error (calculateEMA prices period) i = Some (Some value).
Proof.
  intros Hp. induction i as [|i IH]; intros Hi Hw.
  - rewrite calculateEMA_nth by assumption.
    replace (Z.of_nat 0 <? period - 1) with false by (symmetry; apply Z.ltb_ge; lia).
    replace (Z.of_nat 0 =? period - 1) with true by (symmetry; apply Z.eqb_eq; lia).
    eauto.
  - rewrite calculateEMA_nth by assumption.
    replace (Z.of_nat (S i) <? period - 1) with false
      by (symmetry; apply Z.ltb_ge; lia).
    destruct (Z.of_nat (S i) =? period - 1) eqn:E; [eauto|].
    apply Z.eqb_neq in E.
    replace (S i - 1)%nat with i by lia.
    destruct IH as [prev Hprev]; [lia | lia |].
    rewrite Hprev. eauto.
Qed.

(** On a window that is not empty [calculateStandardDeviation] is the
    population standard deviation. *)
Lemma calculateStandardDeviation_population (values : list number) :
  values <> [] ->
  calculateStandardDeviation values = population_std_dev values.
Proof.
  intros Hne. destruct values as [|v values]; [contradiction | reflexivity].
Qed.

(** The two outer bands at an index of the input. *)
Lemma calculateBollingerBands_nth (prices : list number) (period : Z)
    (m : number) (i : nat) :
  (i < List.length prices)%nat ->
  let bands := calculateBollingerBands prices period m in
  let gate :=
    if Z.of_nat i <? period - 1 then None
    else match nth_error (calculateSMA prices period) i with
         | Some (Some middleValue) => Some middleValue
         | _ => None
         end in
  let stdDev :=
    calculateStandardDeviation
      (slice prices (Z.to_nat (Z.of_nat i - period + 1)) (i + 1)) in
  nth_error (upper bands) i
  = Some (match gate with
          | None => None
          | Some middleValue => Some (middleValue + stdDev * m)%num
          end)
  /\ nth_error (lower bands) i
     = Some (match gate with
             | None => None
             | Some middleValue => Some (middleValue - stdDev * m)%num
             end).
Proof.
  intros Hi. cbv zeta. unfold calculateBollingerBands. cbv zeta.
  cbn [upper lower].
  pose (gate := fun k : nat =>
          if Z.of_nat k <? period - 1 then None
          else match nth_error (calculateSMA prices period) k with
               | Some (Some middleValue) => Some middleValue
               | _ => None
               end).
  pose (stdDev := fun k : nat =>
          calculateStandardDeviation
            (slice prices (Z.to_nat (Z.of_nat k - period + 1)) (k + 1))).
  rewrite (for_loop_push2 _
             (fun k => match gate k with
                       | None => None
                       | Some middleValue => Some (middleValue + stdDev k * m)%num
                       end)
             (fun k => match gate k with
                       | None => None
                       | Some middleValue => Some (middleValue - stdDev k * m)%num
                       end)).
  - cbn [fst snd]. split.
    + now rewrite (map_nth_error _ _ _ (nth_error_seq0 _ _ Hi)).
    + now rewrite (map_nth_error _ _ _ (nth_error_seq0 _ _ Hi)).
  - intros k u l. subst gate stdDev. cbv beta iota.
    destruct (if Z.of_nat k <? period - 1 then None
              else match nth_error (calculateSMA prices period) k with
                   | Some (Some middleValue) => Some middleValue
                   | _ => None
                   end); reflexivity.
Qed.


End IndicatorFacts.

(* ------------------------------------------------------------------ *)
(** ** Moving averages *)

(** C3.  In every arithmetic, so in JavaScript's doubles: the output of
    [calculateSMA] is as long as the input; for a positive period [p] its
    element at an index [i] of the input is undefined when [i < p - 1]
    and otherwise the quotient by [p] of the sum of the prices
    [S[i-p+1..i]], added up from 0 with the newest price first - the
    arithmetic mean of the window as this arithmetic computes it in that
    order.  In doubles SMA([1,2,3,4,5], 3) = [_, _, 2, 3, 4]. *)
Theorem calculateSMA_rounded_mean :
  (forall (number : Type) (arithmetic : Arithmetic number) (S : list number) p,
      List.length (calculateSMA S p) = List.length S)
  /\ (forall (number : Type) (arithmetic : Arithmetic number) (S : list number) p i,
         0 < p -> (i < List.length S)%nat ->
         (Z.of_nat i < p - 1 -> nth_error (calculateSMA S p) i = Some None)
         /\ (p - 1 <= Z.of_nat i ->
             nth_error (calculateSMA S p) i
             = Some (Some (sum_newest_first (window S (Z.to_nat p) i)
                           / fromInt p)%num)))
  /\ calculateSMA [1; 2; 3; 4; 5]%float 3 = [None; None; Some 2; Some 3; Some 4]%float.
Proof.
  split; [intros; apply calculateSMA_length | split].
  - intros number arithmetic S p i Hp Hi.
    rewrite calculateSMA_nth by exact Hi. split; intros Hw.
    + apply Z.ltb_lt in Hw. now rewrite Hw.
    + replace (Z.of_nat i <? p - 1) with false by (symmetry; apply Z.ltb_ge; lia).
      now rewrite sumLastPrices_window by lia.
  - reflexivity.
Qed.

Lemma calculateSMA_rounded_mean_witness :
  nth_error (calculateSMA [0.1; 0.2; 0.3; 0.4]%float 3) 3
  = Some (Some ((0 + 0.4 + 0.3 + 0.2) / 3)%float).
Proof.
  refine (proj2 (proj1 (proj2 calculateSMA_rounded_mean)
                   float double_arithmetic [0.1; 0.2; 0.3; 0.4]%float 3 3%nat _ _) _).
  - lia.
  - simpl. lia.
  - simpl. lia.
Defined.

(** The claim of C3 that the element is the arithmetic mean of the window
    fails in doubles: SMA([0.1, 0.2, 0.3], 3)[2] is 0.19999999999999998,
    which is not the mean of the three doubles, and not the double
    nearest to it either: 0.2 is nearer.  Added up oldest first, the same
    window gives 0.20000000000000004.  With a period the chart offers:
    the ten prices 1.5, 1.6, ..., 2.4 with period 10 give
    1.9500000000000004, where 1.95 is nearer to their mean. *)
Lemma calculateSMA_is_not_the_exact_mean :
  (calculateSMA [0.1; 0.2; 0.3]%float 3 = [None; None; Some 0.19999999999999998%float]
   /\ (exists value mean nearer,
          exactValue 0.19999999999999998 = Some value
          /\ exact_mean [0.1; 0.2; 0.3]%float = Some mean
          /\ exactValue 0.2 = Some nearer
          /\ ~ (value == mean)%Q
          /\ (Qabs (nearer - mean) < Qabs (value - mean))%Q)
   /\ mean_in_order [0.1; 0.2; 0.3]%float = 0.20000000000000004%float)
  /\ (nth_error
        (calculateSMA [1.5; 1.6; 1.7; 1.8; 1.9; 2.0; 2.1; 2.2; 2.3; 2.4]%float 10) 9
      = Some (Some 1.9500000000000004%float)
      /\ exists value mean nearer,
           exactValue 1.9500000000000004 = Some value
           /\ exact_mean [1.5; 1.6; 1.7; 1.8; 1.9; 2.0; 2.1; 2.2; 2.3; 2.4]%float
              = Some mean
           /\ exactValue 1.95 = Some nearer
           /\ ~ (value == mean)%Q
           /\ (Qabs (nearer - mean) < Qabs (value - mean))%Q).
Proof.
  split.
  - split; [reflexivity | split; [| reflexivity]].
    eexists. eexists. eexists.
    split; [vm_compute; reflexivity |].
    split; [vm_compute; reflexivity |].
    split; [vm_compute; reflexivity |].
    split; [intros H; vm_compute in H; discriminate H | vm_compute; reflexivity].
  - split; [reflexivity |].
    eexists. eexists. eexists.
    split; [vm_compute; reflexivity |].
    split; [vm_compute; reflexivity |].
    split; [vm_compute; reflexivity |].
    split; [intros H; vm_compute in H; discriminate H | vm_compute; reflexivity].
Qed.

(** C4.  In every arithmetic: for a positive period [p] and an index [i]
    of the input, [calculateEMA] is undefined at [i < p - 1], equals the
    simple moving average at [i = p - 1], and at [i > p - 1] is
    [S[i] * k + EMA[i-1] * (1 - k)] with [k = 2 / (p + 1)]: undefined if
    the previous element is undefined, which from the seed on it never
    is.  In doubles EMA([1,2,3,4,5], 3) = [_, _, 2, 3, 4]. *)
Theorem calculateEMA_recurrence :
  (forall (number : Type) (arithmetic : Arithmetic number) (S : list number) p,
      List.length (calculateEMA S p) = List.length S)
  /\ (forall (number : Type) (arithmetic : Arithmetic number) (S : list number) p i,
         0 < p -> (i < List.length S)%nat ->
         (Z.of_nat i < p - 1 -> nth_error (calculateEMA S p) i = Some None)
         /\ (Z.of_nat i = p - 1 ->
             nth_error (calculateEMA S p) i = nth_error (calculateSMA S p) i)
         /\ (p - 1 < Z.of_nat i ->
             let k := (fromInt 2 / (fromInt p + fromInt 1))%num in
             nth_error (calculateEMA S p) i
             = Some (match nth_error (calculateEMA S p) (i - 1) with
                     | Some (Some previous) =>
                         Some (nth i S (fromInt 0) * k + previous * (fromInt 1 - k))%num
                     | _ => None
                     end)
             /\ exists previous,
                 nth_error (calculateEMA S p) (i - 1) = Some (Some previous)
                 /\ nth_error (calculateEMA S p) i
                    = Some (Some (nth i S (fromInt 0) * k
                                  + previous * (fromInt 1 - k))%num)))
  /\ (forall (number : Type) (arithmetic : Arithmetic number) (S : list number) p,
         0 < p ->
         nth_error (calculateEMA S p) (Z.to_nat (p - 1))
         = nth_error (calculateSMA S p) (Z.to_nat (p - 1)))
  /\ calculateEMA [1; 2; 3; 4; 5]%float 3 = [None; None; Some 2; Some 3; Some 4]%float.
Proof.
  split; [intros; apply calculateEMA_length | split; [| split]].
  2:{ intros number arithmetic S p Hp.
      destruct (Nat.lt_ge_cases (Z.to_nat (p - 1)) (List.length S)) as [Hi | Hi].
      - rewrite calculateEMA_nth, calculateSMA_nth by assumption.
        replace (Z.of_nat (Z.to_nat (p - 1)) <? p - 1) with false
          by (symmetry; apply Z.ltb_ge; lia).
        replace (Z.of_nat (Z.to_nat (p - 1)) =? p - 1) with true
          by (symmetry; apply Z.eqb_eq; lia).
        reflexivity.
      - rewrite (proj2 (nth_error_None (calculateEMA S p) _))
          by (rewrite calculateEMA_length; exact Hi).
        rewrite (proj2 (nth_error_None (calculateSMA S p) _))
          by (rewrite calculateSMA_length; exact Hi).
        reflexivity. }
  - intros number arithmetic S p i Hp Hi. split; [| split]; intros Hw.
    + rewrite calculateEMA_nth by assumption.
      apply Z.ltb_lt in Hw. now rewrite Hw.
    + rewrite calculateEMA_nth, calculateSMA_nth by assumption.
      replace (Z.of_nat i <? p - 1) with false by (symmetry; apply Z.ltb_ge; lia).
      replace (Z.of_nat i =? p - 1) with true by (symmetry; apply Z.eqb_eq; lia).
      reflexivity.
    + cbv zeta.
      assert (Hnth := calculateEMA_nth S p i Hp Hi). cbv zeta in Hnth.
      replace (Z.of_nat i <? p - 1) with false in Hnth
        by (symmetry; apply Z.ltb_ge; lia).
      replace (Z.of_nat i =? p - 1) with false in Hnth
        by (symmetry; apply Z.eqb_neq; lia).
      split; [exact Hnth |].
      destruct (calculateEMA_defined S p (i - 1) Hp) as [prev Hprev]; [lia | lia |].
      exists prev. split; [exact Hprev |]. now rewrite Hnth, Hprev.
  - reflexivity.
Qed.

Lemma calculateEMA_recurrence_witness :
  nth_error (calculateEMA [0.1; 0.2; 0.3; 0.4]%float 3) 2
  = nth_error (calculateSMA [0.1; 0.2; 0.3; 0.4]%float 3) 2.
Proof.
  refine (proj1 (proj2 (proj1 (proj2 calculateEMA_recurrence)
                   float double_arithmetic [0.1; 0.2; 0.3; 0.4]%float 3 2%nat _ _)) _).
  - lia.
  - simpl. lia.
  - reflexivity.
Defined.

(* ------------------------------------------------------------------ *)
(** ** Bollinger bands *)

(** C5.  In every arithmetic: the middle band is the simple moving
    average; for a positive period, wherever the middle band is defined
    the upper band is the middle plus, and the lower band the middle
    minus, the product of the multiplier and the population standard
    deviation of the window [S[i-p+1..i]] (the squared deviations from
    the mean divided by the number of prices); where the middle band is
    undefined so are the other two.  In doubles the prices
    2, 4, 4, 4, 5, 5, 7, 9 with period 8 and multiplier 1 give the bands
    7, 5 and 3 at the last index: their standard deviation is 2, as
    dividing by 8 gives, and not the 2.138 that dividing by 7 would
    give. *)
Theorem calculateBollingerBands_population_sigma :
  (forall (number : Type) (arithmetic : Arithmetic number) (S : list number) p m,
      middle (calculateBollingerBands S p m) = calculateSMA S p)
  /\ (forall (number : Type) (arithmetic : Arithmetic number) (S : list number) p m i mid,
         0 < p ->
         nth_error (middle (calculateBollingerBands S p m)) i = Some (Some mid) ->
         let sigma := population_std_dev (window S (Z.to_nat p) i) in
         nth_error (upper (calculateBollingerBands S p m)) i
         = Some (Some (mid + sigma * m)%num)
         /\ nth_error (lower (calculateBollingerBands S p m)) i
            = Some (Some (mid - sigma * m)%num))
  /\ (forall (number : Type) (arithmetic : Arithmetic number) (S : list number) p m i,
         0 < p ->
         nth_error (middle (calculateBollingerBands S p m)) i = Some None ->
         nth_error (upper (calculateBollingerBands S p m)) i = Some None
         /\ nth_error (lower (calculateBollingerBands S p m)) i = Some None)
  /\ calculateBollingerBands [2; 4; 4; 4; 5; 5; 7; 9]%float 8 1%float
     = {| upper := repeat None 7 ++ [Some 7%float];
          middle := repeat None 7 ++ [Some 5%float];
          lower := repeat None 7 ++ [Some 3%float] |}.
Proof.
  split; [reflexivity | split; [| split; [| reflexivity]]].
  - intros number arithmetic S p m i mid Hp Hmid. cbv zeta.
    change (middle (calculateBollingerBands S p m)) with (calculateSMA S p) in Hmid.
    assert (Hi : (i < List.length S)%nat).
    { rewrite <- (calculateSMA_length S p). apply nth_error_Some. congruence. }
    destruct (calculateBollingerBands_nth S p m i Hi) as [Hu Hl].
    cbv zeta in Hu, Hl. rewrite Hmid in Hu, Hl.
    rewrite calculateSMA_nth in Hmid by exact Hi.
    destruct (Z.of_nat i <? p - 1) eqn:E; [discriminate|].
    apply Z.ltb_ge in E.
    assert (Hne : window S (Z.to_nat p) i <> []).
    { intros Hnil. apply (f_equal (@List.length number)) in Hnil.
      rewrite window_length in Hnil by lia. simpl in Hnil. lia. }
    rewrite slice_window, calculateStandardDeviation_population in Hu, Hl
      by (try lia; exact Hne).
    split; [exact Hu | exact Hl].
  - intros number arithmetic S p m i Hp Hmid.
    change (middle (calculateBollingerBands S p m)) with (calculateSMA S p) in Hmid.
    assert (Hi : (i < List.length S)%nat).
    { rewrite <- (calculateSMA_length S p). apply nth_error_Some. congruence. }
    destruct (calculateBollingerBands_nth S p m i Hi) as [Hu Hl].
    cbv zeta in Hu, Hl. rewrite Hmid in Hu, Hl.
    destruct (Z.of_nat i <? p - 1); split; assumption.
Qed.

Lemma calculateBollingerBands_population_sigma_witness :
  nth_error (upper (calculateBollingerBands [1; 2; 3; 4; 5]%float 3 2%float)) 2
  = Some (Some (2 + population_std_dev (window [1; 2; 3; 4; 5]%float (Z.to_nat 3) 2) * 2)%float).
Proof.
  refine (proj1 (proj1 (proj2 calculateBollingerBands_population_sigma)
                   float double_arithmetic [1; 2; 3; 4; 5]%float 3 2%float 2%nat 2%float
                   _ _)).
  - lia.
  - reflexivity.
Defined.

(** The claim of C5 that the two outer bands lie at the same distance
    from the middle fails in doubles.  For the prices [0, 0.2] with
    period 2 and multiplier 2 the bands at index 1 are
    0.30000000000000004, 0.1 and -0.1: the upper one lies
    0.20000000000000004 above the middle and the lower one 0.2 below.
    For the prices [0, 2] with multiplier 0.1, where the standard
    deviation is exactly 1, they are 1.1000000000000001, 1 and 0.9.  With
    a period and a multiplier the chart offers: the ten prices
    1.1, 1.2, ..., 2.0 with period 10 and multiplier 2 give
    2.1244562646538028, 1.55 and 0.9755437353461972.  In every case the
    two distances differ as doubles and as exact numbers. *)
Lemma calculateBollingerBands_distances_differ :
  (calculateBollingerBands [0; 0.2]%float 2 2%float
   = {| upper := [None; Some 0.30000000000000004%float];
        middle := [None; Some 0.1%float];
        lower := [None; Some (-0.1)%float] |}
   /\ ((0.30000000000000004 - 0.1 =? 0.1 - (-0.1))%float = false
       /\ (0.30000000000000004 - 0.1)%float = 0.20000000000000004%float
       /\ (0.1 - (-0.1))%float = 0.2%float)
   /\ exists up mid lo,
        exactValue 0.30000000000000004 = Some up
        /\ exactValue 0.1 = Some mid
        /\ exactValue (-0.1) = Some lo
        /\ ~ (up - mid == mid - lo)%Q)
  /\ (calculateBollingerBands [0; 2]%float 2 0.1%float
      = {| upper := [None; Some 1.1%float];
           middle := [None; Some 1%float];
           lower := [None; Some 0.9%float] |}
      /\ population_std_dev [0; 2]%float = 1%float
      /\ (1.1 - 1 =? 1 - 0.9)%float = false
      /\ exists up mid lo,
           exactValue 1.1 = Some up
           /\ exactValue 1 = Some mid
           /\ exactValue 0.9 = Some lo
           /\ ~ (up - mid == mid - lo)%Q)
  /\ (let bands :=
        calculateBollingerBands
          [1.1; 1.2; 1.3; 1.4; 1.5; 1.6; 1.7; 1.8; 1.9; 2.0]%float 10 2%float in
      nth_error (upper bands) 9 = Some (Some 2.1244562646538028%float)
      /\ nth_error (middle bands) 9 = Some (Some 1.55%float)
      /\ nth_error (lower bands) 9 = Some (Some 0.9755437353461972%float)
      /\ (2.1244562646538028 - 1.55 =? 1.55 - 0.9755437353461972)%float = false
      /\ exists up mid lo,
           exactValue 2.1244562646538028 = Some up
           /\ exactValue 1.55 = Some mid
           /\ exactValue 0.9755437353461972 = Some lo
           /\ ~ (up - mid == mid - lo)%Q).
Proof.
  split; [| split].
  - split; [reflexivity | split; [repeat split |]].
    eexists. eexists. eexists.
    repeat (split; [vm_compute; reflexivity |]).
    intros H. vm_compute in H. discriminate H.
  - split; [reflexivity | split; [reflexivity | split; [reflexivity |]]].
    eexists. eexists. eexists.
    repeat (split; [vm_compute; reflexivity |]).
    intros H. vm_compute in H. discriminate H.
  - cbv zeta. repeat (split; [reflexivity |]).
    eexists. eexists. eexists.
    repeat (split; [vm_compute; reflexivity |]).
    intros H. vm_compute in H. discriminate H.
Qed.

(* ------------------------------------------------------------------ *)
(** ** The indicators in exact arithmetic *)

Ltac real_ops :=
  cbn [fromInt num_add num_sub num_mul num_div Math_pow2 Math_sqrt real_arithmetic] in *.

Lemma sum_newest_first_real (w : list R) : sum_newest_first w = sum_of w.
Proof.
  induction w as [|x w IH]; [reflexivity |].
  change (sum_newest_first (x :: w)) with (sum_newest_first w + x)%num.
  change (sum_of (x :: w)) with (x + sum_of w)%R.
  rewrite IH. real_ops. lra.
Qed.

Lemma INR_to_nat (p : Z) : 0 <= p -> INR (Z.to_nat p) = IZR p.
Proof. intros Hp. rewrite INR_IZR_INZ, Z2Nat.id by exact Hp. reflexivity. Qed.

(** Over the real numbers the simple moving average is the arithmetic
    mean of the window. *)
Lemma calculateSMA_exact_mean (S : list R) (p : Z) (i : nat) :
  0 < p -> (i < List.length S)%nat -> p - 1 <= Z.of_nat i ->
  nth_error (calculateSMA S p) i
  = Some (Some (arithmetic_mean (window S (Z.to_nat p) i))).
Proof.
  intros Hp Hi Hw. rewrite calculateSMA_nth by exact Hi.
  replace (Z.of_nat i <? p - 1) with false by (symmetry; apply Z.ltb_ge; lia).
  rewrite sumLastPrices_window, sum_newest_first_real by lia.
  unfold arithmetic_mean. rewrite window_length by lia.
  rewrite INR_to_nat by lia. reflexivity.
Qed.



(* ------------------------------------------------------------------ *)
(** ** Market hours *)







(* ------------------------------------------------------------------ *)
(** ** Reachable states of the retry controller *)

Ltac retry_crush :=
  simpl;
  repeat match goal with
         | |- context [Nat.eq_dec ?a ?a] =>
             destruct (Nat.eq_dec a a); [| congruence]
         | |- context [(?a =? ?a)%nat] => rewrite Nat.eqb_refl
         end;
  simpl.

Lemma mount_retry_wf (delay : Q) : RetryWf (useRateLimitRetry delay).
Proof. unfold RetryWf. simpl. repeat split. Qed.

Lemma retryStep_wf (h : RetryHook) (e : RetryEvent) :
  RetryWf h -> RetryWf (retryStep h e).
Proof.
  unfold RetryWf.
  destruct h as [d rl sr ir cd deps live nh q calls]; simpl.
  intros (Hdeps & Hzero & Hir). subst deps.
  destruct e as [w | | | |]; unfold retryStep.
  - unfold startRetryCountdown, commitRetry, countdownCleanup, countdownEffect,
      clearIntervalRef.
    destruct ir as [id|]; [destruct Hir as (-> & -> & -> & Hpos)
                          | destruct Hir as (-> & ->)]; retry_crush.
    + repeat split; discriminate.
    + destruct rl; simpl.
      * repeat split; discriminate.
      * destruct (0 <? Qceiling match w with Some w0 => w0 | None => d end + 1)
          eqn:E; simpl; repeat split; try discriminate.
        now apply Z.ltb_lt.
  - unfold cancelRetry, commitRetry, countdownCleanup, countdownEffect,
      clearIntervalRef.
    destruct ir as [id|]; [destruct Hir as (-> & -> & -> & Hpos)
                          | destruct Hir as (-> & ->)]; retry_crush.
    + repeat split.
    + destruct rl; simpl; repeat split.
  - unfold resetRateLimit, commitRetry, countdownCleanup, countdownEffect,
      clearIntervalRef.
    destruct ir as [id|]; [destruct Hir as (-> & -> & -> & Hpos)
                          | destruct Hir as (-> & ->)]; retry_crush.
    + repeat split.
    + destruct rl; simpl; repeat split.
  - unfold fireIntervals, onInterval, commitRetry, countdownCleanup,
      countdownEffect, clearIntervalRef.
    destruct ir as [id|]; [destruct Hir as (-> & -> & -> & Hpos)
                          | destruct Hir as (-> & ->)]; retry_crush.
    + destruct (sr - 1 <=? 0) eqn:E; retry_crush.
      * repeat split.
      * apply Z.leb_gt in E. repeat split; try discriminate. exact E.
    + rewrite Bool.eqb_reflx. simpl. repeat split. exact Hzero.
  - simpl. repeat split; assumption.
Qed.

Lemma retryRun_wf (events : list RetryEvent) (h : RetryHook) :
  RetryWf h -> RetryWf (retryRun events h).
Proof.
  unfold retryRun. revert h.
  induction events as [|e events IH]; intros h Hwf; simpl; [exact Hwf|].
  apply IH. now apply retryStep_wf.
Qed.

(** X2.  In every state the controller can reach it owns at most one interval,
    the one [intervalRef] names; [isCountingDown] says whether it exists;
    an interval runs only while the controller is rate limited with a
    positive counter; and the counter is 0 whenever it is not rate
    limited. *)
Theorem retry_at_most_one_timer (events : list RetryEvent) (delay : Q) :
  let h := retryRun events (useRateLimitRetry delay) in
  (List.length (liveIntervals h) <= 1)%nat
  /\ liveIntervals h = match intervalRef h with Some id => [id] | None => [] end
  /\ (isCountingDown h = true <-> intervalRef h <> None)
  /\ (intervalRef h <> None -> isRateLimited h = true /\ 0 < secondsRemaining h)
  /\ (isRateLimited h = false -> secondsRemaining h = 0).
Proof.
  cbv zeta.
  destruct (retryRun_wf events _ (mount_retry_wf delay)) as (_ & Hzero & Hir).
  destruct (intervalRef (retryRun events (useRateLimitRetry delay))) as [id|].
  - destruct Hir as (Hlive & Hcd & Hrl & Hpos). rewrite Hlive, Hcd.
    repeat split; auto; discriminate.
  - destruct Hir as (Hlive & Hcd). rewrite Hlive, Hcd.
    split; [simpl; lia | split; [reflexivity | split; [| split]]].
    + split; [discriminate | intros Hne; now contradiction Hne].
    + intros Hne. now contradiction Hne.
    + exact Hzero.
Qed.

(** X3.  [cancelRetry()] and [resetRateLimit()], in whatever state the
    controller is: it is idle afterwards with the counter at 0 and no
    interval, the retry callback is neither run nor queued by the call,
    and no passing of time changes the state again. *)
Theorem cancel_forces_idle (events : list RetryEvent) (delay : Q) (n : nat) :
  let h := retryRun events (useRateLimitRetry delay) in
  let h' := retryStep h CallCancel in
  (RetryIdle h'
   /\ secondsRemaining h' = 0
   /\ queuedRetries h' = queuedRetries h
   /\ retryCalls h' = retryCalls h
   /\ retryRun (repeat SecondElapses n) h' = h')
  /\ retryStep h CallReset = h'.
Proof.
  cbv zeta. split; [| reflexivity].
  pose proof (retryRun_wf events _ (mount_retry_wf delay)) as Hwf.
  set (h := retryRun events (useRateLimitRetry delay)) in *.
  assert (Hstate : RetryIdle (retryStep h CallCancel)
                   /\ secondsRemaining (retryStep h CallCancel) = 0
                   /\ queuedRetries (retryStep h CallCancel) = queuedRetries h
                   /\ retryCalls (retryStep h CallCancel) = retryCalls h).
  { clearbody h. unfold RetryWf in Hwf.
    destruct h as [d rl sr ir cd deps live nh q calls]; simpl in Hwf.
    destruct Hwf as (Hdeps & Hzero & Hir). subst deps.
    unfold RetryIdle, retryStep, cancelRetry,
      commitRetry, countdownCleanup, countdownEffect, clearIntervalRef;
      (destruct ir as [id|]; [destruct Hir as (-> & -> & -> & Hpos)
                             | destruct Hir as (-> & ->)]); retry_crush;
      try (destruct rl; simpl); repeat split. }
  destruct Hstate as (Hidle & H0 & Hq & Hc).
  repeat split; try assumption; try apply Hidle.
  destruct Hidle as (Hrl & _ & _ & Hlive & Hdeps).
  apply no_interval_no_progress; [exact Hlive | now rewrite Hdeps, Hrl].
Qed.

Lemma retryStep_budget (h : RetryHook) (e : RetryEvent) :
  RetryWf h ->
  (retryCalls (retryStep h e) + queuedRetries (retryStep h e)
   + List.length (liveIntervals (retryStep h e))
   <= retryCalls h + queuedRetries h + List.length (liveIntervals h)
      + startsIn [e])%nat.
Proof.
  unfold RetryWf.
  destruct h as [d rl sr ir cd deps live nh q calls]; simpl.
  intros (Hdeps & Hzero & Hir). subst deps.
  destruct e as [w | | | |]; unfold retryStep;
    unfold startRetryCountdown, cancelRetry, resetRateLimit, fireIntervals,
      onInterval, commitRetry, countdownCleanup, countdownEffect, clearIntervalRef;
    (destruct ir as [id|]; [destruct Hir as (-> & -> & -> & Hpos)
                           | destruct Hir as (-> & ->)]); retry_crush;
    try (destruct rl; simpl);
    try (destruct (0 <? Qceiling match w with Some w0 => w0 | None => d end + 1));
    try (destruct (sr - 1 <=? 0)); retry_crush; try lia.
Qed.

(** X4.  The retry callback is never run more often than [startRetryCountdown]
    was called: calls made, calls queued and the running countdown
    together never exceed the number of triggers. *)
Theorem retry_calls_bounded_by_triggers (events : list RetryEvent) (delay : Q) :
  let h := retryRun events (useRateLimitRetry delay) in
  (retryCalls h + queuedRetries h + List.length (liveIntervals h)
   <= startsIn events)%nat.
Proof.
  cbv zeta.
  assert (H : forall events h0,
             RetryWf h0 ->
             (retryCalls (retryRun events h0) + queuedRetries (retryRun events h0)
              + List.length (liveIntervals (retryRun events h0))
              <= retryCalls h0 + queuedRetries h0 + List.length (liveIntervals h0)
                 + startsIn events)%nat).
  { clear. induction events as [|e events IH]; intros h0 Hwf.
    - simpl. lia.
    - change (retryRun (e :: events) h0) with (retryRun events (retryStep h0 e)).
      specialize (IH _ (retryStep_wf h0 e Hwf)).
      pose proof (retryStep_budget h0 e Hwf) as Hstep.
      assert (Hsplit : (startsIn (e :: events) = startsIn [e] + startsIn events)%nat)
        by (destruct e; reflexivity).
      lia. }
  specialize (H events _ (mount_retry_wf delay)). simpl in H. exact H.
Qed.

(* ------------------------------------------------------------------ *)
(** ** Countdown texts *)

Lemma padStart2_twoDigits (n : Z) :
  0 <= n < 100 -> padStart2 (string_of_Z n) = twoDigits n.
Proof.
  intros Hn.
  assert (Hall : forallb (fun k => String.eqb (padStart2 (string_of_Z (Z.of_nat k)))
                                              (twoDigits (Z.of_nat k)))
                         (seq 0 100) = true) by (vm_compute; reflexivity).
  rewrite forallb_forall in Hall.
  specialize (Hall (Z.to_nat n)).
  rewrite Z2Nat.id in Hall by lia.
  apply String.eqb_eq, Hall, in_seq. lia.
Qed.

Lemma twoDigits_length (n : Z) : String.length (twoDigits n) = 2%nat.
Proof. reflexivity. Qed.

(** X5.  Both countdown texts write the seconds with two digits.  For a
    counter that is not negative [formatSecondsRemaining] gives the
    minutes, a colon and the two-digit seconds; the auto-refresh text is
    "00:00" at or below zero and otherwise, below 100 minutes, two-digit
    minutes, a colon and two-digit seconds: five characters. *)
Theorem countdown_texts_zero_padded :
  (forall seconds, 0 <= seconds ->
      formatSecondsRemaining seconds
      = (string_of_Z (seconds / 60) ++ ":" ++ twoDigits (seconds mod 60))%string)
  /\ (forall seconds, seconds <= 0 -> formatRefreshCountdown seconds = "00:00")
  /\ (forall seconds, 0 < seconds < 6000 ->
         formatRefreshCountdown seconds
         = (twoDigits (seconds / 60) ++ ":" ++ twoDigits (seconds mod 60))%string
         /\ String.length (formatRefreshCountdown seconds) = 5%nat).
Proof.
  split; [| split].
  - intros s Hs. unfold formatSecondsRemaining.
    rewrite Z.rem_mod_nonneg by lia.
    rewrite padStart2_twoDigits; [reflexivity |].
    pose proof (Z.mod_pos_bound s 60). lia.
  - intros s Hs. unfold formatRefreshCountdown.
    now replace (s <=? 0) with true by (symmetry; apply Z.leb_le; lia).
  - intros s Hs.
    assert (Heq : formatRefreshCountdown s
                  = (twoDigits (s / 60) ++ ":" ++ twoDigits (s mod 60))%string).
    { unfold formatRefreshCountdown.
      replace (s <=? 0) with false by (symmetry; apply Z.leb_gt; lia).
      rewrite Z.rem_mod_nonneg by lia.
      rewrite !padStart2_twoDigits; [reflexivity | |].
      - pose proof (Z.mod_pos_bound s 60). lia.
      - split; [apply Z.div_pos; lia | apply Z.div_lt_upper_bound; lia]. }
    split; [exact Heq | rewrite Heq; reflexivity].
Qed.

Lemma countdown_texts_zero_padded_witness :
  formatSecondsRemaining 65 = (string_of_Z (65 / 60) ++ ":" ++ twoDigits (65 mod 60))%string
  /\ formatRefreshCountdown 170
     = (twoDigits (170 / 60) ++ ":" ++ twoDigits (170 mod 60))%string.
Proof.
  split.
  - apply (proj1 countdown_texts_zero_padded 65). lia.
  - apply (proj2 (proj2 countdown_texts_zero_padded) 170). lia.
Defined.

(* ------------------------------------------------------------------ *)
(** ** Reachable states of the auto-refresh scheduler *)

Lemma mount_refresh_inv (o : RefreshOptions) : RefreshInv (useAutoRefreshCountdown o).
Proof.
  split; [apply mount_settled |].
  destruct o as [[] [] []]; simpl; split; try discriminate;
    change (AUTO_REFRESH_INTERVAL / 1000) with 180; lia.
Qed.

Lemma refreshStep_inv (h : RefreshHook) (e : RefreshEvent) :
  RefreshInv h -> RefreshInv (refreshStep h e).
Proof.
  intros (Hs & Hrf & Hsr). split; [now apply step_settled |].
  change (AUTO_REFRESH_INTERVAL / 1000) with 180 in *.
  unfold RefreshSettled in Hs.
  destruct h as [[en l p] sr rf ir md mc rd live nh calls].
  simpl in Hrf, Hsr.
  destruct e as [[en' l' p'] | | | [en' l' p']].
  - destruct en, l, p, rf; simpl in Hs; refresh_cases; subst;
      destruct en', l', p'; simpl; rewrite ?Nat.eqb_refl; simpl;
        (split; [first [discriminate | intros _; reflexivity]
                | try change (AUTO_REFRESH_INTERVAL / 1000) with 180; lia]).
  - destruct en, l, p, rf; simpl in Hs; refresh_cases; subst; simpl;
      (split; [discriminate | try change (AUTO_REFRESH_INTERVAL / 1000) with 180; lia]).
  - destruct en, l, p, rf; simpl in Hs; refresh_cases; subst;
      unfold refreshStep, ar_fireIntervals, ar_onInterval; simpl;
        rewrite ?Nat.eqb_refl; simpl;
        try (destruct (sr <=? 1) eqn:E; simpl;
             [| apply Z.leb_gt in E]);
        (split; [first [discriminate | intros _; reflexivity]
                | try change (AUTO_REFRESH_INTERVAL / 1000) with 180; lia]).
  - destruct en, l, p, rf; simpl in Hs; refresh_cases; subst;
      unfold refreshStep, ar_fireIntervals, ar_onInterval; simpl;
        rewrite ?Nat.eqb_refl; simpl;
        try (destruct (sr <=? 1) eqn:E; simpl;
             [| apply Z.leb_gt in E]);
        rewrite ?Nat.ltb_irrefl, ?ltb_succ; simpl;
        destruct en', l', p'; simpl; rewrite ?Nat.eqb_refl; simpl;
        (split; [first [discriminate | intros _; reflexivity]
                | try change (AUTO_REFRESH_INTERVAL / 1000) with 180; lia]).
Qed.

Lemma refreshRun_inv (events : list RefreshEvent) (h : RefreshHook) :
  RefreshInv h -> RefreshInv (refreshRun events h).
Proof.
  unfold refreshRun. revert h.
  induction events as [|e events IH]; intros h Hinv; simpl; [exact Hinv|].
  apply IH. now apply refreshStep_inv.
Qed.


(** One second of a running scheduler. *)
Lemma running_second (h : RefreshHook) :
  RefreshInv h -> enabled (options h) = true -> isPaused (options h) = false ->
  let h' := refreshStep h SecondPasses in
  options h' = options h
  /\ (isLoading (options h) = false ->
      if 1 <? ar_secondsRemaining h
      then ar_secondsRemaining h' = ar_secondsRemaining h - 1
           /\ refreshCalls h' = refreshCalls h
      else ar_secondsRemaining h' = 180 /\ refreshCalls h' = S (refreshCalls h))
  /\ (isLoading (options h) = true ->
      ar_secondsRemaining h' = Z.max 0 (ar_secondsRemaining h - 1)
      /\ refreshCalls h' = refreshCalls h
      /\ isRefreshing h' = isRefreshing h).
Proof.
  intros (Hs & Hrf & Hsr) He Hp.
  change (AUTO_REFRESH_INTERVAL / 1000) with 180 in *.
  unfold RefreshSettled in Hs.
  destruct h as [[en l p] sr rf ir md mc rd live nh calls].
  simpl in Hrf, Hsr, He, Hp. subst en p.
  destruct l, rf; simpl in Hs; refresh_cases; subst;
    unfold refreshStep, ar_fireIntervals, ar_onInterval; simpl;
    rewrite ?Nat.eqb_refl; simpl.
  - split; [reflexivity | split; [discriminate | intros _; repeat split]].
  - split; [now destruct (sr <=? 1) |]. split; [discriminate |]. intros _.
    destruct (sr <=? 1) eqn:E; simpl;
      [apply Z.leb_le in E | apply Z.leb_gt in E]; repeat split; lia.
  - split; [now destruct (sr <=? 1) |]. split; [| discriminate]. intros _.
    destruct (sr <=? 1) eqn:E; simpl;
      [apply Z.leb_le in E; replace (1 <? sr) with false
         by (symmetry; apply Z.ltb_ge; lia)
      | apply Z.leb_gt in E; replace (1 <? sr) with true
         by (symmetry; apply Z.ltb_lt; lia)];
      split; reflexivity.
Qed.

Lemma repeat_snoc {A : Type} (x : A) (n : nat) : repeat x (S n) = repeat x n ++ [x].
Proof. induction n as [|n IH]; [reflexivity|]. simpl in *. now rewrite <- IH. Qed.

(** X7.  An enabled scheduler that is neither paused nor loading refreshes
    every 180 seconds: [n] seconds after mounting, the refresh callback
    has been called [n / 180] times and the counter shows
    [180 - n mod 180]. *)
Theorem refresh_every_interval (n : nat) :
  let h := refreshRun (repeat SecondPasses n)
             (useAutoRefreshCountdown (mkRefreshOptions true false false)) in
  Z.of_nat (refreshCalls h) = Z.of_nat n / 180
  /\ ar_secondsRemaining h = 180 - Z.of_nat n mod 180
  /\ formattedCountdown h = formatRefreshCountdown (180 - Z.of_nat n mod 180).
Proof.
  cbv zeta.
  assert (H : RefreshInv (refreshRun (repeat SecondPasses n)
                            (useAutoRefreshCountdown (mkRefreshOptions true false false)))
              /\ options (refreshRun (repeat SecondPasses n)
                            (useAutoRefreshCountdown (mkRefreshOptions true false false)))
                 = mkRefreshOptions true false false
              /\ Z.of_nat (refreshCalls (refreshRun (repeat SecondPasses n)
                            (useAutoRefreshCountdown (mkRefreshOptions true false false))))
                 = Z.of_nat n / 180
              /\ ar_secondsRemaining (refreshRun (repeat SecondPasses n)
                            (useAutoRefreshCountdown (mkRefreshOptions true false false)))
                 = 180 - Z.of_nat n mod 180).
  { induction n as [|n (Hinv & Hopt & Hcalls & Hsr)].
    - split; [apply mount_refresh_inv | repeat split].
    - rewrite repeat_snoc, refreshRun_app.
      set (h := refreshRun (repeat SecondPasses n) _) in *.
      change (refreshRun [SecondPasses] h) with (refreshStep h SecondPasses).
      split; [now apply refreshStep_inv |].
      destruct (running_second h Hinv) as (Hopt' & Hload & _);
        [now rewrite Hopt | now rewrite Hopt |].
      cbv zeta in Hopt', Hload.
      split; [congruence |].
      specialize (Hload ltac:(now rewrite Hopt)).
      rewrite Hsr in Hload.
      destruct (1 <? 180 - Z.of_nat n mod 180) eqn:E;
        [apply Z.ltb_lt in E | apply Z.ltb_ge in E];
        destruct Hload as (Hsr' & Hcalls'); rewrite Hsr', Hcalls';
        rewrite ?Nat2Z.inj_succ, ?Hcalls;
        Z.to_euclidean_division_equations; lia. }
  destruct H as (_ & _ & Hcalls & Hsr).
  split; [exact Hcalls | split; [exact Hsr |]].
  unfold formattedCountdown. now rewrite Hsr.
Qed.

(** X8.  While [isLoading] is true an enabled, unpaused scheduler counts
    down to 0 and holds there without calling the refresh callback.  When
    the caller then renders with [isLoading] false: if the loading was the
    scheduler's own refresh ([isRefreshing] true), the counter goes back
    to 180 at once and the next second shows 179, with no further call;
    if it was not and the counter has reached at most 1, the next second
    calls the refresh callback once, and the counter is back at 180 when
    the caller does not start loading, and held at 0 with [isRefreshing]
    true when the caller's [onRefresh] raises [isLoading] in the same
    batch. *)
Theorem refresh_waits_for_loading
    (events : list RefreshEvent) (initial : RefreshOptions) (n : nat) :
  let h := refreshRun events (useAutoRefreshCountdown initial) in
  enabled (options h) = true -> isPaused (options h) = false ->
  isLoading (options h) = true ->
  let waited := refreshRun (repeat SecondPasses n) h in
  let loaded := refreshStep waited (Render (mkRefreshOptions true false false)) in
  let resumed := refreshStep loaded SecondPasses in
  ar_secondsRemaining waited = Z.max 0 (ar_secondsRemaining h - Z.of_nat n)
  /\ refreshCalls waited = refreshCalls h
  /\ isRefreshing waited = isRefreshing h
  /\ (isRefreshing h = true ->
      ar_secondsRemaining loaded = 180 /\ isRefreshing loaded = false
      /\ refreshCalls loaded = refreshCalls h
      /\ ar_secondsRemaining resumed = 179 /\ refreshCalls resumed = refreshCalls h)
  /\ (isRefreshing h = false -> ar_secondsRemaining h <= Z.of_nat n + 1 ->
      (refreshCalls resumed = S (refreshCalls h)
       /\ ar_secondsRemaining resumed = 180 /\ isRefreshing resumed = false)
      /\ forall o, isLoading o = true ->
           let busy := refreshStep loaded (SecondPassesThen o) in
           refreshCalls busy = S (refreshCalls h)
           /\ ar_secondsRemaining busy = 0 /\ isRefreshing busy = true
           /\ options busy = o).
Proof.
  intros h He Hp Hl waited loaded resumed.
  pose proof (refreshRun_inv events _ (mount_refresh_inv initial)) as Hinv.
  fold h in Hinv.
  assert (H : RefreshInv waited /\ options waited = options h
              /\ ar_secondsRemaining waited
                 = Z.max 0 (ar_secondsRemaining h - Z.of_nat n)
              /\ refreshCalls waited = refreshCalls h
              /\ isRefreshing waited = isRefreshing h).
  { subst waited. clear loaded resumed. induction n as [|n (Hi & Ho & Hsr & Hc & Hr)].
    - split; [exact Hinv |]. repeat split.
      destruct Hinv as (_ & _ & Hrange). simpl. lia.
    - rewrite repeat_snoc, refreshRun_app.
      set (w := refreshRun (repeat SecondPasses n) h) in *.
      change (refreshRun [SecondPasses] w) with (refreshStep w SecondPasses).
      split; [now apply refreshStep_inv |].
      destruct (running_second w Hi) as (Ho' & _ & Hload);
        [now rewrite Ho | now rewrite Ho |].
      cbv zeta in Ho', Hload.
      destruct (Hload ltac:(now rewrite Ho)) as (Hsr' & Hc' & Hr').
      split; [congruence |]. split; [| split; congruence].
      rewrite Hsr', Hsr. lia. }
  destruct H as (Hi & Ho & Hsr & Hc & Hr).
  split; [exact Hsr | split; [exact Hc | split; [exact Hr |]]].
  assert (He' : enabled (options waited) = true) by now rewrite Ho.
  assert (Hp' : isPaused (options waited) = false) by now rewrite Ho.
  assert (Hl' : isLoading (options waited) = true) by now rewrite Ho.
  subst resumed loaded. rewrite <- Hc, <- Hr.
  assert (Hw : ar_secondsRemaining h <= Z.of_nat n + 1 -> ar_secondsRemaining waited <= 1)
    by lia.
  clearbody waited. clear Hsr Hinv Hc Hr Ho He Hp Hl.
  destruct Hi as (Hs & Hrf & Hrange). unfold RefreshSettled in Hs.
  change (AUTO_REFRESH_INTERVAL / 1000) with 180 in Hrange.
  destruct waited as [[en l p] sr rf ir md mc rd live nh calls].
  simpl in *. subst en l p.
  split.
  - intros ->. simpl in Hs. refresh_cases; subst.
    unfold refreshStep, ar_fireIntervals, ar_onInterval; simpl.
    repeat (rewrite Nat.eqb_refl; simpl). repeat split.
  - intros -> Hdone. specialize (Hw Hdone).
    simpl in Hs. refresh_cases; subst.
    unfold refreshStep, ar_fireIntervals, ar_onInterval; simpl.
    repeat (rewrite Nat.eqb_refl; simpl).
    replace (sr <=? 1) with true by (symmetry; apply Z.leb_le; lia).
    simpl. split; [repeat split |].
    intros [en' l' p'] Hl'. simpl in Hl'. subst l'.
    rewrite ltb_succ. destruct en', p'; simpl; repeat split.
Qed.

Lemma refresh_waits_for_loading_witness :
  let h :=
    refreshRun (repeat SecondPasses 179 ++ [SecondPassesThen (mkRefreshOptions true true false)])
      (useAutoRefreshCountdown (mkRefreshOptions true false false)) in
  let waited := refreshRun (repeat SecondPasses 30) h in
  let loaded := refreshStep waited (Render (mkRefreshOptions true false false)) in
  (isRefreshing h = true /\ ar_secondsRemaining h = 0 /\ refreshCalls h = 1%nat)
  /\ ar_secondsRemaining loaded = 180
  /\ refreshCalls (refreshStep loaded SecondPasses) = 1%nat.
Proof.
  cbv zeta.
  pose proof (refresh_waits_for_loading
                (repeat SecondPasses 179 ++ [SecondPassesThen (mkRefreshOptions true true false)])
                (mkRefreshOptions true false false) 30 eq_refl eq_refl eq_refl) as H.
  cbv zeta in H. destruct H as (_ & _ & _ & Hown & _).
  destruct (Hown eq_refl) as (H180 & _ & _ & _ & Hcalls).
  split; [repeat split |]. split; [exact H180 | exact Hcalls].
Defined.

(* ------------------------------------------------------------------ *)
(** ** Market hours on the profiles of the tables *)

Lemma lookup_config_In (key : string) (table : list (string * ExchangeConfig))
    (c : ExchangeConfig) :
  lookup_config key table = Some c -> exists k, In (k, c) table.
Proof.
  induction table as [|[k c0] table IH]; simpl; [discriminate|].
  destruct (String.eqb key k).
  - intros H; inversion H; subst. exists k. now left.
  - intros H. destruct (IH H) as [k' Hk']. exists k'. now right.
Qed.

Lemma getExchangeConfig_In (exchange tz : option string) (c : ExchangeConfig) :
  getExchangeConfig exchange tz = Some c ->
  exists k, In (k, c) (EXCHANGE_CONFIG ++ timezoneToConfig).
Proof.
  unfold getExchangeConfig, getConfigFromTimezone. intros H.
  assert (Hl : forall key, lookup_config key EXCHANGE_CONFIG = Some c ->
                    exists k, In (k, c) (EXCHANGE_CONFIG ++ timezoneToConfig)).
  { intros key Hk. destruct (lookup_config_In _ _ _ Hk) as [k Hin].
    exists k. apply in_or_app. now left. }
  assert (Hr : forall key, lookup_config key timezoneToConfig = Some c ->
                    exists k, In (k, c) (EXCHANGE_CONFIG ++ timezoneToConfig)).
  { intros key Hk. destruct (lookup_config_In _ _ _ Hk) as [k Hin].
    exists k. apply in_or_app. now right. }
  destruct exchange as [code|].
  - destruct (String.eqb code "").
    + destruct tz as [z|]; [| discriminate].
      destruct (String.eqb z ""); [discriminate | eauto].
    + destruct (lookup_config code EXCHANGE_CONFIG) as [c1|] eqn:L.
      * inversion H; subst. eauto.
      * destruct tz as [z|]; [| discriminate].
        destruct (String.eqb z ""); [discriminate | eauto].
  - destruct tz as [z|]; [| discriminate].
    destruct (String.eqb z ""); [discriminate | eauto].
Qed.

Lemma getExchangeConfig_profileOk (exchange tz : option string) (c : ExchangeConfig) :
  getExchangeConfig exchange tz = Some c -> profileOk c = true.
Proof.
  intros H. destruct (getExchangeConfig_In _ _ _ H) as [k Hin].
  assert (Hall : forallb (fun e => profileOk (snd e))
                         (EXCHANGE_CONFIG ++ timezoneToConfig) = true)
    by (vm_compute; reflexivity).
  rewrite forallb_forall in Hall. exact (Hall _ Hin).
Qed.

Lemma profileOk_facts (c : ExchangeConfig) :
  profileOk c = true ->
  tradingDays c = weekdays
  /\ 0 <= openHour c * 60 + openMinute c
  /\ openHour c * 60 + openMinute c < closeHour c * 60 + closeMinute c
  /\ closeHour c * 60 + closeMinute c < 1440.
Proof.
  unfold profileOk. intros H.
  repeat (apply andb_prop in H; destruct H as [H ?]).
  destruct (list_eq_dec Z.eq_dec (tradingDays c) weekdays); [| discriminate].
  repeat match goal with
         | H : (_ <=? _) = true |- _ => apply Z.leb_le in H
         | H : (_ <? _) = true |- _ => apply Z.ltb_lt in H
         end.
  split; [assumption | lia].
Qed.

(** X9.  For every profile that [getExchangeConfig] returns and every clock
    reading (weekday 0..6, hour 0..23, minute 0..59), [calculateTimeInfo]
    returns after at most seven tests of its scan; the countdown renders
    a number of minutes that is positive and below three days; the
    market is reported open exactly on a trading day from the open up to,
    not including, the close, and then the countdown runs to the close
    with the label "until market closes"; otherwise the label is "until
    market opens". *)
Theorem market_status_total_and_positive
    (exchange tz : option string) (config : ExchangeConfig) (clock : ExchangeClock) :
  getExchangeConfig exchange tz = Some config ->
  0 <= exchangeDayOfWeek clock < 7 ->
  0 <= exchangeHour clock < 24 ->
  0 <= exchangeMinute clock < 60 ->
  let now := exchangeHour clock * 60 + exchangeMinute clock in
  let opens := openHour config * 60 + openMinute config in
  let closes := closeHour config * 60 + closeMinute config in
  exists info minutes,
    calculateTimeInfo 7 config clock = Some info
    /\ countdown info = formatCountdown minutes
    /\ 0 < minutes < 3 * 1440
    /\ (isOpen info = true <->
        includesDay (exchangeDayOfWeek clock) [1; 2; 3; 4; 5] = true
        /\ opens <= now < closes)
    /\ (isOpen info = true ->
        minutes = closes - now /\ countdownLabel info = "until market closes")
    /\ (isOpen info = false -> countdownLabel info = "until market opens").
Proof.
  intros Hcfg Hdow Hh Hm. cbv zeta.
  destruct (profileOk_facts _ (getExchangeConfig_profileOk _ _ _ Hcfg))
    as (Hdays & Ho0 & Hoc & Hc).
  clear Hcfg.
  destruct config as [nm zone oh om ch cm days].
  destruct clock as [ts h m dow lt ol cl].
  simpl in *. subst days.
  unfold calculateTimeInfo, minutesUntilNextOpen.
  cbn [tradingDays openHour openMinute closeHour closeMinute name
       exchangeDayOfWeek exchangeHour exchangeMinute exchangeTimeStr
       localTimeStr marketOpenLocalStr marketCloseLocalStr].
  assert (Hcases : dow = 0 \/ dow = 1 \/ dow = 2 \/ dow = 3 \/ dow = 4
                   \/ dow = 5 \/ dow = 6) by lia.
  clear Hdow.
  repeat (destruct Hcases as [-> | Hcases]); try subst dow;
    repeat match goal with
           | |- context [includesDay ?d ?l] =>
               let v := eval vm_compute in (includesDay d l) in
               change (includesDay d l) with v
           | |- context [scanForward ?f ?l ?a ?b] =>
               let v := eval vm_compute in (scanForward f l a b) in
               change (scanForward f l a b) with v
           end;
    cbn [negb andb];
    destruct (oh * 60 + om <=? h * 60 + m) eqn:E1;
    destruct (h * 60 + m <? ch * 60 + cm) eqn:E2;
    destruct (h * 60 + m <? oh * 60 + om) eqn:E3;
    repeat match goal with
           | H : (_ <=? _) = true |- _ => apply Z.leb_le in H
           | H : (_ <=? _) = false |- _ => apply Z.leb_gt in H
           | H : (_ <? _) = true |- _ => apply Z.ltb_lt in H
           | H : (_ <? _) = false |- _ => apply Z.ltb_ge in H
           end;
    try (exfalso; lia);
    cbn [negb andb];
    eexists; eexists; (split; [reflexivity |]);
      cbn [isOpen countdown countdownLabel];
      (split; [reflexivity |]);
      (split; [lia |]);
      (split; [split; [intros Hx;
                       first [discriminate Hx | split; [reflexivity | lia]]
                      | intros [Hx Hy];
                        first [discriminate Hx | reflexivity | exfalso; lia]] |]);
      (split; [intros Hx; first [discriminate Hx | split; [lia | reflexivity]]
              | intros Hx; first [discriminate Hx | reflexivity]]).
Qed.

Lemma market_status_total_and_positive_witness :
  exists info minutes,
    calculateTimeInfo 7
      (mkExchangeConfig "NYSE" "America/New_York" 9 30 16 0 [1; 2; 3; 4; 5])
      (mkExchangeClock "17:00" 17 0 5 "23:00" "15:30" "22:00") = Some info
    /\ countdown info = formatCountdown minutes
    /\ 0 < minutes < 3 * 1440
    /\ (isOpen info = true <->
        includesDay 5 [1; 2; 3; 4; 5] = true /\ 9 * 60 + 30 <= 17 * 60 + 0 < 16 * 60 + 0)
    /\ (isOpen info = true ->
        minutes = 16 * 60 + 0 - (17 * 60 + 0)
        /\ countdownLabel info = "until market closes")
    /\ (isOpen info = false -> countdownLabel info = "until market opens").
Proof.
  refine (market_status_total_and_positive (Some "NYQ") None
            (mkExchangeConfig "NYSE" "America/New_York" 9 30 16 0 [1; 2; 3; 4; 5])
            (mkExchangeClock "17:00" 17 0 5 "23:00" "15:30" "22:00") _ _ _ _).
  - reflexivity.
  - simpl. lia.
  - simpl. lia.
  - simpl. lia.
Defined.

(** X10.  The days, hours and minutes that [formatCountdown] writes add up to
    the minutes it was given: below one day it writes hours (0..23) and
    minutes (0..59), from one day on days (at least 1), hours (0..23) and
    minutes (0..59). *)
Theorem formatCountdown_exact (totalMinutes : Z) :
  0 <= totalMinutes ->
  let d := totalMinutes / 1440 in
  let h := (totalMinutes / 60) mod 24 in
  let m := totalMinutes mod 60 in
  d * 1440 + h * 60 + m = totalMinutes
  /\ 0 <= h < 24 /\ 0 <= m < 60
  /\ formatCountdown totalMinutes
     = if totalMinutes <? 1440
       then (string_of_Z h ++ "h " ++ string_of_Z m ++ "m")%string
       else (string_of_Z d ++ "d " ++ string_of_Z h ++ "h "
               ++ string_of_Z m ++ "m")%string.
Proof.
  intros Hpos. cbv zeta.
  assert (Hdiv : totalMinutes / 60 / 24 = totalMinutes / 1440)
    by (rewrite Z.div_div by lia; reflexivity).
  split; [| split; [| split]].
  - Z.to_euclidean_division_equations. lia.
  - apply Z.mod_pos_bound. lia.
  - apply Z.mod_pos_bound. lia.
  - unfold formatCountdown.
    rewrite !Z.rem_mod_nonneg by (try apply Z.div_pos; lia).
    destruct (24 <=? totalMinutes / 60) eqn:E1;
      destruct (totalMinutes <? 1440) eqn:E2;
      [apply Z.leb_le in E1; apply Z.ltb_lt in E2
      | apply Z.leb_le in E1; apply Z.ltb_ge in E2
      | apply Z.leb_gt in E1; apply Z.ltb_lt in E2
      | apply Z.leb_gt in E1; apply Z.ltb_ge in E2].
    + exfalso. Z.to_euclidean_division_equations. lia.
    + now rewrite Hdiv.
    + rewrite (Z.mod_small (totalMinutes / 60) 24); [reflexivity |].
      split; [apply Z.div_pos; lia | exact E1].
    + exfalso. Z.to_euclidean_division_equations. lia.
Qed.

Lemma formatCountdown_exact_witness :
  formatCountdown 2730 = "1d 21h 30m" /\ 1 * 1440 + 21 * 60 + 30 = 2730.
Proof.
  destruct (formatCountdown_exact 2730 ltac:(lia)) as (Hsum & _ & _ & Hfmt).
  split; [exact Hfmt | exact Hsum].
Defined.

(** X11.  The fallback by timezone agrees with the table of exchange codes:
    whenever an exchange code's profile names a timezone that the
    timezone table knows, both profiles have the same opening and closing
    time and the same trading days. *)
Theorem timezone_fallback_agrees (code : string) (byCode byZone : ExchangeConfig) :
  lookup_config code EXCHANGE_CONFIG = Some byCode ->
  getConfigFromTimezone (timezone byCode) = Some byZone ->
  openHour byCode = openHour byZone /\ openMinute byCode = openMinute byZone
  /\ closeHour byCode = closeHour byZone /\ closeMinute byCode = closeMinute byZone
  /\ tradingDays byCode = tradingDays byZone
  /\ timezone byZone = timezone byCode.
Proof.
  intros Hcode Hzone.
  destruct (lookup_config_In _ _ _ Hcode) as [k Hin].
  assert (Hall : forallb
                   (fun e =>
                      match getConfigFromTimezone (timezone (snd e)) with
                      | Some z => sameHours (snd e) z
                                  && String.eqb (timezone z) (timezone (snd e))
                      | None => true
                      end) EXCHANGE_CONFIG = true)
    by (vm_compute; reflexivity).
  rewrite forallb_forall in Hall. specialize (Hall _ Hin).
  simpl in Hall. rewrite Hzone in Hall.
  apply andb_prop in Hall as [Hsame Htz]. apply String.eqb_eq in Htz.
  unfold sameHours in Hsame.
  repeat (apply andb_prop in Hsame; destruct Hsame as [Hsame ?]).
  destruct (list_eq_dec Z.eq_dec (tradingDays byCode) (tradingDays byZone));
    [| discriminate].
  repeat match goal with
         | H : (_ =? _) = true |- _ => apply Z.eqb_eq in H
         end.
  repeat split; assumption.
Qed.

Lemma timezone_fallback_agrees_witness :
  lookup_config "NYQ" EXCHANGE_CONFIG
  = Some (mkExchangeConfig "NYSE" "America/New_York" 9 30 16 0 weekdays)
  /\ getConfigFromTimezone "America/New_York"
     = Some (mkExchangeConfig "US Market" "America/New_York" 9 30 16 0 weekdays)
  /\ tradingDays (mkExchangeConfig "NYSE" "America/New_York" 9 30 16 0 weekdays)
     = tradingDays (mkExchangeConfig "US Market" "America/New_York" 9 30 16 0 weekdays).
Proof.
  split; [reflexivity | split; [reflexivity |]].
  apply (timezone_fallback_agrees "NYQ"
           (mkExchangeConfig "NYSE" "America/New_York" 9 30 16 0 weekdays)
           (mkExchangeConfig "US Market" "America/New_York" 9 30 16 0 weekdays)
           eq_refl eq_refl).
Defined.

(* ------------------------------------------------------------------ *)
(** ** More on the indicators *)







Lemma mapi_from_nth {A B : Type} (f : nat -> A -> B) (l : list A) :
  forall k i, nth_error (mapi_from k f l) i = option_map (f (k + i)%nat) (nth_error l i).
Proof.
  induction l as [|x l IH]; intros k i.
  - now destruct i.
  - destruct i as [|i]; simpl.
    + now rewrite Nat.add_0_r.
    + rewrite IH. now replace (S k + i)%nat with (k + S i)%nat by lia.
Qed.

Lemma mapi_nth {A B : Type} (f : nat -> A -> B) (l : list A) (i : nat) :
  nth_error (mapi f l) i = option_map (f i) (nth_error l i).
Proof. unfold mapi. now rewrite mapi_from_nth. Qed.

Lemma mapi_length {A B : Type} (f : nat -> A -> B) (l : list A) :
  List.length (mapi f l) = List.length l.
Proof.
  unfold mapi. generalize 0%nat.
  induction l as [|x l IH]; intros k; simpl; [reflexivity | now rewrite IH].
Qed.

(** X14.  The indicator series is aligned with the price series, index by
    index: [calculateIndicators] returns nothing for no data and
    otherwise one element per candle carrying that candle's date and
    timestamp; [mergeIndicatorsWithPriceData] keeps every price point as
    it is and attaches the indicator values of the same index; a disabled
    indicator leaves its fields undefined everywhere; and the three
    fields of an enabled Bollinger indicator are the values of
    [calculateBollingerBands] on the prices at that index, the middle
    one, for a positive period, undefined before index [period - 1] and
    from there on the simple moving average of the prices. *)
Theorem indicators_aligned_with_prices
    (data : list PricePoint) (config : TechnicalIndicatorsConfig) :
  let indicators := calculateIndicators data config in
  let merged := mergeIndicatorsWithPriceData data indicators in
  let prices := map price data in
  calculateIndicators [] config = []
  /\ List.length indicators = List.length data
  /\ List.length merged = List.length data
  /\ forall i p,
       nth_error data i = Some p ->
       exists ind row,
         nth_error indicators i = Some ind
         /\ nth_error merged i = Some row
         /\ i_date ind = date p /\ i_timestamp ind = timestamp p
         /\ pw_point row = p
         /\ pw_ma1 row = ma1 ind /\ pw_ma2 row = ma2 ind
         /\ pw_bbUpper row = bbUpper ind /\ pw_bbMiddle row = bbMiddle ind
         /\ pw_bbLower row = bbLower ind
         /\ ma1 ind
            = (if ma_enabled (movingAverage1 config)
               then valueAt (calculateMA prices (ma_period (movingAverage1 config))
                               (ma_type (movingAverage1 config))) i
               else None)
         /\ ma2 ind
            = (if ma_enabled (movingAverage2 config)
               then valueAt (calculateMA prices (ma_period (movingAverage2 config))
                               (ma_type (movingAverage2 config))) i
               else None)
         /\ (bb_enabled (bollingerBands config) = false ->
             bbUpper ind = None /\ bbMiddle ind = None /\ bbLower ind = None)
         /\ (bb_enabled (bollingerBands config) = true ->
             let bands :=
               calculateBollingerBands prices (bb_period (bollingerBands config))
                 (bb_standardDeviations (bollingerBands config)) in
             pw_bbUpper row = valueAt (upper bands) i
             /\ pw_bbLower row = valueAt (lower bands) i
             /\ pw_bbMiddle row
                = valueAt (calculateSMA prices (bb_period (bollingerBands config))) i
             /\ (0 < bb_period (bollingerBands config) ->
                 (pw_bbMiddle row = None
                  <-> Z.of_nat i < bb_period (bollingerBands config) - 1)
                 /\ (pw_bbUpper row = None <-> pw_bbMiddle row = None)
                 /\ (pw_bbLower row = None <-> pw_bbMiddle row = None))).
Proof.
  cbv zeta. split; [reflexivity |].
  assert (Hlen : List.length (calculateIndicators data config) = List.length data).
  { unfold calculateIndicators. destruct data; [reflexivity |]. apply mapi_length. }
  split; [exact Hlen |].
  split; [apply mapi_length |].
  intros i p Hp.
  assert (Hi : (i < List.length data)%nat) by (apply nth_error_Some; congruence).
  unfold mergeIndicatorsWithPriceData. rewrite mapi_nth, Hp. cbn [option_map].
  unfold fieldAt, calculateIndicators.
  destruct data as [|p0 data']; [destruct i; discriminate |].
  set (data := p0 :: data') in *.
  rewrite mapi_nth, Hp. cbn [option_map].
  eexists. eexists. split; [reflexivity |]. split; [reflexivity |].
  cbn [i_date i_timestamp pw_point pw_ma1 pw_ma2 pw_bbUpper pw_bbMiddle pw_bbLower
       ma1 ma2 bbUpper bbMiddle bbLower].
  repeat (split; [reflexivity |]).
  split; [destruct (ma_enabled (movingAverage1 config));
          [reflexivity | unfold valueAt; now destruct i] |].
  split; [destruct (ma_enabled (movingAverage2 config));
          [reflexivity | unfold valueAt; now destruct i] |].
  split.
  - intros ->. cbn [upper middle lower]. unfold valueAt.
    destruct i; repeat split; reflexivity.
  - intros ->.
    split; [reflexivity | split; [reflexivity | split; [reflexivity |]]].
    intros Hpos.
    assert (Hi' : (i < List.length (map price data))%nat)
      by (rewrite length_map; exact Hi).
    destruct (calculateBollingerBands_nth (map price data)
                (bb_period (bollingerBands config))
                (bb_standardDeviations (bollingerBands config)) i Hi') as [Hu Hl].
    cbv zeta in Hu, Hl.
    change (middle (calculateBollingerBands (map price data)
                      (bb_period (bollingerBands config))
                      (bb_standardDeviations (bollingerBands config))))
      with (calculateSMA (map price data) (bb_period (bollingerBands config))).
    unfold valueAt. rewrite Hu, Hl.
    rewrite calculateSMA_nth by exact Hi'.
    destruct (Z.of_nat i <? bb_period (bollingerBands config) - 1) eqn:E;
      [apply Z.ltb_lt in E | apply Z.ltb_ge in E];
      repeat split; intros H; try reflexivity; try discriminate; lia.
Qed.

(* ------------------------------------------------------------------ *)
(** ** The API service and the error classifiers *)

Lemma includes_longer (p q s : string) :
  includes (p ++ q) s = true -> includes p s = true.
Proof.
  rewrite !includes_iff. unfold Contains.
  intros [before [after Hs]]. exists before, (q ++ after)%string.
  rewrite Hs. f_equal. clear.
  induction p as [|c p IH]; simpl; [reflexivity | now rewrite IH].
Qed.

Lemma includes_later (p q s : string) :
  includes (p ++ q) s = true -> includes q s = true.
Proof.
  rewrite !includes_iff. unfold Contains.
  intros [before [after Hs]]. exists (before ++ p)%string, after.
  rewrite Hs. clear. induction before as [|c b IH]; simpl.
  - induction p as [|c p IH]; simpl; [reflexivity | now rewrite IH].
  - now rewrite IH.
Qed.

Lemma is522Error_server_timeout (m : string) :
  is522Error m = true -> includes "522" m || includes "Server Error" m = true.
Proof.
  unfold is522Error. intros H. apply orb_true_iff in H as [H | H].
  - now rewrite H.
  - apply (includes_longer "Server Error" ":") in H. rewrite H. apply orb_true_r.
Qed.

Lemma delisted_three_patterns (m : string) :
  isDelistedError m
  = includes "delisted" (toLowerCase m)
    || includes "no price data found" (toLowerCase m)
    || includes "no data found" (toLowerCase m).
Proof.
  unfold isDelistedError. cbv zeta.
  destruct (includes "symbol may be delisted" (toLowerCase m)) eqn:E.
  - apply (includes_later "symbol may be " "delisted") in E. now rewrite E.
  - now rewrite orb_false_r.
Qed.

(** X15.  [fetchWithRetry] calls [fetchFn] at least once and at most
    [MAX_RETRIES + 1] = 3 times, and sleeps [RETRY_DELAY_MS] between two
    calls and at no other time.  Every call but the last was rejected
    with a 522-type error; it stops before the third call only on a
    result or on a rejection of another type.  It settles as its last
    call did, except that after three 522-type rejections a thrown value
    that is not an [Error] is rethrown wrapped in an [Error]. *)
Theorem fetchWithRetry_attempts (T : Type) (fetchFn : nat -> Outcome T) :
  let r := fetchWithRetry fetchFn in
  let last := (calls r - 1)%nat in
  (1 <= calls r <= MAX_RETRIES + 1)%nat
  /\ sleptMs r = RETRY_DELAY_MS * Z.of_nat last
  /\ (forall k, (k < last)%nat -> is522Rejection (fetchFn k) = true)
  /\ ((calls r < MAX_RETRIES + 1)%nat -> is522Rejection (fetchFn last) = false)
  /\ settled r
     = match fetchFn last with
       | Resolved value => Resolved value
       | Rejected error =>
           if is522Rejection (fetchFn last)
           then Rejected (ThrownError (toError error))
           else Rejected error
       end.
Proof.
  assert (Hcond : forall error : Thrown,
             negb (instanceof_ServerTimeoutError error)
             && negb (is522Error (error_message (toError error)))
             = negb (is522Rejection (@Rejected T error))).
  { intros error. simpl. now rewrite negb_orb. }
  assert (Hk : forall (n : nat) (P : nat -> Prop),
             (forall k, (k < n)%nat -> P k) -> P n ->
             forall k, (k < S n)%nat -> P k).
  { intros n P Hlt Hn k Hlek. assert (k < n \/ k = n)%nat as [H | ->] by lia; auto. }
  unfold fetchWithRetry, MAX_RETRIES, RETRY_DELAY_MS. cbv zeta. simpl fetchLoop.
  destruct (fetchFn 0%nat) as [v0 | e0] eqn:E0.
  { simpl. rewrite E0. repeat split; try lia; try reflexivity; try (intros k Hk0; lia). }
  rewrite Hcond. destruct (is522Rejection (Rejected e0)) eqn:R0; simpl negb; cbv iota.
  2:{ simpl. rewrite E0, R0.
      repeat split; try lia; try reflexivity; try (intros k Hk0; lia). }
  assert (Hone : forall k, (k < 1)%nat -> is522Rejection (fetchFn k) = true).
  { apply Hk; [intros k Hk0; lia | now rewrite E0]. }
  destruct (fetchFn 1%nat) as [v1 | e1] eqn:E1.
  { simpl. rewrite E1. repeat split; try lia; try reflexivity; try exact Hone. }
  rewrite Hcond. destruct (is522Rejection (Rejected e1)) eqn:R1; simpl negb; cbv iota.
  2:{ simpl. rewrite E1, R1. repeat split; try lia; try reflexivity; try exact Hone. }
  assert (Hboth : forall k, (k < 2)%nat -> is522Rejection (fetchFn k) = true).
  { apply Hk; [exact Hone | now rewrite E1]. }
  destruct (fetchFn 2%nat) as [v2 | e2] eqn:E2.
  { simpl. rewrite E2. repeat split; try lia; try reflexivity; try exact Hboth. }
  rewrite Hcond. destruct (is522Rejection (Rejected e2)) eqn:R2; simpl negb; cbv iota;
    simpl; rewrite E2, R2; repeat split; try lia; try reflexivity; try exact Hboth.
Qed.

Lemma stringOr_not_empty (s : option string) (fallback : string) :
  fallback <> "" -> stringOr s fallback <> "".
Proof.
  intros Hf. unfold stringOr. destruct s as [text|]; [|exact Hf].
  destruct (String.eqb text "") eqn:E; [exact Hf |].
  now apply String.eqb_neq in E.
Qed.

Lemma new_SymbolNotFoundError_message (symbol m : string) :
  m <> "" -> new_SymbolNotFoundError symbol (Some m) = SymbolNotFoundError symbol m.
Proof.
  intros Hm. unfold new_SymbolNotFoundError.
  destruct (String.eqb m "") eqn:E; [|reflexivity].
  now apply String.eqb_eq in E.
Qed.

(** X16.  What [handleResponseError] throws, seen by its callers.  The
    error always has a message.  [fetchWithRetry] answers it with another
    attempt exactly when it is a [ServerTimeoutError], or a
    [RateLimitError] whose message mentions [522] or [Server Error:].
    The classifier [isSymbolNotFoundError] of the pages gives on it the
    answer of the service's own [isDelistedError] on the message, and
    [isEmptyHistoryError] holds only of an error that the response marked
    as such. *)
Theorem response_error_classification (response : HttpResponse) (symbol : option string) :
  let e := handleResponseError response symbol in
  error_message e <> ""
  /\ (is522Rejection (@Rejected unit (ThrownError e)) = true
      <-> instanceof_ServerTimeoutError (ThrownError e) = true
          \/ (instanceof_RateLimitError (ThrownError e) = true
              /\ is522Error (error_message e) = true))
  /\ isSymbolNotFoundError (ThrownError e) = isDelistedError (error_message e)
  /\ (isEmptyHistoryError (ThrownError e) = true ->
      exists data, body response = Some data
        /\ (eb_error_type data = Some "empty_history" \/ eb_no_retry data = true)).
Proof.
  unfold handleResponseError. cbv zeta.
  set (errorData := match body response with
                    | Some data => data
                    | None => mkErrorBody (Some "Unknown error") None None false None
                    end).
  set (errorMessage := stringOr (eb_error errorData) _).
  assert (Hne : errorMessage <> "").
  { apply stringOr_not_empty. simpl. discriminate. }
  destruct ((status response =? 429)
            || includes "rate limit" (toLowerCase errorMessage)
            || includes "too many requests" (toLowerCase errorMessage)).
  { simpl. repeat split; try assumption; try discriminate.
    - intros H; right; split; [reflexivity | exact H].
    - intros [H | [_ H]]; [discriminate | exact H]. }
  destruct (status response =? 522) eqn:E522; simpl orb; cbv iota.
  { simpl. repeat split; try assumption; try discriminate; auto. }
  destruct (is522Error errorMessage) eqn:Em; cbv iota.
  { simpl. repeat split; try assumption; try discriminate; auto. }
  destruct ((match eb_error_type errorData with
             | Some t => String.eqb t "empty_history"
             | None => false
             end) || eb_no_retry errorData) eqn:Eh.
  { simpl. rewrite Em. repeat split; try assumption; try discriminate.
    - intros [H | [H _]]; discriminate.
    - intros _. subst errorData. destruct (body response) as [data|];
        [|discriminate Eh].
      exists data. split; [reflexivity |].
      apply orb_true_iff in Eh as [Eh | Eh]; [left | right; exact Eh].
      destruct (eb_error_type data) as [t|]; [|discriminate].
      apply String.eqb_eq in Eh. now subst t. }
  destruct (isDelistedError errorMessage) eqn:Ed.
  { rewrite new_SymbolNotFoundError_message by exact Hne.
    simpl. rewrite Em, Ed. repeat split; try assumption; try discriminate.
    intros [H | [H _]]; discriminate. }
  simpl. rewrite Em. repeat split; try assumption; try discriminate.
  intros [H | [H _]]; discriminate.
Qed.

(** X17.  The service and the pages classify by overlapping patterns.
    Whatever [fetchWithRetry] answers with another attempt, the pages'
    [isServerTimeoutError] accepts.  The fourth pattern of
    [isSymbolNotFoundError] never decides: three patterns give the same
    answer.  A thrown value that is not an [Error] is in no class and
    names no symbol. *)
Theorem page_classifiers_cover_service (e : JsError) (description : string) :
  (is522Rejection (@Rejected unit (ThrownError e)) = true ->
   isServerTimeoutError (ThrownError e) = true)
  /\ isSymbolNotFoundError (ThrownError e)
     = instanceof_SymbolNotFoundError (ThrownError e)
       || includes "delisted" (toLowerCase (error_message e))
       || includes "no price data found" (toLowerCase (error_message e))
       || includes "no data found" (toLowerCase (error_message e))
  /\ isServerTimeoutError (ThrownOther description) = false
  /\ isSymbolNotFoundError (ThrownOther description) = false
  /\ isEmptyHistoryError (ThrownOther description) = false
  /\ extractSymbolFromError (ThrownOther description) = None.
Proof.
  split; [|split; [|repeat split]].
  - unfold is522Rejection, isServerTimeoutError.
    destruct (instanceof_ServerTimeoutError (ThrownError e)); [reflexivity |].
    simpl. apply is522Error_server_timeout.
  - unfold isSymbolNotFoundError.
    destruct (instanceof_SymbolNotFoundError (ThrownError e)); [reflexivity |].
    simpl instanceof_Error. cbv iota beta zeta. simpl orb at 4.
    rewrite <- !orb_assoc. rewrite !orb_assoc. apply delisted_three_patterns.
Qed.

(* ------------------------------------------------------------------ *)
(** ** The symbol named by an error message *)

Lemma takeClass_app (cls : ascii -> bool) (s rest : string) :
  forallb cls (list_ascii_of_string s) = true ->
  takeClass cls rest = "" ->
  takeClass cls (s ++ rest) = s.
Proof.
  intros Hs Hrest. induction s as [|c s IH]; simpl in *; [exact Hrest |].
  apply andb_true_iff in Hs as [Hc Hs]. rewrite Hc, IH by exact Hs. reflexivity.
Qed.

Lemma takeClass_all (cls : ascii -> bool) (s : string) :
  forallb cls (list_ascii_of_string s) = true -> takeClass cls s = s.
Proof.
  induction s as [|c s IH]; simpl; [reflexivity |].
  intros H. apply andb_true_iff in H as [Hc Hs]. now rewrite Hc, IH.
Qed.

Lemma captureClass_app (cls : ascii -> bool) (s rest : string) :
  s <> "" ->
  forallb cls (list_ascii_of_string s) = true ->
  takeClass cls rest = "" ->
  captureClass cls (s ++ rest) = Some s.
Proof.
  intros Hne Hs Hrest. unfold captureClass.
  rewrite takeClass_app by assumption. destruct s; [contradiction | reflexivity].
Qed.

Lemma isTicker_facts (symbol : string) :
  isTicker symbol = true ->
  symbol <> "" /\ forallb isSymbolChar (list_ascii_of_string symbol) = true.
Proof.
  unfold isTicker. intros H. apply andb_true_iff in H as [Hne Hall].
  split; [|exact Hall]. intros ->. discriminate.
Qed.

Lemma symbolChar_plain (c : ascii) :
  isSymbolChar c = true ->
  isSymbolCharI c = true /\ isSpace c = false /\ Ascii.eqb c "$" = false.
Proof.
  destruct c as [[] [] [] [] [] [] [] []]; intros H;
    first [discriminate H | repeat split].
Qed.

Lemma symbolChars_insensitive (s : string) :
  forallb isSymbolChar (list_ascii_of_string s) = true ->
  forallb isSymbolCharI (list_ascii_of_string s) = true.
Proof.
  induction s as [|c s IH]; simpl; [reflexivity |].
  intros H. apply andb_true_iff in H as [Hc Hs].
  destruct (symbolChar_plain c Hc) as [-> _]. now apply IH.
Qed.

(** No dollar sign stands inside a run of symbol characters. *)
Lemma no_dollar_in_symbol (s : string) :
  forallb isSymbolChar (list_ascii_of_string s) = true ->
  firstMatch dollarHere s = None.
Proof.
  induction s as [|c s IH]; simpl; [reflexivity |].
  intros H. apply andb_true_iff in H as [Hc Hs].
  destruct (symbolChar_plain c Hc) as (_ & _ & ->). now apply IH.
Qed.

(** X18.  The messages the sources quote give their symbol back: for a
    ticker of capital letters, digits and dots, the default message of
    [SymbolNotFoundError] and the form [$TICKER: possibly delisted] both
    yield the ticker, whole. *)
Theorem extractSymbol_round_trip (symbol : string) :
  isTicker symbol = true ->
  extractSymbolFromError
    (ThrownError (PlainError (error_message (new_SymbolNotFoundError symbol None))))
  = Some symbol
  /\ extractSymbolFromError
       (ThrownError (PlainError ("$" ++ symbol ++ ": possibly delisted")))
     = Some symbol.
Proof.
  intros H. destruct (isTicker_facts symbol H) as [Hne Hall]. split.
  - unfold extractSymbolFromError, extractSymbolFromErrorMessage,
      new_SymbolNotFoundError, error_message.
    assert (Hd : firstMatch dollarHere ("No price data found for " ++ symbol) = None).
    { simpl. now apply no_dollar_in_symbol. }
    rewrite Hd.
    assert (Hstart : dropClass isSpace symbol = symbol).
    { destruct symbol as [|c s]; [reflexivity |]. simpl in Hall.
      apply andb_true_iff in Hall as [Hc _].
      destruct (symbolChar_plain c Hc) as (_ & Hsp & _). simpl. now rewrite Hsp. }
    assert (Hcap : captureClass isSymbolCharI symbol = Some symbol).
    { unfold captureClass.
      rewrite takeClass_all by now apply symbolChars_insensitive.
      destruct symbol; [contradiction | reflexivity]. }
    cbn -[captureClass dropClass isSpace].
    change (isSpace " ") with true. cbv iota.
    change (dropClass isSpace (String " " symbol)) with (dropClass isSpace symbol).
    now rewrite Hstart, Hcap.
  - unfold extractSymbolFromError, extractSymbolFromErrorMessage, error_message.
    change (firstMatch dollarHere ("$" ++ symbol ++ ": possibly delisted"))
      with (match captureClass isSymbolChar (symbol ++ ": possibly delisted") with
            | Some captured => Some captured
            | None => firstMatch dollarHere (symbol ++ ": possibly delisted")
            end).
    now rewrite captureClass_app.
Qed.

Lemma extractSymbol_round_trip_witness :
  isTicker "7203.T" = true
  /\ extractSymbolFromError (ThrownError (PlainError "No price data found for 7203.T"))
     = Some "7203.T".
Proof.
  split; [reflexivity |].
  exact (proj1 (extractSymbol_round_trip "7203.T" eq_refl)).
Defined.

Lemma takeClass_dropClass (cls : ascii -> bool) (s : string) :
  s = (takeClass cls s ++ dropClass cls s)%string.
Proof.
  induction s as [|c s IH]; simpl; [reflexivity |].
  destruct (cls c); simpl; [now rewrite <- IH | reflexivity].
Qed.

Lemma takeClass_forallb (cls : ascii -> bool) (s : string) :
  forallb cls (list_ascii_of_string (takeClass cls s)) = true.
Proof.
  induction s as [|c s IH]; simpl; [reflexivity |].
  destruct (cls c) eqn:E; simpl; [now rewrite E | reflexivity].
Qed.

Lemma captureClass_Some (cls : ascii -> bool) (s captured : string) :
  captureClass cls s = Some captured ->
  captured <> ""
  /\ forallb cls (list_ascii_of_string captured) = true
  /\ exists after, s = (captured ++ after)%string.
Proof.
  unfold captureClass. intros H.
  assert (Hc : captured = takeClass cls s).
  { destruct (takeClass cls s); [discriminate | now injection H as <-]. }
  split; [|split].
  - intros ->. rewrite <- Hc in H. discriminate.
  - rewrite Hc. apply takeClass_forallb.
  - exists (dropClass cls s). rewrite Hc. apply takeClass_dropClass.
Qed.

Lemma firstMatch_Some (here : string -> option string) (s captured : string) :
  firstMatch here s = Some captured ->
  exists before rest, s = (before ++ rest)%string /\ here rest = Some captured.
Proof.
  induction s as [|c s IH]; simpl; intros H.
  - destruct (here "") eqn:E; [|discriminate].
    exists "", "". now rewrite E.
  - destruct (here (String c s)) eqn:E.
    + exists "", (String c s). now rewrite E.
    + destruct (IH H) as (before & rest & -> & Hr).
      exists (String c before), rest. split; [reflexivity | exact Hr].
Qed.

Lemma Contains_inside (needle before middle : string) :
  Contains needle middle -> Contains needle (before ++ middle).
Proof.
  intros (b & a & ->). exists (before ++ b)%string, a.
  induction before as [|c before IH]; simpl; [reflexivity | now rewrite IH].
Qed.

(** X19.  A symbol that [extractSymbolFromErrorMessage] returns is never
    empty, is made of letters, digits and dots only, and stands in the
    message as it is returned. *)
Theorem extracted_symbol_wellformed (errorMessage symbol : string) :
  extractSymbolFromErrorMessage errorMessage = Some symbol ->
  symbol <> ""
  /\ forallb isSymbolCharI (list_ascii_of_string symbol) = true
  /\ Contains symbol errorMessage.
Proof.
  unfold extractSymbolFromErrorMessage.
  destruct (firstMatch dollarHere errorMessage) as [found|] eqn:Ed.
  - intros H; injection H as ->.
    apply firstMatch_Some in Ed as (before & rest & -> & Hh).
    destruct rest as [|c rest]; [discriminate |]. simpl in Hh.
    destruct (Ascii.eqb c "$"); [|discriminate].
    apply captureClass_Some in Hh as (Hne & Hall & after & ->).
    split; [exact Hne | split; [now apply symbolChars_insensitive |]].
    apply Contains_inside. exists (String c ""), after. reflexivity.
  - intros Hf. apply firstMatch_Some in Hf as (before & rest & -> & Hh).
    destruct rest as [|f [|o [|r rest]]]; try discriminate. simpl in Hh.
    destruct (eqbI f "f" && eqbI o "o" && eqbI r "r"); [|discriminate].
    destruct rest as [|sp rest]; [discriminate |].
    destruct (isSpace sp); [|discriminate].
    apply captureClass_Some in Hh as (Hne & Hall & after & Hafter).
    split; [exact Hne | split; [exact Hall |]].
    apply Contains_inside.
    exists (String f (String o (String r (takeClass isSpace (String sp rest))))), after.
    simpl append. do 3 f_equal. rewrite <- Hafter.
    exact (takeClass_dropClass isSpace (String sp rest)).
Qed.

Lemma extracted_symbol_wellformed_witness :
  extractSymbolFromErrorMessage "Quote not found for symbol aapl" = Some "symbol"
  /\ Contains "symbol" "Quote not found for symbol aapl".
Proof.
  split; [reflexivity |].
  exact (proj2 (proj2 (extracted_symbol_wellformed
                         "Quote not found for symbol aapl" "symbol" eq_refl))).
Defined.

(* ------------------------------------------------------------------ *)
(** ** A rate-limited response, from the service to the countdown *)

Lemma rate_limited_response (response : HttpResponse) (symbol : option string) :
  status response = 429 ->
  exists message,
    handleResponseError response symbol
    = RateLimitError message
        (match body response with
         | Some data =>
             match eb_retry_after data with
             | Some seconds =>
                 if Qeq_bool seconds 0 then retryAfterHeader response else seconds
             | None => retryAfterHeader response
             end
         | None => retryAfterHeader response
         end).
Proof.
  intros Hs. unfold handleResponseError. cbv zeta. rewrite Hs. simpl.
  eexists. unfold new_RateLimitError. f_equal.
  destruct (body response) as [data|]; reflexivity.
Qed.

(** X20.  A 429 response whose body names a wait of [w] > 0 seconds,
    failing a lightweight refresh while the controller is idle, starts a
    countdown of [ceil(w) + 1] seconds; after that many seconds and the
    queued timeout, the retry callback has been called once and the
    controller is idle again. *)
Theorem response_wait_sets_countdown
    (response : HttpResponse) (symbol : option string) (data : ErrorBody)
    (w : Q) (h : RetryHook) :
  RetryIdle h ->
  status response = 429 ->
  body response = Some data ->
  eb_retry_after data = Some w ->
  (0 < w)%Q ->
  let err := ThrownError (handleResponseError response symbol) in
  let h1 := onLightweightRefreshFailure err h in
  let h2 := retryRun (repeat SecondElapses (Z.to_nat (Qceiling w + 1)) ++ [NextTurn]) h1 in
  RetryCounting (nextHandle h) h1
  /\ secondsRemaining h1 = Qceiling w + 1
  /\ RetryIdle h2
  /\ retryCalls h2 = (retryCalls h + queuedRetries h + 1)%nat.
Proof.
  intros Hidle Hs Hb Hr Hw.
  destruct (rate_limited_response response symbol Hs) as [message He].
  rewrite Hb, Hr in He.
  assert (Hnz : Qeq_bool w 0 = false).
  { destruct (Qeq_bool w 0) eqn:E; [|reflexivity].
    apply Qeq_bool_iff in E. rewrite E in Hw. now apply Qlt_irrefl in Hw. }
  rewrite Hnz in He. cbv zeta. rewrite He.
  unfold onLightweightRefreshFailure.
  change (isRateLimitError (ThrownError (RateLimitError message w))) with true.
  cbv iota. simpl waitTimeOf.
  assert (Hc : 0 <= Qceiling w).
  { change 0 with (Qceiling 0). apply Qceiling_resp_le. now apply Qlt_le_weak. }
  assert (Hpos : 0 < totalDelayOf (Some w) h) by (unfold totalDelayOf; lia).
  destruct (start_from_idle (Some w) h Hidle Hpos) as (Hcount & Hsec & Hq & Hcalls & _).
  unfold totalDelayOf in Hsec.
  split; [exact Hcount | split; [exact Hsec |]].
  rewrite retryRun_app.
  destruct (Z.to_nat (Qceiling w + 1)) as [|n] eqn:En; [lia |].
  destruct (countdown_completes n (nextHandle h) _ Hcount) as (Hi & _ & Hq2 & Hcalls2);
    [lia |].
  set (h' := retryRun (repeat SecondElapses (S n)) _) in *.
  simpl retryRun. split.
  - destruct Hi as (A & B & C & D & E). unfold RetryIdle, runQueuedRetries. simpl.
    repeat split; assumption.
  - unfold runQueuedRetries. simpl. rewrite Hcalls2, Hq2, Hcalls, Hq. lia.
Qed.

Lemma response_wait_sets_countdown_witness :
  let response :=
    mkHttpResponse 429
      (Some (mkErrorBody (Some "Too many requests") (Some (5 # 2)%Q) None false None))
      0%Q in
  let h1 :=
    onLightweightRefreshFailure
      (ThrownError (handleResponseError response None))
      (useRateLimitRetry DEFAULT_RETRY_DELAY_SECONDS) in
  secondsRemaining h1 = 4.
Proof.
  cbv zeta.
  refine (proj1 (proj2 (response_wait_sets_countdown
                          (mkHttpResponse 429
                             (Some (mkErrorBody (Some "Too many requests")
                                      (Some (5 # 2)%Q) None false None))
                             0%Q)
                          None
                          (mkErrorBody (Some "Too many requests")
                             (Some (5 # 2)%Q) None false None)
                          (5 # 2)%Q
                          (useRateLimitRetry DEFAULT_RETRY_DELAY_SECONDS)
                          _ eq_refl eq_refl eq_refl _))).
  - vm_compute. repeat split.
  - reflexivity.
Defined.

Lemma start_sets_seconds (w : option Q) (h : RetryHook) :
  secondsRemaining (retryStep h (CallStart w)) = totalDelayOf w h.
Proof.
  destruct h as [d rl sr ir cd deps live nh q calls].
  unfold retryStep, startRetryCountdown, commitRetry, countdownCleanup,
    countdownEffect, totalDelayOf, clearIntervalRef; simpl.
  destruct ir as [id|], deps as [[|]|]; simpl;
    repeat match goal with
           | |- context [if ?b then _ else _] => destruct b; simpl
           end; reflexivity.
Qed.

(** X21.  A 429 response that names no wait (no [retry_after] in the
    body, no [Retry-After] header) carries the wait 0, which is not
    [undefined]: an idle controller then counts one second, whatever its
    default delay, and after that second and the queued timeout the retry
    callback has been called.  The default delay is used only for an
    error that is recognised by its message alone. *)
Theorem response_without_wait_retries_at_once
    (response : HttpResponse) (symbol : option string) (h : RetryHook) :
  RetryIdle h ->
  status response = 429 ->
  (forall data, body response = Some data -> eb_retry_after data = None) ->
  (retryAfterHeader response == 0)%Q ->
  let err := ThrownError (handleResponseError response symbol) in
  let h1 := onLightweightRefreshFailure err h in
  let h2 := retryRun [SecondElapses; NextTurn] h1 in
  secondsRemaining h1 = 1
  /\ RetryIdle h2
  /\ retryCalls h2 = (retryCalls h + queuedRetries h + 1)%nat
  /\ forall message,
       isRateLimitError (ThrownError (PlainError message)) = true ->
       secondsRemaining (onLightweightRefreshFailure (ThrownError (PlainError message)) h)
       = Qceiling (defaultRetryDelaySeconds h) + 1.
Proof.
  intros Hidle Hs Hb Hh.
  destruct (rate_limited_response response symbol Hs) as [message He].
  set (waitTime := match body response with Some _ => _ | None => _ end) in He.
  assert (Hw : (waitTime == 0)%Q).
  { subst waitTime. destruct (body response) as [data|]; [|exact Hh].
    now rewrite (Hb data eq_refl). }
  cbv zeta. rewrite He. unfold onLightweightRefreshFailure.
  change (isRateLimitError (ThrownError (RateLimitError message waitTime))) with true.
  cbv iota. simpl waitTimeOf.
  assert (Htotal : totalDelayOf (Some waitTime) h = 1).
  { unfold totalDelayOf. rewrite (Qceiling_comp _ _ Hw). reflexivity. }
  assert (Hpos : 0 < totalDelayOf (Some waitTime) h) by lia.
  destruct (start_from_idle (Some waitTime) h Hidle Hpos)
    as (Hcount & Hsec & Hq & Hcalls & _).
  rewrite Htotal in Hsec.
  split; [exact Hsec |].
  destruct (countdown_last_second (nextHandle h) _ Hcount) as (Hi & _ & Hq2 & Hcalls2);
    [lia |].
  change (retryRun [SecondElapses; NextTurn] ?x)
    with (runQueuedRetries (retryStep x SecondElapses)).
  set (h' := retryStep _ SecondElapses) in *.
  split; [|split].
  - destruct Hi as (A & B & C & D & E). unfold RetryIdle, runQueuedRetries. simpl.
    repeat split; assumption.
  - unfold runQueuedRetries. simpl. rewrite Hcalls2, Hq2, Hcalls, Hq. lia.
  - intros m Hm. rewrite Hm. simpl waitTimeOf. apply start_sets_seconds.
Qed.

Lemma response_without_wait_retries_at_once_witness :
  secondsRemaining
    (onLightweightRefreshFailure
       (ThrownError (handleResponseError (mkHttpResponse 429 None 0%Q) None))
       (useRateLimitRetry DEFAULT_RETRY_DELAY_SECONDS))
  = 1.
Proof.
  refine (proj1 (response_without_wait_retries_at_once
                   (mkHttpResponse 429 None 0%Q) None
                   (useRateLimitRetry DEFAULT_RETRY_DELAY_SECONDS)
                   _ eq_refl _ _)).
  - vm_compute. repeat split.
  - intros data Hdata. discriminate Hdata.
  - reflexivity.
Defined.

(* ------------------------------------------------------------------ *)
(** ** [convertTimezone]: what every platform gives *)

Lemma split_not_nil (sep : ascii) (s : string) : split sep s <> [].
Proof.
  induction s as [|c s IH]; simpl; [discriminate |].
  destruct (Ascii.eqb c sep); [discriminate |].
  destruct (split sep s); [contradiction | discriminate].
Qed.

Lemma split_two (sep : ascii) (s : string) :
  In sep (list_ascii_of_string s) -> (1 < List.length (split sep s))%nat.
Proof.
  induction s as [|c s IH]; simpl; [contradiction |].
  intros [-> | Hin].
  - rewrite Ascii.eqb_refl. simpl.
    pose proof (split_not_nil sep s). destruct (split sep s); [contradiction | simpl; lia].
  - destruct (Ascii.eqb c sep).
    + simpl. pose proof (split_not_nil sep s).
      destruct (split sep s); [contradiction | simpl; lia].
    + specialize (IH Hin). destruct (split sep s); simpl in *; lia.
Qed.

Lemma hasTime_of_space (before after : string) :
  hasTime (before ++ " " ++ after) = true.
Proof.
  assert (Hin : In " "%char (list_ascii_of_string (before ++ " " ++ after))).
  { induction before as [|c b IH]; simpl; [now left | now right]. }
  unfold hasTime. apply andb_true_iff. split.
  - now apply includes_char_iff.
  - apply Nat.ltb_lt. now apply split_two.
Qed.

Lemma append_assoc (a b c : string) : ((a ++ b) ++ c = a ++ (b ++ c))%string.
Proof. induction a as [|x a IH]; simpl; [reflexivity | now rewrite IH]. Qed.

(** X22.  On every platform [convertTimezone] keeps the kind of its
    input: a date without a time of day comes back as it is, and a string
    with a time of day gives a string with a time of day, so a converted
    value can be converted again.  When the platform cannot render the
    source or the target zone, the input is returned unchanged. *)
Theorem convertTimezone_keeps_kind
    (Number_ : string -> option Z)
    (Date_UTC : Z -> Z -> Z -> Z -> Z -> option Z)
    (formatToParts : string -> Z -> option (string -> option Z))
    (dateStr fromTimezone toTimezone : string) :
  let converted :=
    convertTimezone Number_ Date_UTC formatToParts dateStr fromTimezone toTimezone in
  hasTime converted = hasTime dateStr
  /\ (hasTime dateStr = false -> converted = dateStr)
  /\ ((forall t, formatToParts fromTimezone t = None)
      \/ (forall t, formatToParts toTimezone t = None) ->
      converted = dateStr).
Proof.
  unfold convertTimezone. cbv zeta.
  destruct (String.eqb fromTimezone toTimezone); [repeat split |].
  destruct (hasTime dateStr) eqn:Ht; simpl negb; cbv iota; [|repeat split; exact Ht].
  unfold convertWithTime, numberAt, bind. cbv zeta.
  repeat match goal with
         | |- context [match ?x with Some _ => _ | None => None end] =>
             let E := fresh "E" in destruct x eqn:E
         end;
    try (split; [exact Ht | split; [discriminate | reflexivity]]).
  split; [|split; [discriminate |]].
  - match goal with
    | |- hasTime (?y ++ "-" ++ ?m ++ "-" ++ ?d ++ " " ++ ?time) = true =>
        replace (y ++ "-" ++ m ++ "-" ++ d ++ " " ++ time)%string
          with ((y ++ "-" ++ m ++ "-" ++ d) ++ " " ++ time)%string
          by (rewrite !append_assoc; reflexivity)
    end.
    apply hasTime_of_space.
  - intros [Hf | Hf];
      match goal with
      | H : formatToParts _ _ = Some _ |- _ => rewrite Hf in H; discriminate H
      | _ => idtac
      end.
Qed.
